(** * Itinerix backend: itinerary generation, document serialisation and
      the routes, embedded from [main.py] and [schemas.py].

    Python text is modelled as [string] (a sequence of bytes); the
    operations on text that the program uses ([str.lower], [in],
    [str.join], f-string interpolation) are written out below for ASCII
    text, which is what every table of the program holds. *)

From Stdlib Require Import ZArith Lia List Bool Ascii String.
From Stdlib Require Import DecimalString QArith_base.
From stdpp Require Import base option list gmap sorting.
Import ListNotations.
Local Open Scope string_scope.
Local Open Scope Z_scope.

(** ** Python text primitives *)

Module PyStr.

(** [c.lower()] on one ASCII character; other bytes are left as they are. *)
Definition lower_ascii (c : ascii) : ascii :=
  let n := nat_of_ascii c in
  if (Nat.leb 65 n && Nat.leb n 90)%bool then ascii_of_nat (n + 32) else c.

(** [s.lower()] on text in ASCII: the letters A to Z are lowered and
    every other byte is kept. Outside ASCII Python lowers other letters
    too; a property that depends on it is stated for [is_ascii] text. *)
Fixpoint lower (s : string) : string :=
  match s with
  | EmptyString => EmptyString
  | String c r => String (lower_ascii c) (lower r)
  end.

(** [s.isascii()] *)
Fixpoint is_ascii (s : string) : bool :=
  match s with
  | EmptyString => true
  | String c r => Nat.ltb (nat_of_ascii c) 128 && is_ascii r
  end.

(** [k in s] for two strings: [k] occurs as a contiguous block of [s]. *)
Fixpoint contains (k s : string) : bool :=
  String.prefix k s ||
  match s with
  | EmptyString => false
  | String _ r => contains k r
  end.

(** [sep.join(parts)] *)
Definition join (sep : string) (parts : list string) : string :=
  String.concat sep parts.

(** [str(n)] for an integer. *)
Definition of_Z (n : Z) : string :=
  NilZero.string_of_int (Z.to_int n).

(** Truthiness of a string: [bool(s)]. *)
Definition truthy (s : string) : bool :=
  match s with EmptyString => false | _ => true end.

End PyStr.

(** ** Calendar dates: the part of [datetime] that [date_diff_days] uses *)

Module Calendar.

Record date := mkDate { year : Z; month : Z; day : Z }.

Definition is_leap (y : Z) : bool :=
  (y mod 4 =? 0) && (negb (y mod 100 =? 0) || (y mod 400 =? 0)).

Definition days_in_month (y m : Z) : Z :=
  if m =? 2 then (if is_leap y then 29 else 28)
  else if (m =? 4) || (m =? 6) || (m =? 9) || (m =? 11) then 30
  else 31.

(** Days in the year [y] before the first of month [m]. *)
Definition days_before_month (y m : Z) : Z :=
  let base :=
    nth (Z.to_nat m) [0; 0; 31; 59; 90; 120; 151; 181; 212; 243; 273; 304; 334] 0 in
  if (2 <? m) && is_leap y then base + 1 else base.

(** Days before January 1st of year [y]. *)
Definition days_before_year (y : Z) : Z :=
  let p := y - 1 in p * 365 + p / 4 - p / 100 + p / 400.

(** [date.toordinal()]: January 1st of year 1 is day 1. *)
Definition toordinal (d : date) : Z :=
  days_before_year (year d) + days_before_month (year d) (month d) + day d.

(** The check the [datetime] constructor makes (MINYEAR = 1, MAXYEAR = 9999). *)
Definition valid (d : date) : bool :=
  (1 <=? year d) && (year d <=? 9999) &&
  (1 <=? month d) && (month d <=? 12) &&
  (1 <=? day d) && (day d <=? days_in_month (year d) (month d)).

(** A digit of the classes the patterns write out ([[0-9]], [[1-9]],
    [[0-2]], ...): these hold the ASCII digits only. *)
Definition digit (c : ascii) : option Z :=
  let n := nat_of_ascii c in
  if (Nat.leb 48 n && Nat.leb n 57)%bool then Some (Z.of_nat (n - 48)) else None.

(** Text is held as UTF-8. [next_char s] is the first character of [s],
    as its code point, and the text after it; [None] at the end of the
    text and on bytes that are no UTF-8 (no text holds them). *)
Definition byte (c : ascii) : Z := Z.of_nat (nat_of_ascii c).

Definition continuation (c : ascii) : bool := (128 <=? byte c) && (byte c <? 192).

Definition next_char (s : string) : option (Z * string) :=
  match s with
  | EmptyString => None
  | String a r =>
      let x := byte a in
      if x <? 128 then Some (x, r)
      else if x <? 192 then None
      else if x <? 224 then
        match r with
        | String b r' =>
            let cp := (x - 192) * 64 + (byte b - 128) in
            if continuation b && (128 <=? cp) then Some (cp, r') else None
        | _ => None
        end
      else if x <? 240 then
        match r with
        | String b (String c r') =>
            let cp := (x - 224) * 4096 + (byte b - 128) * 64 + (byte c - 128) in
            if continuation b && continuation c && (2048 <=? cp)
               && negb ((55296 <=? cp) && (cp <=? 57343))
            then Some (cp, r') else None
        | _ => None
        end
      else if x <? 248 then
        match r with
        | String b (String c (String d r')) =>
            let cp := (x - 240) * 262144 + (byte b - 128) * 4096
                      + (byte c - 128) * 64 + (byte d - 128) in
            if continuation b && continuation c && continuation d
               && (65536 <=? cp) && (cp <=? 1114111)
            then Some (cp, r') else None
        | _ => None
        end
      else None
  end.

(** The class [\d] of a pattern on text: every decimal digit of Unicode
    (category Nd), not the ASCII digits alone. The digits of a script are
    ten code points in a row, from its zero on; these are the zeros of
    Unicode 14.0, the character database of CPython 3.11. [int] reads
    such a digit as its value. *)
Definition DECIMAL_ZEROS : list Z :=
  [48; 1632; 1776; 1984; 2406; 2534; 2662; 2790;
   2918; 3046; 3174; 3302; 3430; 3558; 3664; 3792;
   3872; 4160; 4240; 6112; 6160; 6470; 6608; 6784;
   6800; 6992; 7088; 7232; 7248; 42528; 43216; 43264;
   43472; 43504; 43600; 44016; 65296; 66720; 68912; 69734;
   69872; 69942; 70096; 70384; 70736; 70864; 71248; 71360;
   71472; 71904; 72016; 72784; 73040; 73120; 92768; 92864;
   93008; 120782; 120792; 120802; 120812; 120822; 123200; 123632;
   125264; 130032].

Definition decimal_value (cp : Z) : option Z :=
  (fun z => cp - z) <$> List.find (fun z => (z <=? cp) && (cp <? z + 10)) DECIMAL_ZEROS.

(** One character of the class [\d] at the head of the text: its value
    and the text after it. *)
Definition decimal (s : string) : option (Z * string) :=
  '(cp, r) ← next_char s;
  k ← decimal_value cp;
  Some (k, r).

(** Directive [%Y]: the pattern [\d\d\d\d], read by [int]. *)
Definition parse_Y (s : string) : option (Z * string) :=
  '(a, r) ← decimal s;
  '(b, r) ← decimal r;
  '(c, r) ← decimal r;
  '(d, r) ← decimal r;
  Some (a * 1000 + b * 100 + c * 10 + d, r).

(** Directive [%m]: the alternatives [1[0-2]], [0[1-9]], [[1-9]], tried in
    that order; a later alternative is taken when the text after the
    directive (the separator) does not follow the earlier one. *)
Definition parse_m (s : string) : list (Z * string) :=
  match s with
  | String a r =>
      match digit a with
      | Some x =>
          (match r with
           | String b r' =>
               match digit b with
               | Some y =>
                   if ((x =? 1) && (y <=? 2)) || ((x =? 0) && (1 <=? y))
                   then [(x * 10 + y, r')] else []
               | None => []
               end
           | EmptyString => []
           end) ++ (if 1 <=? x then [(x, r)] else [])
      | None => []
      end
  | EmptyString => []
  end.

(** Directive [%d] at the end of the format: the alternatives [3[0-1]],
    [[1-2]\d], [0[1-9]], [[1-9]], [ [1-9]]; the first one that matches is
    taken and the text left over is returned. The second digit of
    [[1-2]\d] is of the class [\d]. *)
Definition parse_d (s : string) : option (Z * string) :=
  match s with
  | String a r =>
      match digit a with
      | Some x =>
          let one := if 1 <=? x then Some (x, r) else None in
          if (x =? 1) || (x =? 2) then
            match decimal r with
            | Some (y, r') => Some (x * 10 + y, r')
            | None => one
            end
          else
            match r with
            | String b r' =>
                match digit b with
                | Some y =>
                    if ((x =? 3) && (y <=? 1)) || ((x =? 0) && (1 <=? y))
                    then Some (x * 10 + y, r') else one
                | None => one
                end
            | EmptyString => one
            end
      | None =>
          if Ascii.eqb a " " then
            match r with
            | String b r' =>
                match digit b with
                | Some y => if 1 <=? y then Some (y, r') else None
                | None => None
                end
            | EmptyString => None
            end
          else None
      end
  | EmptyString => None
  end.

Definition expect_dash (s : string) : option string :=
  match s with
  | String c r => if Ascii.eqb c "-" then Some r else None
  | EmptyString => None
  end.

(** The tail of the format after [%m]: ["-%d"], then the end of the text
    (text left over is the error "unconverted data remains"). *)
Definition parse_tail (y : Z) (mr : Z * string) : option date :=
  r ← expect_dash mr.2;
  '(d, rest) ← parse_d r;
  match rest with
  | EmptyString => Some (mkDate y mr.1 d)
  | _ => None
  end.

Fixpoint first_some {A B} (f : A -> option B) (l : list A) : option B :=
  match l with
  | [] => None
  | x :: l' => match f x with Some b => Some b | None => first_some f l' end
  end.

(** [datetime.strptime(s, "%Y-%m-%d")], reduced to its date; [None]
    stands for the [ValueError] it raises. *)
Definition strptime (s : string) : option date :=
  '(y, r) ← parse_Y s;
  r ← expect_dash r;
  dt ← first_some (parse_tail y) (parse_m r);
  if valid dt then Some dt else None.

End Calendar.

(** ** Utilities of [main.py] *)

Definition date_diff_days (start end_ : string) : Z :=
  match Calendar.strptime start, Calendar.strptime end_ with
  | Some sd, Some ed =>
      let delta := (Calendar.toordinal ed - Calendar.toordinal sd) + 1 in
      Z.max 1 delta
  | _, _ => 3
  end.

Definition EMOJI_MAP : string := "🗺️".
Definition EMOJI_MOUNTAIN : string := "🗻".
Definition EMOJI_ISLAND : string := "🏝️".
Definition EMOJI_CITY : string := "🏙️".
Definition EMOJI_PLANE : string := "✈️".

Definition any_in (keys : list string) (name : string) : bool :=
  existsb (fun k => PyStr.contains k name) keys.

Definition pick_emoji (destination : string) : string :=
  let name := PyStr.lower destination in
  if any_in ["paris"; "rome"; "florence"; "milan"] name then EMOJI_MAP
  else if any_in ["tokyo"; "kyoto"; "osaka"; "japan"] name then EMOJI_MOUNTAIN
  else if any_in ["beach"; "bali"; "maldives"; "honolulu"; "miami"] name then EMOJI_ISLAND
  else if any_in ["new york"; "nyc"; "los angeles"; "la"; "london"] name then EMOJI_CITY
  else EMOJI_PLANE.

(** ** Exceptions and the error monad

    Python code that can raise is a computation in [result]: [Ok v] is a
    normal return, [Raise e] an exception on its way up the stack. *)

Inductive exn :=
| ValidationError (field : string)
| KeyError (key : string)
| IndexError
| ZeroDivisionError
| TypeError (msg : string)
| InvalidId (oid : string)
| HTTPException (status_code : Z) (detail : string).

Inductive result (A : Type) :=
| Ok (a : A)
| Raise (e : exn).
Arguments Ok {A} a.
Arguments Raise {A} e.

#[global] Instance result_ret : MRet result := fun A a => Ok a.
#[global] Instance result_bind : MBind result := fun A B f m =>
  match m with
  | Ok a => f a
  | Raise e => Raise e
  end.

(** [for x in xs: body], where the body updates the loop state [s] or raises. *)
Fixpoint for_each {A S : Type} (body : A -> S -> result S) (xs : list A) (s : S) : result S :=
  match xs with
  | [] => Ok s
  | x :: xs' => s' ← body x s; for_each body xs' s'
  end.

(** [xs[i]] on a list *)
Definition getitem {A : Type} (xs : list A) (i : nat) : result A :=
  match xs !! i with
  | Some x => Ok x
  | None => Raise IndexError
  end.

(** [i % n] on non-negative integers *)
Definition py_mod (i n : nat) : result nat :=
  match n with
  | O => Raise ZeroDivisionError
  | _ => Ok (i mod n)%nat
  end.

(** A [dict] literal with text keys, in source order. *)
Fixpoint dict_lookup {V : Type} (d : list (string * V)) (k : string) : option V :=
  match d with
  | [] => None
  | (k', v) :: d' => if String.eqb k' k then Some v else dict_lookup d' k
  end.

(** [d.get(k, default)] *)
Definition dict_get {V : Type} (d : list (string * V)) (k : string) (default : V) : V :=
  match dict_lookup d k with
  | Some v => v
  | None => default
  end.

(** [d[k]] *)
Definition dict_getitem {V : Type} (d : list (string * V)) (k : string) : result V :=
  match dict_lookup d k with
  | Some v => Ok v
  | None => Raise (KeyError k)
  end.

(** ** The models of [schemas.py] *)

Record TripPreference := mkTripPreference {
  destination : string;
  start_date : string;
  end_date : string;
  travelers : Z;
  budget_level : string;
  pace : string;
  mood : list string;
  interests : list string;
  notes : option string
}.

(** [cost_estimate] is a float in the source; the generator never sets it,
    and a rational stands in for it here. *)
Record ItineraryItem := mkItineraryItem {
  day : Z;
  title : string;
  description : string;
  category : string;
  time_of_day : string;
  location : option string;
  cost_estimate : option Q
}.

Record Itinerary := mkItinerary {
  name : string;
  preference : TripPreference;
  items : list ItineraryItem;
  summary : option string;
  destination_emoji : option string
}.

(** The [Literal] types of [ItineraryItem] and the defaults of its fields. *)
Definition CATEGORY_LITERAL : list string :=
  ["sightseeing"; "food"; "culture"; "adventure"; "relaxation"; "shopping";
   "nightlife"; "transport"]%string.
Definition TIME_OF_DAY_LITERAL : list string :=
  ["morning"; "afternoon"; "evening"; "flex"]%string.
Definition default_category : string := "sightseeing".
Definition default_time_of_day : string := "flex".

Definition is_literal (s : string) (allowed : list string) : bool :=
  existsb (String.eqb s) allowed.

(** [ItineraryItem(day=.., title=.., description=.., category=.., time_of_day=..)]:
    the model validates [day >= 1] and the two literal fields; the fields
    that are not passed keep their defaults. *)
Definition new_ItineraryItem (day : Z) (title description category time_of_day : string)
  : result ItineraryItem :=
  if negb (1 <=? day) then Raise (ValidationError "day")
  else if negb (is_literal category CATEGORY_LITERAL) then Raise (ValidationError "category")
  else if negb (is_literal time_of_day TIME_OF_DAY_LITERAL) then Raise (ValidationError "time_of_day")
  else Ok (mkItineraryItem day title description category time_of_day None None).

(** The [Literal] types of [TripPreference]. *)
Definition BUDGET_LEVEL_LITERAL : list string := ["shoestring"; "moderate"; "luxury"].
Definition PACE_LITERAL : list string := ["relaxed"; "balanced"; "packed"].

(** [TripPreference(destination=.., ..)] with every field passed: the
    model validates [1 <= travelers <= 12] and the two literal fields. *)
Definition new_TripPreference (destination start_date end_date : string) (travelers : Z)
    (budget_level pace : string) (mood interests : list string) (notes : option string)
  : result TripPreference :=
  if negb ((1 <=? travelers) && (travelers <=? 12)) then Raise (ValidationError "travelers")
  else if negb (is_literal budget_level BUDGET_LEVEL_LITERAL)
  then Raise (ValidationError "budget_level")
  else if negb (is_literal pace PACE_LITERAL) then Raise (ValidationError "pace")
  else Ok (mkTripPreference destination start_date end_date travelers budget_level pace
             mood interests notes).

(** ** The generator *)

Definition interest_map : list (string * (string * list string)) :=
  [ ("food", ("food", ["morning"; "evening"]));
    ("museums", ("culture", ["afternoon"]));
    ("art", ("culture", ["afternoon"; "evening"]));
    ("nature", ("adventure", ["morning"; "afternoon"]));
    ("shopping", ("shopping", ["afternoon"; "evening"]));
    ("nightlife", ("nightlife", ["evening"]));
    ("relax", ("relaxation", ["morning"; "afternoon"]));
    ("history", ("culture", ["morning"])) ]%string.

Definition interest_default : string * list string :=
  ("sightseeing", ["morning"; "afternoon"; "evening"])%string.

Definition pace_to_count : list (string * nat) :=
  [ ("relaxed", 2); ("balanced", 3); ("packed", 4) ]%nat.

Definition title_table : list (string * string) :=
  [ ("sightseeing", "Iconic Landmark Walk");
    ("food", "Local Bites & Street Food");
    ("culture", "Museum or Cultural Spot");
    ("adventure", "Outdoor Adventure");
    ("relaxation", "Slow Stroll & Cafe");
    ("shopping", "Design + Boutique Crawl");
    ("nightlife", "Evening Bars & Live Music");
    ("transport", "Transfer/Check-in") ].

(** The interest tag of slot [i]: the caller's list cycled, or the fixed
    tag when the list is empty. *)
Definition interest_key (prefs : TripPreference) (i : nat) : result string :=
  match interests prefs with
  | [] => Ok "sightseeing"
  | _ :: _ =>
      j ← py_mod i (Nat.max 1 (length (interests prefs)));
      tag ← getitem (interests prefs) j;
      Ok (PyStr.lower tag)
  end.

Definition mood_text (prefs : TripPreference) : string :=
  let joined := PyStr.join ", " (mood prefs) in
  if PyStr.truthy joined then joined else "explore".

(** The body of the loop of [generate_daily_plan] for one [i]. *)
Definition daily_plan_step (day_idx : Z) (prefs : TripPreference) (i : nat)
    (chosen : list ItineraryItem) : result (list ItineraryItem) :=
  key ← interest_key prefs i;
  let '(cat, times) := dict_get interest_map key interest_default in
  j ← py_mod i (length times);
  tod ← getitem times j;
  title ← dict_getitem title_table cat;
  let desc := ("Curated " ++ cat ++ " stop aligned with your mood: " ++ mood_text prefs ++ ".")%string in
  item ← new_ItineraryItem day_idx title desc cat tod;
  Ok (chosen ++ [item])%list.

Definition generate_daily_plan (day_idx : Z) (prefs : TripPreference)
  : result (list ItineraryItem) :=
  let count := dict_get pace_to_count (pace prefs) 3%nat in
  for_each (daily_plan_step day_idx prefs) (seq 0 count) [].

Definition generate_itinerary (prefs : TripPreference) : result Itinerary :=
  let days := date_diff_days (start_date prefs) (end_date prefs) in
  arrival ← new_ItineraryItem 1 "Arrival & Check-in"
              "Settle in and take a gentle neighborhood walk." "transport" "morning";
  let items := [arrival] in
  items ← for_each (fun d items => plan ← generate_daily_plan d prefs; Ok (items ++ plan)%list)
            (seqZ 1 days) items;
  items ← (if 2 <? days
           then farewell ← new_ItineraryItem days "Farewell Dinner"
                             "Wrap up the trip with a memorable final meal." "food" "evening";
                Ok (items ++ [farewell])%list
           else Ok items);
  let name := (destination prefs ++ ": " ++ PyStr.of_Z days ++ " days")%string in
  let summary :=
    ("Personalized plan for " ++ destination prefs ++ " over " ++ PyStr.of_Z days ++ " days, "
     ++ "optimized for a " ++ pace prefs ++ " pace with a " ++ budget_level prefs ++ " budget.")%string in
  Ok (mkItinerary name prefs items (Some summary) (Some (pick_emoji (destination prefs)))).

(** ** Stored documents

    A document is a tree of values; a [dict] is the list of its items in
    insertion order, each key bound once. Date-times are naive, as the
    driver hands them out. *)

Record datetime := mkDatetime {
  dt_year : Z; dt_month : Z; dt_day : Z;
  dt_hour : Z; dt_minute : Z; dt_second : Z; dt_microsecond : Z
}.

#[local] Set Warnings "-register-all".
Inductive value :=
| VNone
| VBool (b : bool)
| VInt (n : Z)
| VStr (s : string)
| VObjectId (hex : string)
| VDatetime (t : datetime)
| VList (xs : list value)
| VDict (kvs : list (string * value)).

Definition document := list (string * value).

(** [n] in decimal, padded with zeros to [width] digits. *)
Definition zero_pad (width : nat) (n : Z) : string :=
  let digits := PyStr.of_Z n in
  (string_of_list_ascii (repeat "0"%char (width - String.length digits)) ++ digits)%string.

(** [t.isoformat()] *)
Definition isoformat (t : datetime) : string :=
  (zero_pad 4 (dt_year t) ++ "-" ++ zero_pad 2 (dt_month t) ++ "-" ++ zero_pad 2 (dt_day t)
   ++ "T" ++ zero_pad 2 (dt_hour t) ++ ":" ++ zero_pad 2 (dt_minute t) ++ ":"
   ++ zero_pad 2 (dt_second t)
   ++ (if (dt_microsecond t =? 0)%Z then "" else "." ++ zero_pad 6 (dt_microsecond t)))%string.

(** [k in d] *)
Definition dict_mem {V : Type} (d : list (string * V)) (k : string) : bool :=
  match dict_lookup d k with Some _ => true | None => false end.

(** The items left by [d.pop(k)]. *)
Fixpoint dict_pop {V : Type} (d : list (string * V)) (k : string) : list (string * V) :=
  match d with
  | [] => []
  | (k', v') :: d' =>
      if String.eqb k' k then dict_pop d' k else (k', v') :: dict_pop d' k
  end.

(** [d[k] = v]: a bound key keeps its place, a new key goes last. *)
Fixpoint dict_set {V : Type} (d : list (string * V)) (k : string) (v : V) : list (string * V) :=
  match d with
  | [] => [(k, v)]
  | (k', v') :: d' =>
      if String.eqb k' k then (k', v) :: d' else (k', v') :: dict_set d' k v
  end.

(** The inner function [convert_nested] of [serialize_doc]. *)
Fixpoint convert_nested (x : value) : value :=
  match x with
  | VList xs => VList (map convert_nested xs)
  | VDict kvs => VDict (map (fun kv => (kv.1, convert_nested kv.2)) kvs)
  | VDatetime t => VStr (isoformat t)
  | _ => x
  end.

(** The loop [for k, v in list(d.items())] of [serialize_doc]. *)
Definition convert_top (d : document) : document :=
  fold_left
    (fun d kv => match kv.2 with
                 | VDatetime t => dict_set d kv.1 (VStr (isoformat t))
                 | _ => d
                 end)
    d d.

Section Serializer.

(** [str(v)] for a stored value: the 24 hex digits of an ObjectId, the
    text of a string, and whatever Python prints for the rest. *)
Variable str_of : value -> string.

(** [serialize_doc]: [None] is an absent document. *)
Definition serialize_doc (doc : option document) : option document :=
  match doc with
  | None => None
  | Some [] => Some []
  | Some items =>
      let d := items in
      let d := match dict_lookup d "_id" with
               | Some v => dict_set (dict_pop d "_id") "id" (VStr (str_of v))
               | None => d
               end in
      let d := convert_top d in
      match convert_nested (VDict d) with
      | VDict d' => Some d'
      | _ => None
      end
  end.

End Serializer.

(** ** The store's identifiers ([bson.ObjectId]) *)

Definition is_hex (c : ascii) : bool :=
  let n := nat_of_ascii c in
  (Nat.leb 48 n && Nat.leb n 57) || (Nat.leb 97 n && Nat.leb n 102)
  || (Nat.leb 65 n && Nat.leb n 70).

(** ASCII whitespace: space, tab, line feed, vertical tab, form feed,
    carriage return. *)
Definition is_space (c : ascii) : bool :=
  let n := nat_of_ascii c in
  Nat.eqb n 32 || (Nat.leb 9 n && Nat.leb n 13).

(** [bytes.fromhex(s)], the bytes written as lowercase hex digits: two
    adjacent hex digits per byte, whitespace between bytes skipped. *)
Fixpoint fromhex (s : string) : option string :=
  match s with
  | EmptyString => Some EmptyString
  | String a r =>
      if is_space a then fromhex r
      else match r with
           | String b r' =>
               if is_hex a && is_hex b
               then h ← fromhex r';
                    Some (String (PyStr.lower_ascii a) (String (PyStr.lower_ascii b) h))
               else None
           | EmptyString => None
           end
  end.

(** [ObjectId(s)] for a text [s]: 24 characters that [fromhex] accepts. *)
Definition ObjectId (s : string) : result string :=
  if Nat.eqb (String.length s) 24
  then match fromhex s with
       | Some hex => Ok hex
       | None => Raise (InvalidId s)
       end
  else Raise (InvalidId s).

(** ** The routes *)

(** [try: body except Exception as e: handler(e)] *)
Definition try_except {A : Type} (body : result A) (handler : exn -> result A) : result A :=
  match body with
  | Ok a => Ok a
  | Raise e => handler e
  end.

(** [bool(doc)] for what [find_one] returns. *)
Definition doc_truthy (doc : option document) : bool :=
  match doc with
  | None | Some [] => false
  | Some (_ :: _) => true
  end.

(** The status of the response the framework sends: 200 for a returned
    value, the status of an [HTTPException], 500 for any other exception. *)
Definition response_status {A : Type} (r : result A) : Z :=
  match r with
  | Ok _ => 200
  | Raise (HTTPException status _) => status
  | Raise _ => 500
  end.

Section Routes.

(** [str(v)] on stored values and [str(e)] on exceptions. *)
Variable str_of : value -> string.
Variable exn_text : exn -> string.

(** [db["itinerary"].find_one]: the subscript and the attribute are
    evaluated before the argument of the call; they give the method of the
    collection, or raise (a [TypeError] when [db] is [None]). The method
    answers the query for an identifier with a document, with nothing, or
    raises. *)
Variable find_one : result (string -> result (option document)).

Definition get_itinerary (itinerary_id : string) : result (option document) :=
  try_except
    (query ← find_one;
     oid ← ObjectId itinerary_id;
     doc ← query oid;
     if negb (doc_truthy doc)
     then Raise (HTTPException 404 "Itinerary not found")
     else Ok (serialize_doc str_of doc))
    (fun e => Raise (HTTPException 500 (exn_text e))).

End Routes.

(** A store that holds the documents [docs]. *)
Definition has_id (oid : string) (doc : document) : bool :=
  match dict_lookup doc "_id" with
  | Some (VObjectId hex) => String.eqb hex oid
  | _ => false
  end.

Definition store_find_one (docs : list document) (oid : string) : result (option document) :=
  Ok (find (has_id oid) docs).

(** [repr(s)] for a text: the quote Python chooses and the escapes it
    writes. A byte above 127 is kept, as Python keeps the printable
    characters outside ASCII. *)
Definition repr_quote (s : string) : ascii :=
  let cs := list_ascii_of_string s in
  if existsb (Ascii.eqb "'"%char) cs && negb (existsb (Ascii.eqb (ascii_of_nat 34)) cs)
  then ascii_of_nat 34
  else "'"%char.

Definition hex_char (n : nat) : ascii :=
  nth n (list_ascii_of_string "0123456789abcdef") "0"%char.

Definition repr_char (quote c : ascii) : string :=
  let n := nat_of_ascii c in
  let backslash := ascii_of_nat 92 in
  if Ascii.eqb c quote || Ascii.eqb c backslash then String backslash (String c "")
  else if (n =? 9)%nat then String backslash "t"
  else if (n =? 10)%nat then String backslash "n"
  else if (n =? 13)%nat then String backslash "r"
  else if (n <? 32)%nat || (n =? 127)%nat
       then String backslash
              (String "x" (String (hex_char (n / 16)) (String (hex_char (n mod 16)) "")))
  else String c "".

Definition repr_str (s : string) : string :=
  let quote := repr_quote s in
  String quote
    (String.concat "" (map (repr_char quote) (list_ascii_of_string s)) ++ String quote "").

(** [str(t)] and [repr(t)] for a date-time without a time zone. *)
Definition str_datetime (t : datetime) : string :=
  (zero_pad 4 (dt_year t) ++ "-" ++ zero_pad 2 (dt_month t) ++ "-" ++ zero_pad 2 (dt_day t)
   ++ " " ++ zero_pad 2 (dt_hour t) ++ ":" ++ zero_pad 2 (dt_minute t) ++ ":"
   ++ zero_pad 2 (dt_second t)
   ++ (if (dt_microsecond t =? 0)%Z then "" else "." ++ zero_pad 6 (dt_microsecond t)))%string.

Definition repr_datetime (t : datetime) : string :=
  let fields := [dt_year t; dt_month t; dt_day t; dt_hour t; dt_minute t] in
  let tail :=
    if (dt_microsecond t =? 0)%Z
    then if (dt_second t =? 0)%Z then [] else [dt_second t]
    else [dt_second t; dt_microsecond t] in
  ("datetime.datetime(" ++ PyStr.join ", " (map PyStr.of_Z (fields ++ tail)) ++ ")")%string.

(** [repr(v)] and [str(v)] for a stored value: a text is itself, an
    identifier its hexadecimal text, a list or a dict the representations
    of its members. *)
Fixpoint repr_plain (v : value) : string :=
  match v with
  | VNone => "None"
  | VBool true => "True"
  | VBool false => "False"
  | VInt n => PyStr.of_Z n
  | VStr s => repr_str s
  | VObjectId hex => ("ObjectId('" ++ hex ++ "')")%string
  | VDatetime t => repr_datetime t
  | VList xs => ("[" ++ PyStr.join ", " (map repr_plain xs) ++ "]")%string
  | VDict kvs =>
      ("{" ++ PyStr.join ", "
                (map (fun kv => (repr_str kv.1 ++ ": " ++ repr_plain kv.2)%string) kvs)
       ++ "}")%string
  end.

Definition str_plain (v : value) : string :=
  match v with
  | VStr s => s
  | VObjectId hex => hex
  | VDatetime t => str_datetime t
  | _ => repr_plain v
  end.

(** [str(e)] for the exceptions of the routes; the identifier is quoted
    as Python quotes a text without quotes or escapes. *)
Definition exn_text_plain (e : exn) : string :=
  match e with
  | HTTPException status detail => (PyStr.of_Z status ++ ": " ++ detail)%string
  | InvalidId oid =>
      ("'" ++ oid ++ "' is not a valid ObjectId, it must be a 12-byte input or a 24-character hex string")%string
  | KeyError k => ("'" ++ k ++ "'")%string
  | TypeError msg => msg
  | ValidationError field => field
  | IndexError => "list index out of range"
  | ZeroDivisionError => "integer modulo by zero"
  end.

(** ** The other routes *)

(** What a route hands to the framework for a document or for [None]. *)
Definition doc_value (doc : option document) : value :=
  match doc with
  | Some d => VDict d
  | None => VNone
  end.

Section ListRoute.

Variable str_of : value -> string.
Variable exn_text : exn -> string.

(** [db["itinerary"].find({}).sort(field, direction)]: the documents of
    the collection in the order the store sorts them, or an exception. *)
Variable find_sorted : string -> Z -> result (list document).

(** [cursor.limit(n)] *)
Definition limit (n : nat) (cursor : result (list document)) : result (list document) :=
  docs ← cursor; Ok (take n docs).

Definition list_itineraries : result document :=
  try_except
    (cursor ← limit 10 (find_sorted "created_at" (-1));
     let docs := map (fun d => doc_value (serialize_doc str_of (Some d))) cursor in
     Ok [("items", VList docs)])
    (fun e => Raise (HTTPException 500 (exn_text e))).

End ListRoute.

Section GenerateRoute.

Variable exn_text : exn -> string.

(** [create_document(collection, model)] of the [database] module: stores
    the model and returns the text of the new identifier, or raises. *)
Variable create_document : string -> Itinerary -> result string.

(** [model.model_dump()] and the reading of the clock [datetime.utcnow()]. *)
Variable model_dump : Itinerary -> document.
Variable utcnow : datetime.

Definition generate_route (prefs : TripPreference) : result document :=
  try_except
    (itinerary ← generate_itinerary prefs;
     inserted_id ← create_document "itinerary" itinerary;
     let payload := model_dump itinerary in
     let payload := dict_set payload "created_at" (VStr (isoformat utcnow)) in
     Ok [("id", VStr inserted_id); ("itinerary", VDict payload)])
    (fun e => Raise (HTTPException 500 (exn_text e))).

End GenerateRoute.

(** ** The diagnostic route *)

(** A byte that continues a UTF-8 sequence. *)
Definition is_continuation (c : ascii) : bool :=
  let n := nat_of_ascii c in (Nat.leb 128 n && Nat.ltb n 192)%bool.

(** [s[:n]]: the first [n] characters of a text held as UTF-8 bytes. *)
Fixpoint str_take (n : nat) (s : string) : string :=
  match s with
  | EmptyString => EmptyString
  | String c r =>
      if is_continuation c then String c (str_take n r)
      else match n with
           | O => EmptyString
           | S n' => String c (str_take n' r)
           end
  end.

(** The database handle [db] of the [database] module, as far as the
    route uses it: [getattr(db, "name")] gives a value, fails for want of
    the attribute ([None] here), or raises something else;
    [db.list_collection_names()] gives the names or raises. *)
Record Database := mkDatabase {
  db_name : result (option value);
  list_collection_names : result (list string)
}.

(** [bool(os.getenv(name))] *)
Definition env_set (v : option string) : bool :=
  match v with
  | Some s => PyStr.truthy s
  | None => false
  end.

Definition set_or_not (v : option string) : value :=
  VStr (if env_set v then "✅ Set" else "❌ Not Set").

Section Diagnostic.

Variable exn_text : exn -> string.
Variable db : option Database.
Variable getenv : string -> option string.

(** [test_database]: the dict [response] is updated step by step, and
    keeps the updates made before an exception. *)
Definition test_database : document :=
  let response : document :=
    [ ("backend", VStr "✅ Running");
      ("database", VStr "❌ Not Available");
      ("database_url", VNone);
      ("database_name", VNone);
      ("connection_status", VStr "Not Connected");
      ("collections", VList []) ] in
  let response :=
    match db with
    | Some d =>
        let response := dict_set response "database" (VStr "✅ Available") in
        let response := dict_set response "database_url" (set_or_not (getenv "DATABASE_URL")) in
        match db_name d with
        | Ok attr =>
            let response :=
              dict_set response "database_name"
                (match attr with Some v => v | None => VStr "✅ Connected" end) in
            let response := dict_set response "connection_status" (VStr "Connected") in
            match list_collection_names d with
            | Ok collections =>
                let response :=
                  dict_set response "collections" (VList (map VStr (take 10 collections))) in
                dict_set response "database" (VStr "✅ Connected & Working")
            | Raise e =>
                dict_set response "database"
                  (VStr ("⚠️  Connected but Error: " ++ str_take 50 (exn_text e)))
            end
        | Raise e =>
            dict_set response "database" (VStr ("❌ Error: " ++ str_take 50 (exn_text e)))
        end
    | None => dict_set response "database" (VStr "⚠️  Available but not initialized")
    end in
  let response := dict_set response "database_url" (set_or_not (getenv "DATABASE_URL")) in
  let response := dict_set response "database_name" (set_or_not (getenv "DATABASE_NAME")) in
  response.

End Diagnostic.

(** ** Documents as shared objects

    Lists and dicts are objects in a store, and a value that is a list or
    a dict is a reference to one: two references may name the same object,
    and an update through one is seen through the other. A computation
    takes the store and returns its outcome with the store it leaves, also
    when it raises. *)

Module Store.

Definition loc := positive.

Inductive hvalue :=
| HNone
| HBool (b : bool)
| HInt (n : Z)
| HStr (s : string)
| HObjectId (hex : string)
| HDatetime (t : datetime)
| HRef (l : loc).

Inductive obj :=
| OList (xs : list hvalue)
| ODict (items : list (string * hvalue)).

Definition M (A : Type) : Type := gmap loc obj -> result A * gmap loc obj.

Definition ret {A : Type} (a : A) : M A := fun h => (Ok a, h).

Definition bind {A B : Type} (m : M A) (f : A -> M B) : M B :=
  fun h => match m h with
           | (Ok a, h') => f a h'
           | (Raise e, h') => (Raise e, h')
           end.

Definition raise {A : Type} (e : exn) : M A := fun h => (Raise e, h).

(** A new object, at a location the store does not use. *)
Definition alloc (o : obj) : M loc :=
  fun h => let l := fresh (dom h) in (Ok l, <[l := o]> h).

Definition load (l : loc) : M obj :=
  fun h => match h !! l with
           | Some o => (Ok o, h)
           | None => (Raise (TypeError "dangling reference"), h)
           end.

(** An update in place of the object at [l]. *)
Definition store (l : loc) (o : obj) : M unit :=
  fun h => (Ok tt, <[l := o]> h).

Definition load_dict (l : loc) : M (list (string * hvalue)) :=
  bind (load l) (fun o =>
  match o with
  | ODict items => ret items
  | OList _ => raise (TypeError "not a dict")
  end).

(** [[f(x) for x in xs]] *)
Fixpoint map_each {A B : Type} (f : A -> M B) (xs : list A) : M (list B) :=
  match xs with
  | [] => ret []
  | x :: xs' =>
      bind (f x) (fun y =>
      bind (map_each f xs') (fun ys =>
      ret (y :: ys)))
  end.

(** [for x in xs: body(x)] *)
Fixpoint each {A : Type} (body : A -> M unit) (xs : list A) : M unit :=
  match xs with
  | [] => ret tt
  | x :: xs' => bind (body x) (fun _ => each body xs')
  end.

(** [bool(x)] *)
Definition truthy (x : hvalue) : M bool :=
  match x with
  | HNone => ret false
  | HBool b => ret b
  | HInt n => ret (negb (n =? 0))
  | HStr s => ret (PyStr.truthy s)
  | HObjectId _ | HDatetime _ => ret true
  | HRef l =>
      bind (load l) (fun o =>
      ret (match o with
           | OList [] | ODict [] => false
           | _ => true
           end))
  end.

(** The inner function [convert_nested]: a list or dict is rebuilt as a
    new object, anything else is returned as it is. [fuel] bounds the
    depth of the recursion, as the interpreter's recursion limit does. *)
Fixpoint convert_nested (fuel : nat) (x : hvalue) : M hvalue :=
  match fuel with
  | O => raise (TypeError "maximum recursion depth exceeded")
  | S fuel' =>
      match x with
      | HRef l =>
          bind (load l) (fun o =>
          match o with
          | OList xs =>
              bind (map_each (convert_nested fuel') xs) (fun ys =>
              bind (alloc (OList ys)) (fun l' =>
              ret (HRef l')))
          | ODict items =>
              bind (map_each
                      (fun kv => bind (convert_nested fuel' kv.2) (fun v => ret (kv.1, v)))
                      items) (fun items' =>
              bind (alloc (ODict items')) (fun l' =>
              ret (HRef l')))
          end)
      | HDatetime t => ret (HStr (isoformat t))
      | _ => ret x
      end
  end.

Section Serializer.

(** [str(v)], which may read the store. *)
Variable str_of : gmap loc obj -> hvalue -> string.

Definition str (v : hvalue) : M string := fun h => (Ok (str_of h v), h).

(** [serialize_doc(doc)]; [doc] is [None] or a reference to a dict. *)
Definition serialize_doc (fuel : nat) (doc : hvalue) : M hvalue :=
  bind (truthy doc) (fun t =>
  if negb t then ret doc
  else
    match doc with
    | HRef l =>
        bind (load_dict l) (fun items =>
        bind (alloc (ODict items)) (fun d =>
        bind (if dict_mem items "_id"
              then
                bind (load_dict d) (fun cur =>
                match dict_lookup cur "_id" with
                | Some v =>
                    bind (store d (ODict (dict_pop cur "_id"))) (fun _ =>
                    bind (str v) (fun s =>
                    bind (load_dict d) (fun cur' =>
                    store d (ODict (dict_set cur' "id" (HStr s))))))
                | None => raise (KeyError "_id")
                end)
              else ret tt) (fun _ =>
        bind (load_dict d) (fun snapshot =>
        bind (each
                (fun kv =>
                   match kv.2 with
                   | HDatetime t =>
                       bind (load_dict d) (fun cur =>
                       store d (ODict (dict_set cur kv.1 (HStr (isoformat t)))))
                   | _ => ret tt
                   end)
                snapshot) (fun _ =>
        convert_nested fuel (HRef d))))))
    | _ => raise (TypeError "not a dict")
    end).

End Serializer.

(** The tree a value stands for in a store, read to depth [fuel]. *)
Fixpoint reify (h : gmap loc obj) (fuel : nat) (x : hvalue) : option value :=
  match x with
  | HNone => Some VNone
  | HBool b => Some (VBool b)
  | HInt n => Some (VInt n)
  | HStr s => Some (VStr s)
  | HObjectId hex => Some (VObjectId hex)
  | HDatetime t => Some (VDatetime t)
  | HRef l =>
      match fuel with
      | O => None
      | S fuel' =>
          match h !! l with
          | Some (OList xs) => VList <$> mapM (reify h fuel') xs
          | Some (ODict items) =>
              VDict <$> mapM (fun kv => v ← reify h fuel' kv.2; Some (kv.1, v)) items
          | None => None
          end
      end
  end.

End Store.

(** ** The generator on shared objects

    The preferences, the lists they hold, the items and the itinerary are
    objects in the store; a model instance is the dict of its fields. A
    run reads the preferences through its reference, builds its lists by
    updates in place, and returns a reference to the itinerary. The
    tables of [generate_daily_plan] are literals that never leave the
    call; they are read as the constants above. *)

Module Objects.

Notation "x <- m ;; k" := (Store.bind m (fun x => k))
  (at level 100, m at next level, right associativity, only parsing).

(** A step that reads no object. *)
Definition lift {A : Type} (r : result A) : Store.M A := fun h => (r, h).

(** [x.name] on a model instance. What validation rules out, a value
    that is no instance or has no such field, raises here. *)
Definition attr (x : Store.hvalue) (name : string) : Store.M Store.hvalue :=
  match x with
  | Store.HRef l =>
      fields <- Store.load_dict l ;;
      match dict_lookup fields name with
      | Some v => Store.ret v
      | None => Store.raise (TypeError "no such attribute")
      end
  | _ => Store.raise (TypeError "no such attribute")
  end.

(** A value used as a text. *)
Definition text (x : Store.hvalue) : Store.M string :=
  match x with
  | Store.HStr s => Store.ret s
  | _ => Store.raise (TypeError "not a str")
  end.

(** The members of a list object. *)
Definition load_list (x : Store.hvalue) : Store.M (list Store.hvalue) :=
  match x with
  | Store.HRef l =>
      o <- Store.load l ;;
      match o with
      | Store.OList xs => Store.ret xs
      | Store.ODict _ => Store.raise (TypeError "not a list")
      end
  | _ => Store.raise (TypeError "not a list")
  end.

(** [l.append(x)] and [l.extend(ys)]: updates in place of the list at [l]. *)
Definition append (l : Store.loc) (x : Store.hvalue) : Store.M unit :=
  xs <- load_list (Store.HRef l) ;;
  Store.store l (Store.OList (xs ++ [x])).

Definition extend (l : Store.loc) (ys : Store.hvalue) : Store.M unit :=
  new <- load_list ys ;;
  xs <- load_list (Store.HRef l) ;;
  Store.store l (Store.OList (xs ++ new)).

(** The fields of an item that was built from the five it is given. *)
Definition item_fields (item : ItineraryItem) : list (string * Store.hvalue) :=
  [ ("day", Store.HInt (day item)); ("title", Store.HStr (title item));
    ("description", Store.HStr (description item));
    ("category", Store.HStr (category item));
    ("time_of_day", Store.HStr (time_of_day item));
    ("location", Store.HNone); ("cost_estimate", Store.HNone) ].

(** [ItineraryItem(day=.., ..)]: the validation, then a new instance. *)
Definition new_ItineraryItem (day : Z) (title description category time_of_day : string)
  : Store.M Store.hvalue :=
  item <- lift (new_ItineraryItem day title description category time_of_day) ;;
  l <- Store.alloc (Store.ODict (item_fields item)) ;;
  Store.ret (Store.HRef l).

(** The interest tag of slot [i], read through the preferences. *)
Definition interest_key (prefs : Store.hvalue) (i : nat) : Store.M string :=
  interests <- attr prefs "interests" ;;
  tags <- load_list interests ;;
  match tags with
  | [] => Store.ret "sightseeing"
  | _ :: _ =>
      j <- lift (py_mod i (Nat.max 1 (length tags))) ;;
      tag <- lift (getitem tags j) ;;
      t <- text tag ;;
      Store.ret (PyStr.lower t)
  end.

Definition mood_text (prefs : Store.hvalue) : Store.M string :=
  mood <- attr prefs "mood" ;;
  tags <- load_list mood ;;
  moods <- Store.map_each text tags ;;
  let joined := PyStr.join ", " moods in
  Store.ret (if PyStr.truthy joined then joined else "explore").

(** The body of the loop of [generate_daily_plan] for one [i]; [chosen]
    is the list the loop appends to. *)
Definition daily_plan_step (day_idx : Z) (prefs : Store.hvalue) (chosen : Store.loc)
    (i : nat) : Store.M unit :=
  key <- interest_key prefs i ;;
  let '(cat, times) := dict_get interest_map key interest_default in
  j <- lift (py_mod i (length times)) ;;
  tod <- lift (getitem times j) ;;
  title <- lift (dict_getitem title_table cat) ;;
  mood <- mood_text prefs ;;
  let desc := ("Curated " ++ cat ++ " stop aligned with your mood: " ++ mood ++ ".")%string in
  item <- new_ItineraryItem day_idx title desc cat tod ;;
  append chosen item.

Definition generate_daily_plan (day_idx : Z) (prefs : Store.hvalue)
  : Store.M Store.hvalue :=
  buckets <- Store.alloc (Store.OList []) ;;
  pace <- (p <- attr prefs "pace" ;; text p) ;;
  let count := dict_get pace_to_count pace 3%nat in
  chosen <- Store.alloc (Store.OList []) ;;
  _ <- Store.each (daily_plan_step day_idx prefs chosen) (seq 0 count) ;;
  Store.ret (Store.HRef chosen).

Definition generate_itinerary (prefs : Store.hvalue) : Store.M Store.hvalue :=
  start <- (x <- attr prefs "start_date" ;; text x) ;;
  end_ <- (x <- attr prefs "end_date" ;; text x) ;;
  let days := date_diff_days start end_ in
  items <- Store.alloc (Store.OList []) ;;
  arrival <- new_ItineraryItem 1 "Arrival & Check-in"
               "Settle in and take a gentle neighborhood walk." "transport" "morning" ;;
  _ <- append items arrival ;;
  _ <- Store.each
         (fun d => plan <- generate_daily_plan d prefs ;; extend items plan)
         (seqZ 1 days) ;;
  _ <- (if 2 <? days
        then farewell <- new_ItineraryItem days "Farewell Dinner"
                           "Wrap up the trip with a memorable final meal." "food" "evening" ;;
             append items farewell
        else Store.ret tt) ;;
  destination <- (x <- attr prefs "destination" ;; text x) ;;
  pace <- (x <- attr prefs "pace" ;; text x) ;;
  budget_level <- (x <- attr prefs "budget_level" ;; text x) ;;
  let name := (destination ++ ": " ++ PyStr.of_Z days ++ " days")%string in
  let summary :=
    ("Personalized plan for " ++ destination ++ " over " ++ PyStr.of_Z days ++ " days, "
     ++ "optimized for a " ++ pace ++ " pace with a " ++ budget_level ++ " budget.")%string in
  (* [Itinerary(..)]: validation keeps the instances it is given and
     puts the items in a list of its own *)
  validated <- load_list (Store.HRef items) ;;
  items' <- Store.alloc (Store.OList validated) ;;
  it <- Store.alloc
          (Store.ODict
             [ ("name", Store.HStr name); ("preference", prefs);
               ("items", Store.HRef items'); ("summary", Store.HStr summary);
               ("destination_emoji", Store.HStr (pick_emoji destination)) ]) ;;
  Store.ret (Store.HRef it).

End Objects.

(** * Vocabulary of the properties

    Definitions that state what the program computes; none of them is
    part of the program. *)

(** ** The generator *)

(** The example of the specification: three days in Paris at a relaxed pace. *)
Definition paris_prefs : TripPreference :=
  mkTripPreference "Paris" "2024-06-01" "2024-06-03" 1 "moderate" "relaxed" [] ["food"] None.

(** A request with upper-case tags, a tag the table does not know, and
    more slots than interests. *)
Definition mixed_prefs : TripPreference :=
  mkTripPreference "Kyoto" "2024-04-01" "2024-04-02" 2 "luxury" "packed"
    ["calm"] ["Museums"; "hiking"; "FOOD"] None.

(** Every pair the interest lookup can return, the default included. *)
Definition interest_entries : list (string * list string) :=
  interest_default :: map snd interest_map.

(** What the generation loop relies on, checked on each entry. *)
Definition entry_ok (e : string * list string) : bool :=
  let '(cat, times) := e in
  negb (Nat.eqb (length times) 0)
  && is_literal cat CATEGORY_LITERAL
  && negb (String.eqb cat "transport")
  && bool_decide (is_Some (dict_lookup title_table cat))
  && forallb (fun t => is_literal t ["morning"; "afternoon"; "evening"]%string) times.

(** The tag of slot [i] as the specification words it. *)
Definition slot_tag (prefs : TripPreference) (i : nat) : string :=
  match interests prefs with
  | [] => "sightseeing"
  | t :: ts => PyStr.lower (nth (i mod length (t :: ts)) (t :: ts) "")
  end.

(** The interest-table entry of slot [i]. *)
Definition slot_entry (prefs : TripPreference) (i : nat) : string * list string :=
  dict_get interest_map (slot_tag prefs i) interest_default.

(** The item slot [i] of day [day_idx] holds when nothing raises. *)
Definition slot_item (day_idx : Z) (prefs : TripPreference) (i : nat) : ItineraryItem :=
  let '(cat, times) := slot_entry prefs i in
  mkItineraryItem day_idx
    (dict_get title_table cat "")
    ("Curated " ++ cat ++ " stop aligned with your mood: " ++ mood_text prefs ++ ".")%string
    cat
    (nth (i mod length times) times "")
    None None.

(** The number of activities per day. *)
Definition pace_count (prefs : TripPreference) : nat :=
  dict_get pace_to_count (pace prefs) 3%nat.

(** The items of one day. *)
Definition day_block (day_idx : Z) (prefs : TripPreference) : list ItineraryItem :=
  map (slot_item day_idx prefs) (seq 0 (pace_count prefs)).

(** The two fixed items. *)
Definition arrival_item : ItineraryItem :=
  mkItineraryItem 1 "Arrival & Check-in"
    "Settle in and take a gentle neighborhood walk." "transport" "morning" None None.

Definition farewell_item (days : Z) : ItineraryItem :=
  mkItineraryItem days "Farewell Dinner"
    "Wrap up the trip with a memorable final meal." "food" "evening" None None.

(** The length of the trip, and the items of the whole itinerary. *)
Definition trip_days (prefs : TripPreference) : Z :=
  date_diff_days (start_date prefs) (end_date prefs).

Definition planned_items (prefs : TripPreference) : list ItineraryItem :=
  ([arrival_item]
   ++ concat (map (fun d => day_block d prefs) (seqZ 1 (trip_days prefs)))
   ++ (if 2 <? trip_days prefs then [farewell_item (trip_days prefs)] else []))%list.

(** What one run of the per-day generation contributes to the item count. *)
Definition per_day_count (day_idx : Z) (prefs : TripPreference) : nat :=
  match generate_daily_plan day_idx prefs with
  | Ok block => length block
  | Raise _ => 0%nat
  end.

(** ** The calendar *)

(** The day after [d] in the calendar. *)
Definition next_day (d : Calendar.date) : Calendar.date :=
  let '(Calendar.mkDate y m dd) := d in
  if dd <? Calendar.days_in_month y m then Calendar.mkDate y m (dd + 1)
  else if m <? 12 then Calendar.mkDate y (m + 1) 1
  else Calendar.mkDate (y + 1) 1 1.

(** The decimal digit [k] as a character, and numbers written with two
    and with four digits. *)
Definition digit_char (k : Z) : ascii := ascii_of_nat (48 + Z.to_nat k).

Definition two_digits (n : Z) : string :=
  String (digit_char (n / 10)) (String (digit_char (n mod 10)) EmptyString).

Definition four_digits (n : Z) : string :=
  String (digit_char (n / 1000))
    (String (digit_char (n / 100 mod 10)) (two_digits (n mod 100))).

(** A date written as [YYYY-MM-DD]. *)
Definition iso_date (d : Calendar.date) : string :=
  (four_digits (Calendar.year d) ++ "-" ++ two_digits (Calendar.month d)
   ++ "-" ++ two_digits (Calendar.day d))%string.

(** Month and day, checked on the 12 x 31 pairs. *)
Definition month_day_ok (m d : Z) : bool :=
  match Calendar.first_some (Calendar.parse_tail 0)
          (Calendar.parse_m (two_digits m ++ "-" ++ two_digits d)) with
  | Some dt => (Calendar.month dt =? m) && (Calendar.day dt =? d)
  | None => false
  end.

(** The format [%Y-%m-%d], said without the parser. [t] is one character
    of the class [\d], of value [k]. *)
Definition decimal_digit (k : Z) (t : string) : Prop :=
  Calendar.decimal t = Some (k, "").

(** A year: four characters of the class [\d]. *)
Definition year_text (y : Z) (t : string) : Prop :=
  exists a b c d ta tb tc td,
    decimal_digit a ta /\ decimal_digit b tb /\ decimal_digit c tc /\ decimal_digit d td /\
    t = (ta ++ tb ++ tc ++ td)%string /\ y = a * 1000 + b * 100 + c * 10 + d.

(** A month: 01 to 12, or 1 to 9 without the zero. *)
Definition month_text (m : Z) (t : string) : Prop :=
  (1 <= m <= 12 /\ t = two_digits m) \/
  (1 <= m <= 9 /\ t = String (digit_char m) "").

(** A day: 01 to 09, 30, 31; 1 or 2 and a character of the class [\d];
    1 to 9 without the zero, or with a space for it. *)
Definition day_text (d : Z) (t : string) : Prop :=
  (1 <= d <= 9 /\ t = two_digits d) \/
  (30 <= d <= 31 /\ t = two_digits d) \/
  (exists x k u, (x = 1 \/ x = 2) /\ decimal_digit k u /\ d = x * 10 + k /\
                 t = String (digit_char x) u) \/
  (1 <= d <= 9 /\ t = String (digit_char d) "") \/
  (1 <= d <= 9 /\ t = String " " (String (digit_char d) "")).

(** [s] is year, month and day of [dt] in the format. *)
Definition written (s : string) (dt : Calendar.date) : Prop :=
  exists ty tm td,
    year_text (Calendar.year dt) ty /\ month_text (Calendar.month dt) tm /\
    day_text (Calendar.day dt) td /\
    s = (ty ++ "-" ++ tm ++ "-" ++ td)%string.

(** ** Documents *)

(** Induction on a document, with the hypothesis for the members of a
    list and the values of a dict. *)
Section ValueInduction.

Variable P : value -> Prop.
Hypothesis HNone : P VNone.
Hypothesis HBool : forall b, P (VBool b).
Hypothesis HInt : forall n, P (VInt n).
Hypothesis HStr : forall s, P (VStr s).
Hypothesis HObjectId : forall hex, P (VObjectId hex).
Hypothesis HDatetime : forall t, P (VDatetime t).
Hypothesis HList : forall xs, Forall P xs -> P (VList xs).
Hypothesis HDict : forall kvs, Forall (fun kv => P kv.2) kvs -> P (VDict kvs).

Fixpoint value_nested_ind (v : value) : P v :=
  match v with
  | VNone => HNone
  | VBool b => HBool b
  | VInt n => HInt n
  | VStr s => HStr s
  | VObjectId hex => HObjectId hex
  | VDatetime t => HDatetime t
  | VList xs =>
      HList xs
        ((fix go (l : list value) : Forall P l :=
            match l with
            | [] => List.Forall_nil P
            | x :: l' => @List.Forall_cons _ P x l' (value_nested_ind x) (go l')
            end) xs)
  | VDict kvs =>
      HDict kvs
        ((fix go (l : list (string * value)) : Forall (fun kv => P kv.2) l :=
            match l with
            | [] => List.Forall_nil _
            | kv :: l' => @List.Forall_cons _ (fun kv => P kv.2) kv l' (value_nested_ind kv.2) (go l')
            end) kvs)
  end.

End ValueInduction.

(** A position inside a document: keys and indices from the top. *)
Inductive step :=
| Key (k : string)
| Index (i : nat).

(** The value at a position, if the document has that position. *)
Fixpoint value_at (v : value) (path : list step) : option value :=
  match path with
  | [] => Some v
  | Key k :: path' =>
      match v with
      | VDict kvs => dict_lookup kvs k ≫= fun v' => value_at v' path'
      | _ => None
      end
  | Index i :: path' =>
      match v with
      | VList xs => xs !! i ≫= fun v' => value_at v' path'
      | _ => None
      end
  end.

(** What the serializer leaves at a position that held [v]: the ISO text
    of a date-time, the same scalar, a sequence of the same length, a
    mapping with the same keys. *)
Definition json_image (v v' : value) : Prop :=
  match v with
  | VDatetime t => v' = VStr (isoformat t)
  | VList xs => exists ys, v' = VList ys /\ length ys = length xs
  | VDict kvs => exists kvs', v' = VDict kvs' /\ map fst kvs' = map fst kvs
  | _ => v' = v
  end.

(** One item as the top-level loop leaves it. *)
Definition top_item (kv : string * value) : string * value :=
  match kv.2 with
  | VDatetime t => (kv.1, VStr (isoformat t))
  | _ => kv
  end.

(** The document after the identifier has been renamed. *)
Definition rename_id (str_of : value -> string) (doc : document) : document :=
  match dict_lookup doc "_id" with
  | Some v => dict_set (dict_pop doc "_id") "id" (VStr (str_of v))
  | None => doc
  end.

(** A stored itinerary, cut down: a date-time at the top and one inside a
    list of dicts. *)
Definition sample_created : datetime := mkDatetime 2024 6 1 9 5 0 0.

Definition sample_doc : document :=
  [ ("_id", VObjectId "665a1f0c2b3c4d5e6f708192");
    ("name", VStr "Paris: 3 days");
    ("created_at", VDatetime sample_created);
    ("log", VList [VDict [("at", VDatetime sample_created); ("n", VInt 2)]; VNone]) ].

(** A store that holds nothing, and the handle [db] when no database is
    configured: [None], which has no subscript. *)
Definition empty_store : string -> result (option document) := store_find_one [].

Definition no_database : result (string -> result (option document)) :=
  Raise (TypeError "'NoneType' object is not subscriptable").

(** ** Shared objects *)

(** [m] leaves every object of [h0] as it is, from any store that still
    holds them. *)
Definition keeps {A : Type} (h0 : gmap Store.loc Store.obj) (m : Store.M A) : Prop :=
  forall h, h0 ⊆ h -> h0 ⊆ (m h).2.

(** An item of a stored dict and the item of the tree it stands for. *)
Definition item_rel (h : gmap Store.loc Store.obj) (n : nat)
    (kv : string * Store.hvalue) (kv' : string * value) : Prop :=
  kv'.1 = kv.1 /\ Store.reify h n kv.2 = Some kv'.2.

(** Two dicts with the same keys in the same order and related values. *)
Definition items_rel {X Y : Type} (R : X -> Y -> Prop)
    (items : list (string * X)) (d : list (string * Y)) : Prop :=
  Forall2 (fun kv kv' => kv'.1 = kv.1 /\ R kv.2 kv'.2) items d.

(** [str(v)] on identifiers and texts. *)
Definition str_atom (h : gmap Store.loc Store.obj) (v : Store.hvalue) : string :=
  match v with
  | Store.HObjectId hex => hex
  | Store.HStr s => s
  | _ => ""
  end.

(** A store in which one list is the value of two keys of a document,
    and the tree that document stands for. *)
Definition shared_store : gmap Store.loc Store.obj :=
  <[2%positive := Store.ODict
      [("_id", Store.HObjectId "665a1f0c2b3c4d5e6f708192");
       ("a", Store.HRef 1%positive); ("b", Store.HRef 1%positive);
       ("when", Store.HDatetime sample_created)]]>
  (<[1%positive := Store.OList [Store.HDatetime sample_created; Store.HInt 7]]> ∅).

Definition shared_tree : value :=
  VDict [("_id", VObjectId "665a1f0c2b3c4d5e6f708192");
         ("a", VList [VDatetime sample_created; VInt 7]);
         ("b", VList [VDatetime sample_created; VInt 7]);
         ("when", VDatetime sample_created)].

(** ** More vocabulary: the generator *)

(** An item is valid when the validating constructor, given its fields,
    returns it. *)
Definition valid_item (item : ItineraryItem) : Prop :=
  new_ItineraryItem (day item) (title item) (description item) (category item)
    (time_of_day item) = Ok item.

(** Requests that differ where the items do not depend on them, a request
    with an interest the table does not know, and one with two moods. *)
Definition rome_prefs : TripPreference :=
  mkTripPreference "Rome" "2024-06-01" "2024-06-03" 4 "luxury" "relaxed" [] ["FOOD"]
    (Some "window seat").

Definition hiking_prefs : TripPreference :=
  mkTripPreference "Oslo" "2024-07-01" "2024-07-02" 1 "moderate" "packed" [] ["Hiking"] None.

Definition moody_prefs : TripPreference :=
  mkTripPreference "Lima" "2024-07-01" "2024-07-02" 1 "moderate" "relaxed"
    ["calm"; "curious"] ["art"] None.

(** The keywords of [pick_emoji], all groups together. *)
Definition EMOJI_KEYWORDS : list string :=
  ["paris"; "rome"; "florence"; "milan"; "tokyo"; "kyoto"; "osaka"; "japan";
   "beach"; "bali"; "maldives"; "honolulu"; "miami";
   "new york"; "nyc"; "los angeles"; "la"; "london"].

(** ** More vocabulary: the calendar *)

(** A date written without padding of month and day: [YYYY-M-D]. *)
Definition short_date (d : Calendar.date) : string :=
  (four_digits (Calendar.year d) ++ "-" ++ PyStr.of_Z (Calendar.month d)
   ++ "-" ++ PyStr.of_Z (Calendar.day d))%string.

(** Month and day without padding, checked on the 12 x 31 pairs. *)
Definition short_month_day_ok (m d : Z) : bool :=
  match Calendar.first_some (Calendar.parse_tail 0)
          (Calendar.parse_m (PyStr.of_Z m ++ "-" ++ PyStr.of_Z d)) with
  | Some dt => (Calendar.month dt =? m) && (Calendar.day dt =? d)
  | None => false
  end.

(** ** More vocabulary: documents *)

(** A document that has an "id" of its own besides the "_id". *)
Definition both_ids_doc : document :=
  [ ("id", VInt 7); ("_id", VObjectId "665a1f0c2b3c4d5e6f708192");
    ("created_at", VDatetime sample_created) ].

(** ** More vocabulary: shared objects *)

(** [x] is built only from objects that [h0] does not hold: it is a
    scalar, or a reference to an object of [h] outside [h0] whose members
    are again such, down to depth [fuel]. *)
Fixpoint detached (h0 h : gmap Store.loc Store.obj) (fuel : nat) (x : Store.hvalue) : Prop :=
  match x with
  | Store.HRef l =>
      h0 !! l = None /\
      match fuel with
      | O => False
      | S fuel' =>
          match h !! l with
          | Some (Store.OList xs) => Forall (detached h0 h fuel') xs
          | Some (Store.ODict items) => Forall (fun kv => detached h0 h fuel' kv.2) items
          | None => False
          end
      end
  | _ => True
  end.

(** What a computation ensures of its result and the store it leaves,
    from any store that still holds the objects of [h0]. *)
Definition ensures {A : Type} (h0 : gmap Store.loc Store.obj) (m : Store.M A)
    (Q : A -> gmap Store.loc Store.obj -> Prop) : Prop :=
  forall h, h0 ⊆ h -> forall a, (m h).1 = Ok a -> Q a (m h).2.

(** [str(x)] for a stored value: the text of the tree it stands for,
    read to depth [n]. *)
Definition str_reified (n : nat) (h : gmap Store.loc Store.obj) (x : Store.hvalue) : string :=
  match Store.reify h n x with
  | Some v => str_plain v
  | None => ""
  end.

(** ** More vocabulary: the generator on shared objects *)

(** An optional text as a stored value. *)
Definition opt_text (o : option string) : Store.hvalue :=
  match o with
  | Some s => Store.HStr s
  | None => Store.HNone
  end.

(** The fields of a [TripPreference] instance, with its two lists at [m]
    and [i]. *)
Definition prefs_fields (p : TripPreference) (m i : Store.hvalue)
  : list (string * Store.hvalue) :=
  [ ("destination", Store.HStr (destination p)); ("start_date", Store.HStr (start_date p));
    ("end_date", Store.HStr (end_date p)); ("travelers", Store.HInt (travelers p));
    ("budget_level", Store.HStr (budget_level p)); ("pace", Store.HStr (pace p));
    ("mood", m); ("interests", i); ("notes", opt_text (notes p)) ].

(** [x] refers to an instance that holds the preferences [p]. *)
Definition prefs_at (h : gmap Store.loc Store.obj) (x : Store.hvalue) (p : TripPreference)
  : Prop :=
  exists l lm li,
    x = Store.HRef l /\
    h !! l = Some (Store.ODict (prefs_fields p (Store.HRef lm) (Store.HRef li))) /\
    h !! lm = Some (Store.OList (map Store.HStr (mood p))) /\
    h !! li = Some (Store.OList (map Store.HStr (interests p))).

(** [x] refers to an instance that holds the item [item]. *)
Definition item_at (h : gmap Store.loc Store.obj) (x : Store.hvalue) (item : ItineraryItem)
  : Prop :=
  exists l,
    x = Store.HRef l /\ h !! l = Some (Store.ODict (Objects.item_fields item)) /\
    location item = None /\ cost_estimate item = None.

(** [x] refers to a list of instances that hold the items [its]. *)
Definition items_at (h : gmap Store.loc Store.obj) (x : Store.hvalue)
    (its : list ItineraryItem) : Prop :=
  exists l xs,
    x = Store.HRef l /\ h !! l = Some (Store.OList xs) /\ Forall2 (item_at h) xs its.

(** [x] refers to an instance that holds the itinerary [it]. *)
Definition itinerary_at (h : gmap Store.loc Store.obj) (x : Store.hvalue) (it : Itinerary)
  : Prop :=
  exists l xp xi,
    x = Store.HRef l /\
    h !! l = Some (Store.ODict
                     [ ("name", Store.HStr (name it)); ("preference", xp); ("items", xi);
                       ("summary", opt_text (summary it));
                       ("destination_emoji", opt_text (destination_emoji it)) ]) /\
    prefs_at h xp (preference it) /\ items_at h xi (items it).

(** [y] refers to an instance that holds [item], made after the store
    was [h0], and is not the list at [c]. *)
Definition built_at (h0 : gmap Store.loc Store.obj) (c : Store.loc)
    (h : gmap Store.loc Store.obj) (y : Store.hvalue) (item : ItineraryItem) : Prop :=
  item_at h y item /\ exists k, y = Store.HRef k /\ k <> c /\ h0 !! k = None.

(** The trees the instances stand for. *)
Definition opt_tree (o : option string) : value :=
  match o with
  | Some s => VStr s
  | None => VNone
  end.

Definition item_tree (item : ItineraryItem) : value :=
  VDict [ ("day", VInt (day item)); ("title", VStr (title item));
          ("description", VStr (description item)); ("category", VStr (category item));
          ("time_of_day", VStr (time_of_day item));
          ("location", VNone); ("cost_estimate", VNone) ].

Definition prefs_tree (p : TripPreference) : value :=
  VDict [ ("destination", VStr (destination p)); ("start_date", VStr (start_date p));
          ("end_date", VStr (end_date p)); ("travelers", VInt (travelers p));
          ("budget_level", VStr (budget_level p)); ("pace", VStr (pace p));
          ("mood", VList (map VStr (mood p))); ("interests", VList (map VStr (interests p)));
          ("notes", opt_tree (notes p)) ].

Definition itinerary_tree (it : Itinerary) : value :=
  VDict [ ("name", VStr (name it)); ("preference", prefs_tree (preference it));
          ("items", VList (map item_tree (items it)));
          ("summary", opt_tree (summary it));
          ("destination_emoji", opt_tree (destination_emoji it)) ].

(** Two stores that hold the Paris request, at different places and among
    different objects. *)
Definition paris_store : gmap Store.loc Store.obj :=
  <[3%positive := Store.ODict (prefs_fields paris_prefs (Store.HRef 1%positive)
                                 (Store.HRef 2%positive))]>
  (<[2%positive := Store.OList [Store.HStr "food"]]>
   (<[1%positive := Store.OList []]> ∅)).

Definition paris_store' : gmap Store.loc Store.obj :=
  <[9%positive := Store.ODict (prefs_fields paris_prefs (Store.HRef 7%positive)
                                 (Store.HRef 4%positive))]>
  (<[7%positive := Store.OList []]>
   (<[5%positive := Store.OList [Store.HInt 1; Store.HRef 4%positive]]>
    (<[4%positive := Store.OList [Store.HStr "food"]]> ∅))).

(** * Properties *)

(** ** The error monad and the loops *)

Lemma bind_Ok {A B : Type} (f : A -> result B) (a : A) : (Ok a ≫= f) = f a.
Proof. reflexivity. Qed.

Lemma bind_Ok_inv {A B : Type} (f : A -> result B) (m : result A) (b : B) :
  (m ≫= f) = Ok b -> exists a, m = Ok a /\ f a = Ok b.
Proof. destruct m as [a|e]; simpl; [eauto | discriminate]. Qed.

(** A loop whose body appends one block per element builds the
    concatenation of the blocks. *)
Lemma for_each_extend {A B : Type} (block : A -> list B)
    (body : A -> list B -> result (list B)) (xs : list A) :
  (forall x acc, x ∈ xs -> body x acc = Ok (acc ++ block x)%list) ->
  forall acc, for_each body xs acc = Ok (acc ++ concat (map block xs))%list.
Proof.
  induction xs as [|x xs IH]; intros Hbody acc; simpl.
  - by rewrite app_nil_r.
  - rewrite Hbody by left. simpl. rewrite IH.
    + by rewrite <- app_assoc.
    + intros y acc' Hy. apply Hbody. by right.
Qed.

(** ** The tables *)

Lemma dict_get_cases {V : Type} (d : list (string * V)) (k : string) (default : V) :
  dict_get d k default = default \/ dict_get d k default ∈ map snd d.
Proof.
  unfold dict_get. induction d as [|[k' v] d IH]; simpl; [by left|].
  destruct (String.eqb k' k).
  - right. left.
  - destruct IH as [IH|IH]; [by left|]. right. by right.
Qed.

Lemma interest_lookup_entry (key : string) :
  dict_get interest_map key interest_default ∈ interest_entries.
Proof.
  unfold interest_entries.
  destruct (dict_get_cases interest_map key interest_default) as [-> | H].
  - left.
  - by right.
Qed.

Lemma interest_entries_ok : Forall (fun e => entry_ok e = true) interest_entries.
Proof. repeat constructor. Qed.

Lemma interest_lookup_ok (key : string) :
  entry_ok (dict_get interest_map key interest_default) = true.
Proof.
  pose proof interest_entries_ok as H. rewrite Forall_forall in H.
  apply H, interest_lookup_entry.
Qed.

(** ** The per-day block, slot by slot *)

Lemma interest_key_ok (prefs : TripPreference) (i : nat) :
  interest_key prefs i = Ok (slot_tag prefs i).
Proof.
  unfold interest_key, slot_tag.
  destruct (interests prefs) as [|t ts] eqn:E; [reflexivity|].
  assert (Hlen : (0 < length (t :: ts))%nat) by (simpl; lia).
  replace (Nat.max 1 (length (t :: ts))) with (length (t :: ts)) by lia.
  unfold py_mod. destruct (length (t :: ts)) as [|n] eqn:El; [lia|].
  rewrite bind_Ok. unfold getitem.
  assert (Hlt : (i mod S n < length (t :: ts))%nat).
  { rewrite El. apply Nat.mod_upper_bound. lia. }
  destruct (lookup_lt_is_Some_2 (t :: ts) (i mod S n) Hlt) as [tag Htag].
  rewrite Htag. rewrite bind_Ok.
  f_equal. f_equal. symmetry. by apply nth_lookup_Some.
Qed.

Lemma is_literal_elem (s : string) (allowed : list string) :
  is_literal s allowed = true <-> s ∈ allowed.
Proof.
  unfold is_literal. rewrite existsb_exists. split.
  - intros (x & Hin & Heq). apply String.eqb_eq in Heq. subst. by apply list_elem_of_In.
  - intros Hin. exists s. split; [by apply list_elem_of_In | apply String.eqb_refl].
Qed.

Lemma new_ItineraryItem_ok (d : Z) (ttl desc cat tod : string) :
  1 <= d ->
  is_literal cat CATEGORY_LITERAL = true ->
  is_literal tod TIME_OF_DAY_LITERAL = true ->
  new_ItineraryItem d ttl desc cat tod = Ok (mkItineraryItem d ttl desc cat tod None None).
Proof.
  intros Hd Hcat Htod. unfold new_ItineraryItem.
  apply Z.leb_le in Hd. by rewrite Hd, Hcat, Htod.
Qed.

Lemma daily_plan_step_ok (day_idx : Z) (prefs : TripPreference) (i : nat)
    (chosen : list ItineraryItem) :
  1 <= day_idx ->
  daily_plan_step day_idx prefs i chosen = Ok (chosen ++ [slot_item day_idx prefs i])%list.
Proof.
  intros Hday. unfold daily_plan_step, slot_item, slot_entry.
  rewrite interest_key_ok, bind_Ok.
  pose proof (interest_lookup_ok (slot_tag prefs i)) as Hok.
  destruct (dict_get interest_map (slot_tag prefs i) interest_default) as [cat times].
  unfold entry_ok in Hok. rewrite !andb_true_iff in Hok.
  destruct Hok as [[[[Hne Hcat] Hnt] Htitle] Htimes].
  apply negb_true_iff, Nat.eqb_neq in Hne.
  unfold py_mod. destruct (length times) as [|n] eqn:El; [lia|].
  rewrite bind_Ok. unfold getitem.
  assert (Hlt : (i mod S n < length times)%nat).
  { rewrite El. apply Nat.mod_upper_bound. lia. }
  destruct (lookup_lt_is_Some_2 times (i mod S n) Hlt) as [tod Htod].
  rewrite Htod, bind_Ok.
  unfold dict_getitem, dict_get.
  apply bool_decide_eq_true in Htitle as [ttl Httl].
  rewrite Httl, bind_Ok.
  assert (Htod_lit : is_literal tod TIME_OF_DAY_LITERAL = true).
  { rewrite forallb_forall in Htimes. specialize (Htimes tod).
    apply is_literal_elem.
    assert (Hm : is_literal tod ["morning"; "afternoon"; "evening"]%string = true).
    { apply Htimes, list_elem_of_In. by eapply list_elem_of_lookup_2. }
    apply is_literal_elem in Hm. unfold TIME_OF_DAY_LITERAL.
    rewrite !elem_of_cons, elem_of_nil in Hm. rewrite !elem_of_cons. tauto. }
  rewrite new_ItineraryItem_ok by done. rewrite bind_Ok.
  do 3 f_equal. f_equal. symmetry. by apply nth_lookup_Some.
Qed.

(** ** Whole days and the whole itinerary *)

Lemma concat_map_singleton {A B : Type} (f : A -> B) (xs : list A) :
  concat (map (fun x => [f x]) xs) = map f xs.
Proof. induction xs as [|x xs IH]; simpl; [done | by rewrite IH]. Qed.

Lemma generate_daily_plan_ok (day_idx : Z) (prefs : TripPreference) :
  1 <= day_idx ->
  generate_daily_plan day_idx prefs = Ok (day_block day_idx prefs).
Proof.
  intros Hday. unfold generate_daily_plan, day_block. fold (pace_count prefs).
  rewrite (for_each_extend (fun i => [slot_item day_idx prefs i])).
  - by rewrite concat_map_singleton.
  - intros i acc _. by apply daily_plan_step_ok.
Qed.

Lemma date_diff_days_pos (start end_ : string) : 1 <= date_diff_days start end_.
Proof.
  unfold date_diff_days.
  destruct (Calendar.strptime start), (Calendar.strptime end_); lia.
Qed.

Lemma trip_days_pos (prefs : TripPreference) : 1 <= trip_days prefs.
Proof. apply date_diff_days_pos. Qed.

Lemma generate_itinerary_ok (prefs : TripPreference) :
  generate_itinerary prefs =
  Ok (mkItinerary
        (destination prefs ++ ": " ++ PyStr.of_Z (trip_days prefs) ++ " days")%string
        prefs
        (planned_items prefs)
        (Some ("Personalized plan for " ++ destination prefs ++ " over "
               ++ PyStr.of_Z (trip_days prefs) ++ " days, "
               ++ "optimized for a " ++ pace prefs ++ " pace with a "
               ++ budget_level prefs ++ " budget.")%string)
        (Some (pick_emoji (destination prefs)))).
Proof.
  unfold generate_itinerary. fold (trip_days prefs).
  pose proof (trip_days_pos prefs) as Hpos.
  rewrite (new_ItineraryItem_ok 1) by done. rewrite bind_Ok. fold arrival_item.
  rewrite (for_each_extend (fun d => day_block d prefs)).
  2:{ intros d acc Hd. apply elem_of_seqZ in Hd.
      rewrite generate_daily_plan_ok by lia. by rewrite bind_Ok. }
  rewrite bind_Ok. unfold planned_items.
  destruct (2 <? trip_days prefs) eqn:E.
  - apply Z.ltb_lt in E.
    rewrite new_ItineraryItem_ok by (done || lia). rewrite !bind_Ok.
    fold (farewell_item (trip_days prefs)). by rewrite <- app_assoc.
  - rewrite bind_Ok. by rewrite app_nil_r.
Qed.

(** ** Facts about one slot *)

Lemma slot_item_fields (day_idx : Z) (prefs : TripPreference) (i : nat) :
  day (slot_item day_idx prefs i) = day_idx /\
  category (slot_item day_idx prefs i) = (slot_entry prefs i).1 /\
  (slot_entry prefs i).2 !! (i mod length (slot_entry prefs i).2)%nat
    = Some (time_of_day (slot_item day_idx prefs i)).
Proof.
  unfold slot_item. pose proof (interest_lookup_ok (slot_tag prefs i)) as Hok.
  fold (slot_entry prefs i) in Hok.
  destruct (slot_entry prefs i) as [cat times]. simpl.
  split; [done|]. split; [done|].
  unfold entry_ok in Hok. rewrite !andb_true_iff in Hok.
  destruct Hok as [[[[Hne _] _] _] _].
  apply negb_true_iff, Nat.eqb_neq in Hne.
  assert (Hlt : (i mod length times < length times)%nat)
    by (apply Nat.mod_upper_bound; lia).
  destruct (lookup_lt_is_Some_2 times _ Hlt) as [tod Htod].
  rewrite Htod. f_equal. symmetry. by apply nth_lookup_Some.
Qed.

Lemma slot_entry_ok (prefs : TripPreference) (i : nat) :
  entry_ok (slot_entry prefs i) = true.
Proof. apply interest_lookup_ok. Qed.

Lemma slot_item_not_transport (day_idx : Z) (prefs : TripPreference) (i : nat) :
  category (slot_item day_idx prefs i) <> "transport".
Proof.
  destruct (slot_item_fields day_idx prefs i) as (_ & -> & _).
  pose proof (slot_entry_ok prefs i) as Hok.
  destruct (slot_entry prefs i) as [cat times]. simpl.
  unfold entry_ok in Hok. rewrite !andb_true_iff in Hok.
  destruct Hok as [[[[_ _] Hnt] _] _].
  apply negb_true_iff in Hnt. by apply String.eqb_neq in Hnt.
Qed.

Lemma slot_item_time (day_idx : Z) (prefs : TripPreference) (i : nat) :
  time_of_day (slot_item day_idx prefs i) ∈ ["morning"; "afternoon"; "evening"]%string.
Proof.
  destruct (slot_item_fields day_idx prefs i) as (_ & _ & Htod).
  pose proof (slot_entry_ok prefs i) as Hok.
  destruct (slot_entry prefs i) as [cat times]. simpl in Htod.
  unfold entry_ok in Hok. rewrite !andb_true_iff in Hok.
  destruct Hok as [_ Htimes].
  rewrite forallb_forall in Htimes.
  apply is_literal_elem, Htimes, list_elem_of_In.
  by eapply list_elem_of_lookup_2.
Qed.

Lemma pace_count_table (prefs : TripPreference) :
  (pace prefs = "relaxed" -> pace_count prefs = 2%nat) /\
  (pace prefs = "balanced" -> pace_count prefs = 3%nat) /\
  (pace prefs = "packed" -> pace_count prefs = 4%nat) /\
  (pace prefs ∉ ["relaxed"; "balanced"; "packed"]%string -> pace_count prefs = 3%nat).
Proof.
  unfold pace_count. repeat split.
  - by intros ->.
  - by intros ->.
  - by intros ->.
  - intros Hn. rewrite !not_elem_of_cons in Hn. destruct Hn as (H1 & H2 & H3 & _).
    unfold dict_get, pace_to_count, dict_lookup.
    apply not_eq_sym, String.eqb_neq in H1, H2, H3. by rewrite H1, H2, H3.
Qed.

Lemma length_day_block (day_idx : Z) (prefs : TripPreference) :
  length (day_block day_idx prefs) = pace_count prefs.
Proof. unfold day_block. by rewrite length_map, length_seq. Qed.

(** ** The calendar *)

Lemma days_before_year_succ (y : Z) :
  Calendar.days_before_year (y + 1)
  = Calendar.days_before_year y + (if Calendar.is_leap y then 366 else 365).
Proof.
  unfold Calendar.days_before_year, Calendar.is_leap.
  replace (y + 1 - 1) with y by lia.
  destruct (y mod 4 =? 0) eqn:E4; destruct (y mod 100 =? 0) eqn:E100;
    destruct (y mod 400 =? 0) eqn:E400; simpl;
    rewrite ?Z.eqb_eq, ?Z.eqb_neq in *;
    Z.div_mod_to_equations; lia.
Qed.

(** The ordinal of a date counts days: the next day has the next ordinal. *)
Lemma toordinal_next_day (d : Calendar.date) :
  1 <= Calendar.month d <= 12 ->
  1 <= Calendar.day d <= Calendar.days_in_month (Calendar.year d) (Calendar.month d) ->
  Calendar.toordinal (next_day d) = Calendar.toordinal d + 1.
Proof.
  destruct d as [y m dd]. simpl. intros Hm Hd. unfold next_day, Calendar.toordinal. simpl.
  destruct (dd <? Calendar.days_in_month y m) eqn:E; simpl; [lia|].
  apply Z.ltb_ge in E. assert (dd = Calendar.days_in_month y m) by lia. subst dd. clear E Hd.
  assert (Hcases : m = 1 \/ m = 2 \/ m = 3 \/ m = 4 \/ m = 5 \/ m = 6 \/ m = 7 \/ m = 8
                   \/ m = 9 \/ m = 10 \/ m = 11 \/ m = 12) by lia.
  destruct Hcases as [->|[->|[->|[->|[->|[->|[->|[->|[->|[->|[->| ->]]]]]]]]]]];
    simpl;
    try (unfold Calendar.days_before_month, Calendar.days_in_month; simpl;
         destruct (Calendar.is_leap y); simpl; lia).
  rewrite days_before_year_succ.
  unfold Calendar.days_before_month, Calendar.days_in_month; simpl;
    destruct (Calendar.is_leap y); simpl; lia.
Qed.

(** Writing a date as [YYYY-MM-DD] and parsing it gives the date back. *)
Lemma digit_digit_char (k : Z) : 0 <= k <= 9 -> Calendar.digit (digit_char k) = Some k.
Proof.
  intros Hk.
  assert (H : k = 0 \/ k = 1 \/ k = 2 \/ k = 3 \/ k = 4 \/ k = 5 \/ k = 6 \/ k = 7
              \/ k = 8 \/ k = 9) by lia.
  destruct H as [->|[->|[->|[->|[->|[->|[->|[->|[->| ->]]]]]]]]]; reflexivity.
Qed.

Lemma decimal_digit_char (k : Z) (rest : string) :
  0 <= k <= 9 -> Calendar.decimal (String (digit_char k) rest) = Some (k, rest).
Proof.
  intros Hk.
  assert (H : k = 0 \/ k = 1 \/ k = 2 \/ k = 3 \/ k = 4 \/ k = 5 \/ k = 6 \/ k = 7
              \/ k = 8 \/ k = 9) by lia.
  destruct H as [->|[->|[->|[->|[->|[->|[->|[->|[->| ->]]]]]]]]]; reflexivity.
Qed.

Lemma parse_Y_digits (a b c d : Z) (rest : string) :
  0 <= a <= 9 -> 0 <= b <= 9 -> 0 <= c <= 9 -> 0 <= d <= 9 ->
  Calendar.parse_Y
    (String (digit_char a) (String (digit_char b)
       (String (digit_char c) (String (digit_char d) rest))))
  = Some (a * 1000 + b * 100 + c * 10 + d, rest).
Proof.
  intros Ha Hb Hc Hd. unfold Calendar.parse_Y.
  rewrite decimal_digit_char by done. cbn [mbind option_bind].
  rewrite decimal_digit_char by done. cbn [mbind option_bind].
  rewrite decimal_digit_char by done. cbn [mbind option_bind].
  rewrite decimal_digit_char by done. reflexivity.
Qed.

Lemma parse_Y_four_digits (y : Z) (rest : string) :
  0 <= y <= 9999 ->
  Calendar.parse_Y (four_digits y ++ rest) = Some (y, rest).
Proof.
  intros Hy. unfold four_digits, two_digits.
  change (Calendar.parse_Y
            (String (digit_char (y / 1000)) (String (digit_char (y / 100 mod 10))
               (String (digit_char (y mod 100 / 10))
                  (String (digit_char (y mod 100 mod 10)) rest))))
          = Some (y, rest)).
  rewrite parse_Y_digits by (Z.div_mod_to_equations; lia).
  do 2 f_equal. Z.div_mod_to_equations; lia.
Qed.

Lemma month_day_table :
  forallb (fun m => forallb (month_day_ok m) (seqZ 1 31)) (seqZ 1 12) = true.
Proof. by vm_compute. Qed.

Lemma parse_tail_year (y : Z) (mr : Z * string) :
  Calendar.parse_tail y mr
  = (fun dt => Calendar.mkDate y (Calendar.month dt) (Calendar.day dt))
      <$> Calendar.parse_tail 0 mr.
Proof.
  unfold Calendar.parse_tail. destruct (Calendar.expect_dash mr.2) as [r|]; simpl; [|done].
  destruct (Calendar.parse_d r) as [[d [|c rest]]|]; done.
Qed.

Lemma first_some_parse_tail_year (y : Z) (l : list (Z * string)) :
  Calendar.first_some (Calendar.parse_tail y) l
  = (fun dt => Calendar.mkDate y (Calendar.month dt) (Calendar.day dt))
      <$> Calendar.first_some (Calendar.parse_tail 0) l.
Proof.
  induction l as [|mr l IH]; simpl; [done|].
  rewrite parse_tail_year. by destruct (Calendar.parse_tail 0 mr).
Qed.

Lemma parse_month_day (y m d : Z) :
  1 <= m <= 12 -> 1 <= d <= 31 ->
  Calendar.first_some (Calendar.parse_tail y)
    (Calendar.parse_m (two_digits m ++ "-" ++ two_digits d))
  = Some (Calendar.mkDate y m d).
Proof.
  intros Hm Hd. pose proof month_day_table as H.
  rewrite forallb_forall in H.
  assert (Hmi : In m (seqZ 1 12)) by (apply list_elem_of_In, elem_of_seqZ; lia).
  specialize (H m Hmi). rewrite forallb_forall in H.
  assert (Hdi : In d (seqZ 1 31)) by (apply list_elem_of_In, elem_of_seqZ; lia).
  specialize (H d Hdi). unfold month_day_ok in H.
  rewrite first_some_parse_tail_year.
  destruct (Calendar.first_some (Calendar.parse_tail 0) _) as [dt|]; [|done].
  apply andb_prop in H as [H1 H2]. apply Z.eqb_eq in H1, H2. simpl. by rewrite H1, H2.
Qed.

Lemma expect_dash_dash (s : string) : Calendar.expect_dash ("-" ++ s) = Some s.
Proof. reflexivity. Qed.

Lemma strptime_iso_date (d : Calendar.date) :
  Calendar.valid d = true -> Calendar.strptime (iso_date d) = Some d.
Proof.
  destruct d as [y m dd]. intros Hv. pose proof Hv as Hv'.
  unfold Calendar.valid in Hv'. cbn [Calendar.year Calendar.month Calendar.day] in Hv'.
  rewrite !andb_true_iff, !Z.leb_le in Hv'.
  destruct Hv' as [[[[[Hy1 Hy2] Hm1] Hm2] Hd1] Hd2].
  assert (Hd31 : dd <= 31).
  { unfold Calendar.days_in_month in Hd2.
    repeat match type of Hd2 with context [if ?b then _ else _] => destruct b end; lia. }
  unfold Calendar.strptime, iso_date.
  cbn [Calendar.year Calendar.month Calendar.day].
  remember (two_digits m ++ "-" ++ two_digits dd)%string as tail eqn:Htail.
  rewrite parse_Y_four_digits by lia.
  cbn [mbind option_bind]. rewrite expect_dash_dash. cbn [mbind option_bind].
  subst tail. rewrite parse_month_day by lia.
  cbn [mbind option_bind]. by rewrite Hv.
Qed.

Lemma date_diff_days_iso (sd ed : Calendar.date) :
  Calendar.valid sd = true -> Calendar.valid ed = true ->
  date_diff_days (iso_date sd) (iso_date ed)
  = Z.max 1 (Calendar.toordinal ed - Calendar.toordinal sd + 1).
Proof.
  intros Hs He. unfold date_diff_days. by rewrite !strptime_iso_date.
Qed.

(** ** The format of a date *)

Lemma append_assoc (a b c : string) : ((a ++ b) ++ c = a ++ (b ++ c))%string.
Proof.
  induction a as [|x a IH]; [done|].
  change (String x ((a ++ b) ++ c) = String x (a ++ b ++ c)). by f_equal.
Qed.

Lemma append_cons (c : ascii) (s r : string) : (String c s ++ r = String c (s ++ r))%string.
Proof. reflexivity. Qed.

Lemma append_nil (r : string) : ("" ++ r = r)%string.
Proof. reflexivity. Qed.

Lemma next_char_app (t r : string) (cp : Z) :
  Calendar.next_char t = Some (cp, "") -> Calendar.next_char (t ++ r) = Some (cp, r).
Proof.
  destruct t as [|a t]; [done|]. rewrite append_cons. unfold Calendar.next_char.
  destruct (Calendar.byte a <? 128).
  { intros [= <- ->]. by rewrite append_nil. }
  destruct (Calendar.byte a <? 192); [done|].
  destruct (Calendar.byte a <? 224).
  { destruct t as [|b t]; [done|]. rewrite append_cons.
    destruct (_ && _); [|done]. intros [= <- ->]. by rewrite append_nil. }
  destruct (Calendar.byte a <? 240).
  { destruct t as [|b [|c t]]; [done|done|]. rewrite !append_cons.
    destruct (_ && _); [|done]. intros [= <- ->]. by rewrite append_nil. }
  destruct (Calendar.byte a <? 248); [|done].
  destruct t as [|b [|c [|d t]]]; [done|done|done|]. rewrite !append_cons.
  destruct (_ && _); [|done]. intros [= <- ->]. by rewrite append_nil.
Qed.

Lemma next_char_split (s r : string) (cp : Z) :
  Calendar.next_char s = Some (cp, r) ->
  exists t, s = (t ++ r)%string /\ Calendar.next_char t = Some (cp, "").
Proof.
  destruct s as [|a s]; [done|]. unfold Calendar.next_char.
  destruct (Calendar.byte a <? 128) eqn:E1.
  { intros [= <- <-]. exists (String a ""). split; [done|].
    unfold Calendar.next_char. by rewrite E1. }
  destruct (Calendar.byte a <? 192) eqn:E2; [done|].
  destruct (Calendar.byte a <? 224) eqn:E3.
  { destruct s as [|b s]; [done|].
    destruct (_ && _) eqn:E; [|done]. intros [= <- <-].
    exists (String a (String b "")). split; [done|].
    unfold Calendar.next_char. by rewrite E1, E2, E3, E. }
  destruct (Calendar.byte a <? 240) eqn:E4.
  { destruct s as [|b [|c s]]; [done|done|].
    destruct (_ && _) eqn:E; [|done]. intros [= <- <-].
    exists (String a (String b (String c ""))). split; [done|].
    unfold Calendar.next_char. by rewrite E1, E2, E3, E4, E. }
  destruct (Calendar.byte a <? 248) eqn:E5; [|done].
  destruct s as [|b [|c [|d s]]]; [done|done|done|].
  destruct (_ && _) eqn:E; [|done]. intros [= <- <-].
  exists (String a (String b (String c (String d "")))). split; [done|].
  unfold Calendar.next_char. by rewrite E1, E2, E3, E4, E5, E.
Qed.

Lemma decimal_app (t r : string) (k : Z) :
  decimal_digit k t -> Calendar.decimal (t ++ r) = Some (k, r).
Proof.
  unfold decimal_digit, Calendar.decimal. intros H.
  destruct (Calendar.next_char t) as [[cp r0]|] eqn:E; [|done]. simpl in H.
  destruct (Calendar.decimal_value cp) as [k0|] eqn:Ek; [|done]. simpl in H.
  injection H as <- ->. rewrite (next_char_app _ r _ E). simpl. by rewrite Ek.
Qed.

Lemma decimal_split (s r : string) (k : Z) :
  Calendar.decimal s = Some (k, r) ->
  exists t, s = (t ++ r)%string /\ decimal_digit k t.
Proof.
  unfold decimal_digit, Calendar.decimal. intros H.
  destruct (Calendar.next_char s) as [[cp r0]|] eqn:E; [|done]. simpl in H.
  destruct (Calendar.decimal_value cp) as [k0|] eqn:Ek; [|done]. simpl in H.
  injection H as <- <-. destruct (next_char_split _ _ _ E) as (t & -> & Ht).
  exists t. split; [done|]. rewrite Ht. simpl. by rewrite Ek.
Qed.

Lemma parse_Y_year_text (s r : string) (y : Z) :
  Calendar.parse_Y s = Some (y, r) <->
  exists ty, s = (ty ++ r)%string /\ year_text y ty.
Proof.
  unfold Calendar.parse_Y. split.
  - intros H.
    destruct (Calendar.decimal s) as [[a r1]|] eqn:Ea; [|done]. cbn [mbind option_bind] in H.
    destruct (Calendar.decimal r1) as [[b r2]|] eqn:Eb; [|done]. cbn [mbind option_bind] in H.
    destruct (Calendar.decimal r2) as [[c r3]|] eqn:Ec; [|done]. cbn [mbind option_bind] in H.
    destruct (Calendar.decimal r3) as [[d r4]|] eqn:Ed; [|done]. cbn [mbind option_bind] in H.
    injection H as <- <-.
    apply decimal_split in Ea as (ta & -> & Ha), Eb as (tb & -> & Hb),
        Ec as (tc & -> & Hc), Ed as (td & -> & Hd).
    exists (ta ++ tb ++ tc ++ td)%string. split; [by rewrite !append_assoc|].
    by exists a, b, c, d, ta, tb, tc, td.
  - intros (ty & -> & a & b & c & d & ta & tb & tc & td & Ha & Hb & Hc & Hd & -> & ->).
    rewrite !append_assoc.
    rewrite (decimal_app _ _ _ Ha). cbn [mbind option_bind].
    rewrite (decimal_app _ _ _ Hb). cbn [mbind option_bind].
    rewrite (decimal_app _ _ _ Hc). cbn [mbind option_bind].
    rewrite (decimal_app _ _ _ Hd). reflexivity.
Qed.

Lemma digit_inv (c : ascii) (k : Z) :
  Calendar.digit c = Some k -> c = digit_char k /\ 0 <= k <= 9.
Proof.
  unfold Calendar.digit, digit_char.
  destruct (Nat.leb 48 (nat_of_ascii c) && Nat.leb (nat_of_ascii c) 57)%bool eqn:E; [|done].
  apply andb_true_iff in E as [E1 E2]. apply Nat.leb_le in E1, E2.
  intros [= <-]. split; [|lia].
  rewrite Nat2Z.id. replace (48 + (nat_of_ascii c - 48))%nat with (nat_of_ascii c) by lia.
  by rewrite ascii_nat_embedding.
Qed.

Lemma two_digits_unfold (x y : Z) :
  0 <= x -> 0 <= y <= 9 ->
  two_digits (x * 10 + y) = String (digit_char x) (String (digit_char y) "").
Proof.
  intros Hx Hy. unfold two_digits.
  replace ((x * 10 + y) / 10) with x by (Z.div_mod_to_equations; lia).
  replace ((x * 10 + y) mod 10) with y by (Z.div_mod_to_equations; lia).
  done.
Qed.

Lemma parse_m_month_text (s r : string) (m : Z) :
  (m, r) ∈ Calendar.parse_m s <-> exists tm, s = (tm ++ r)%string /\ month_text m tm.
Proof.
  unfold Calendar.parse_m, month_text. split.
  - destruct s as [|a s]; [by intros ?%elem_of_nil|].
    destruct (Calendar.digit a) as [x|] eqn:Ea; [|by intros ?%elem_of_nil].
    apply digit_inv in Ea as [-> Hx].
    intros [Hin | Hin]%elem_of_app.
    + destruct s as [|b s]; [by apply elem_of_nil in Hin|].
      destruct (Calendar.digit b) as [y|] eqn:Eb; [|by apply elem_of_nil in Hin].
      apply digit_inv in Eb as [-> Hy].
      destruct (_ || _) eqn:E; [|by apply elem_of_nil in Hin].
      apply list_elem_of_singleton in Hin. injection Hin as -> ->.
      rewrite orb_true_iff, !andb_true_iff, !Z.eqb_eq, !Z.leb_le in E.
      exists (String (digit_char x) (String (digit_char y) "")). split; [done|].
      left. split; [lia|]. symmetry. apply two_digits_unfold; lia.
    + destruct (1 <=? x) eqn:E; [|by apply elem_of_nil in Hin].
      apply Z.leb_le in E. apply list_elem_of_singleton in Hin. injection Hin as -> ->.
      exists (String (digit_char x) ""). split; [done|]. right. split; [lia | done].
  - intros (tm & -> & [[Hm ->] | [Hm ->]]).
    + replace m with (m / 10 * 10 + m mod 10) at 1 by (Z.div_mod_to_equations; lia).
      unfold two_digits. rewrite !append_cons, append_nil.
      rewrite !digit_digit_char by (Z.div_mod_to_equations; lia).
      apply elem_of_app. left.
      assert (E : ((m / 10 =? 1) && (m mod 10 <=? 2)) || ((m / 10 =? 0) && (1 <=? m mod 10))
                  = true).
      { rewrite orb_true_iff, !andb_true_iff, !Z.eqb_eq, !Z.leb_le.
        Z.div_mod_to_equations; lia. }
      rewrite E. by apply list_elem_of_singleton.
    + rewrite append_cons, append_nil. rewrite digit_digit_char by lia.
      apply elem_of_app. right.
      replace (1 <=? m) with true by (symmetry; apply Z.leb_le; lia).
      by apply list_elem_of_singleton.
Qed.

Lemma parse_d_day_text (s : string) (d : Z) :
  Calendar.parse_d s = Some (d, "") <-> day_text d s.
Proof.
  unfold day_text. split.
  - destruct s as [|a r]; [done|]. unfold Calendar.parse_d.
    destruct (Calendar.digit a) as [x|] eqn:Ea.
    + apply digit_inv in Ea as [-> Hx].
      destruct ((x =? 1) || (x =? 2)) eqn:E12.
      * rewrite orb_true_iff, !Z.eqb_eq in E12.
        destruct (Calendar.decimal r) as [[y r']|] eqn:Ed.
        -- intros [= <- ->]. right. right. left. by exists x, y, r.
        -- destruct (1 <=? x) eqn:E1; [|done]. apply Z.leb_le in E1.
           intros [= <- ->]. right. right. right. left. split; [lia | done].
      * destruct r as [|b r'].
        -- destruct (1 <=? x) eqn:E1; [|done]. apply Z.leb_le in E1.
           intros [= <-]. right. right. right. left. split; [lia | done].
        -- destruct (Calendar.digit b) as [y|] eqn:Eb.
           ++ apply digit_inv in Eb as [-> Hy].
              destruct ((x =? 3) && (y <=? 1) || (x =? 0) && (1 <=? y)) eqn:E.
              ** rewrite orb_true_iff, !andb_true_iff, !Z.eqb_eq, !Z.leb_le in E.
                 intros [= <- ->].
                 rewrite two_digits_unfold by lia.
                 destruct E as [[-> Hy1] | [-> Hy1]]; [right; left | left];
                   (split; [lia | done]).
              ** by destruct (1 <=? x).
           ++ by destruct (1 <=? x).
    + destruct (Ascii.eqb a " ") eqn:Esp; [|done]. apply Ascii.eqb_eq in Esp. subst a.
      destruct r as [|b r']; [done|].
      destruct (Calendar.digit b) as [y|] eqn:Eb; [|done].
      apply digit_inv in Eb as [-> Hy].
      destruct (1 <=? y) eqn:E1; [|done]. apply Z.leb_le in E1.
      intros [= <- ->]. do 4 right. split; [lia | done].
  - intros [[Hd ->] | [[Hd ->] | [(x & k & u & Hx & Hk & -> & ->) | [[Hd ->] | [Hd ->]]]]].
    + replace d with (0 * 10 + d) at 1 by lia. rewrite two_digits_unfold by lia.
      unfold Calendar.parse_d. rewrite !digit_digit_char by lia. cbn [Z.eqb orb andb].
      by replace (1 <=? d) with true by (symmetry; apply Z.leb_le; lia).
    + replace d with (3 * 10 + (d - 30)) at 1 by lia. rewrite two_digits_unfold by lia.
      unfold Calendar.parse_d. rewrite !digit_digit_char by lia. cbn [Z.eqb orb andb].
      replace (d - 30 <=? 1) with true by (symmetry; apply Z.leb_le; lia).
      do 2 f_equal. lia.
    + unfold Calendar.parse_d. rewrite digit_digit_char by lia.
      replace ((x =? 1) || (x =? 2)) with true
        by (symmetry; rewrite orb_true_iff, !Z.eqb_eq; lia).
      unfold decimal_digit in Hk. by rewrite Hk.
    + unfold Calendar.parse_d. rewrite digit_digit_char by lia.
      replace (1 <=? d) with true by (symmetry; apply Z.leb_le; lia).
      by destruct ((d =? 1) || (d =? 2)).
    + unfold Calendar.parse_d. change (Calendar.digit " ") with (@None Z).
      change (Ascii.eqb " " " ") with true. rewrite digit_digit_char by lia.
      by replace (1 <=? d) with true by (symmetry; apply Z.leb_le; lia).
Qed.

Lemma expect_dash_inv (s r : string) :
  Calendar.expect_dash s = Some r <-> s = String "-" r.
Proof.
  unfold Calendar.expect_dash. destruct s as [|c s]; [done|].
  destruct (Ascii.eqb c "-") eqn:E.
  - apply Ascii.eqb_eq in E. subst c. split; congruence.
  - apply Ascii.eqb_neq in E. split; [done | congruence].
Qed.

Lemma first_some_Some {A B : Type} (f : A -> option B) (l : list A) (b : B) :
  Calendar.first_some f l = Some b -> exists x, x ∈ l /\ f x = Some b.
Proof.
  induction l as [|x l IH]; simpl; [done|].
  destruct (f x) as [b'|] eqn:E.
  - intros [= ->]. exists x. split; [left | done].
  - intros (x' & Hin & Hx')%IH. exists x'. split; [by right | done].
Qed.

Lemma parse_tail_day_text (y m : Z) (r : string) (dt : Calendar.date) :
  Calendar.parse_tail y (m, r) = Some dt <->
  exists td, r = String "-" td /\ day_text (Calendar.day dt) td /\
             dt = Calendar.mkDate y m (Calendar.day dt).
Proof.
  unfold Calendar.parse_tail. cbn [fst snd]. split.
  - destruct (Calendar.expect_dash r) as [r1|] eqn:E1; [|done].
    apply expect_dash_inv in E1 as ->. cbn [mbind option_bind].
    destruct (Calendar.parse_d r1) as [[d1 rest]|] eqn:Ed; [|done]. cbn [mbind option_bind].
    destruct rest; [|done]. intros [= <-]. cbn [Calendar.day].
    exists r1. split; [done|]. split; [by apply parse_d_day_text | done].
  - intros (td & -> & Hd & ->). cbn [Calendar.day] in *.
    change (Calendar.expect_dash (String "-" td)) with (Some td).
    cbn [mbind option_bind]. apply parse_d_day_text in Hd. by rewrite Hd.
Qed.

(** The parser accepts exactly the texts in the format that name a day of
    the calendar. *)
Lemma strptime_written (s : string) (dt : Calendar.date) :
  Calendar.strptime s = Some dt <-> written s dt /\ Calendar.valid dt = true.
Proof.
  unfold Calendar.strptime, written. split.
  - destruct (Calendar.parse_Y s) as [[y r]|] eqn:EY; [|done].
    apply parse_Y_year_text in EY as (ty & -> & Hy). cbn [mbind option_bind].
    destruct (Calendar.expect_dash r) as [r1|] eqn:E1; [|done].
    apply expect_dash_inv in E1 as ->. cbn [mbind option_bind].
    destruct (Calendar.first_some _ _) as [dt'|] eqn:Ef; [|done]. cbn [mbind option_bind].
    destruct (Calendar.valid dt') eqn:Ev; [|done]. intros [= <-]. split; [|done].
    apply first_some_Some in Ef as ([m r2] & Hin & Ht).
    apply parse_m_month_text in Hin as (tm & -> & Hm).
    apply parse_tail_day_text in Ht as (td & -> & Hd & Hdt).
    exists ty, tm, td. rewrite Hdt at 1 2. cbn [Calendar.year Calendar.month].
    done.
  - intros [(ty & tm & td & Hy & Hm & Hd & ->) Hv].
    assert (EY : Calendar.parse_Y (ty ++ "-" ++ tm ++ "-" ++ td)
                 = Some (Calendar.year dt, ("-" ++ tm ++ "-" ++ td)%string)).
    { apply parse_Y_year_text. by exists ty. }
    rewrite EY. cbn [mbind option_bind].
    change (Calendar.expect_dash ("-" ++ tm ++ "-" ++ td))
      with (Some (tm ++ "-" ++ td)%string).
    cbn [mbind option_bind].
    assert (Ht : Calendar.parse_tail (Calendar.year dt)
                   (Calendar.month dt, String "-" td) = Some dt).
    { apply parse_tail_day_text. exists td. by destruct dt. }
    assert (Ef : Calendar.first_some (Calendar.parse_tail (Calendar.year dt))
                   (Calendar.parse_m (tm ++ "-" ++ td)) = Some dt).
    { destruct Hm as [[Hm ->] | [Hm ->]].
      - unfold two_digits, Calendar.parse_m. rewrite ?append_cons, ?append_nil.
        rewrite !digit_digit_char by (Z.div_mod_to_equations; lia).
        assert (E : ((Calendar.month dt / 10 =? 1) && (Calendar.month dt mod 10 <=? 2))
                    || ((Calendar.month dt / 10 =? 0) && (1 <=? Calendar.month dt mod 10))
                    = true).
        { rewrite orb_true_iff, !andb_true_iff, !Z.eqb_eq, !Z.leb_le.
          Z.div_mod_to_equations; lia. }
        rewrite E. cbn [app Calendar.first_some].
        replace (Calendar.month dt / 10 * 10 + Calendar.month dt mod 10)
          with (Calendar.month dt) by (Z.div_mod_to_equations; lia).
        by rewrite Ht.
      - unfold Calendar.parse_m. rewrite ?append_cons, ?append_nil.
        rewrite digit_digit_char by lia.
        change (Calendar.digit "-") with (@None Z). cbn [app].
        replace (1 <=? Calendar.month dt) with true by (symmetry; apply Z.leb_le; lia).
        cbn [Calendar.first_some]. by rewrite Ht. }
    rewrite Ef. cbn [mbind option_bind]. by rewrite Hv.
Qed.

Lemma iso_date_written (d : Calendar.date) :
  0 <= Calendar.year d <= 9999 -> 1 <= Calendar.month d <= 12 ->
  1 <= Calendar.day d <= 31 -> written (iso_date d) d.
Proof.
  destruct d as [y m dd]. cbn [Calendar.year Calendar.month Calendar.day].
  intros Hy Hm Hd. unfold written, iso_date.
  cbn [Calendar.year Calendar.month Calendar.day].
  exists (four_digits y), (two_digits m), (two_digits dd).
  split; [|split; [|split; [|done]]].
  - exists (y / 1000), (y / 100 mod 10), (y mod 100 / 10), (y mod 100 mod 10).
    exists (String (digit_char (y / 1000)) ""), (String (digit_char (y / 100 mod 10)) ""),
           (String (digit_char (y mod 100 / 10)) ""),
           (String (digit_char (y mod 100 mod 10)) "").
    unfold decimal_digit.
    rewrite !decimal_digit_char by (Z.div_mod_to_equations; lia).
    do 4 (split; [done|]). split; [done|]. Z.div_mod_to_equations; lia.
  - left. split; [lia | done].
  - unfold day_text.
    destruct (decide (dd <= 9)) as [H9|H9]; [left; split; [lia | done]|].
    destruct (decide (30 <= dd)) as [H30|H30]; [right; left; split; [lia | done]|].
    right. right. left.
    exists (dd / 10), (dd mod 10), (String (digit_char (dd mod 10)) "").
    split; [Z.div_mod_to_equations; lia|]. split.
    { unfold decimal_digit. apply decimal_digit_char. Z.div_mod_to_equations; lia. }
    split; [Z.div_mod_to_equations; lia | done].
Qed.

(** ** The date range calculator *)



(** ** The generator *)

Lemma per_day_count_ok (day_idx : Z) (prefs : TripPreference) :
  1 <= day_idx -> per_day_count day_idx prefs = pace_count prefs.
Proof.
  intros H. unfold per_day_count. rewrite generate_daily_plan_ok by done.
  apply length_day_block.
Qed.

Lemma length_concat_blocks (prefs : TripPreference) (ds : list Z) :
  Forall (fun d => 1 <= d) ds ->
  length (concat (map (fun d => day_block d prefs) ds))
  = sum_list (map (fun d => per_day_count d prefs) ds).
Proof.
  induction 1 as [|d ds Hd _ IH]; simpl; [done|].
  rewrite length_app, IH, per_day_count_ok, length_day_block by done. done.
Qed.

Lemma seqZ_from_one (n : Z) : Forall (fun d => 1 <= d) (seqZ 1 n).
Proof. apply Forall_forall. intros d Hd. apply elem_of_seqZ in Hd. lia. Qed.

(** C4: the generator returns an itinerary whose item list has length
    1 (arrival) + the sum of the per-day counts over days 1..days
    + 1 if days > 2 (farewell), 0 otherwise. *)
Theorem item_count_invariant (prefs : TripPreference) :
  exists it,
    generate_itinerary prefs = Ok it /\
    let days := date_diff_days (start_date prefs) (end_date prefs) in
    length (items it) =
      (1 + sum_list (map (fun d => per_day_count d prefs) (seqZ 1 days))
       + (if bool_decide (days > 2)%Z then 1 else 0))%nat.
Proof.
  eexists. split; [apply generate_itinerary_ok|]. simpl.
  unfold planned_items. fold (trip_days prefs).
  rewrite !length_app, length_concat_blocks by apply seqZ_from_one. simpl.
  destruct (2 <? trip_days prefs) eqn:E.
  - apply Z.ltb_lt in E. rewrite bool_decide_eq_true_2 by lia. simpl. lia.
  - apply Z.ltb_ge in E. rewrite bool_decide_eq_false_2 by lia. simpl. lia.
Qed.

(** With the same count on every day the sum is a product. *)
Lemma item_count_closed_form (prefs : TripPreference) :
  length (planned_items prefs)
  = (1 + Z.to_nat (trip_days prefs) * pace_count prefs
     + (if (2 <? trip_days prefs)%Z then 1 else 0))%nat.
Proof.
  unfold planned_items. rewrite !length_app. simpl.
  assert (H : forall ds, length (concat (map (fun d => day_block d prefs) ds))
                         = (length ds * pace_count prefs)%nat).
  { induction ds as [|d ds IH]; simpl; [done|].
    by rewrite length_app, IH, length_day_block. }
  rewrite H, length_seqZ. by destruct (2 <? trip_days prefs).
Qed.

(** C2 as the specification states it (4 items) does not hold: for the
    Paris example the generator computes 3 days and the map emoji, but the
    per-day loop runs on each of the 3 days. *)
Lemma paris_example_not_four_items :
  ~ (exists it,
       generate_itinerary paris_prefs = Ok it /\
       date_diff_days (start_date paris_prefs) (end_date paris_prefs) = 3 /\
       length (items it) = 4%nat /\
       destination_emoji it = Some EMOJI_MAP).
Proof.
  intros (it & Hgen & _ & Hlen & _).
  rewrite generate_itinerary_ok in Hgen. injection Hgen as <-.
  vm_compute in Hlen. discriminate.
Qed.

(** C2, amended: for destination "Paris", 2024-06-01 to 2024-06-03, pace
    "relaxed", interests ["food"], the generator computes 3 days, produces
    8 items (1 arrival + 2 on each of the 3 days + 1 farewell) and assigns
    the map emoji. *)
Theorem paris_example :
  exists it,
    generate_itinerary paris_prefs = Ok it /\
    date_diff_days (start_date paris_prefs) (end_date paris_prefs) = 3 /\
    length (items it) = (1 + 3 * 2 + 1)%nat /\
    map (fun d => per_day_count d paris_prefs) (seqZ 1 3) = [2; 2; 2]%nat /\
    destination_emoji it = Some EMOJI_MAP /\
    EMOJI_MAP = "🗺️".
Proof. eexists. split; [apply generate_itinerary_ok|]. by vm_compute. Qed.

(** C5: the block of a day holds exactly the pace-table count of items
    (relaxed 2, balanced 3, packed 4, otherwise 3); the item of slot [i]
    has the category and a time of day taken from the interest-table entry
    of the lowercased tag [interests[i mod len(interests)]] (of the tag
    "sightseeing" when there are no interests; a tag the table does not
    know gives category "sightseeing" with morning, afternoon, evening),
    the time of day being the entry's option [i mod (number of options)]. *)
Theorem daily_plan_block (prefs : TripPreference) (day_idx : Z) :
  1 <= day_idx ->
  exists block,
    generate_daily_plan day_idx prefs = Ok block /\
    length block = dict_get pace_to_count (pace prefs) 3%nat /\
    (pace prefs = "relaxed" -> length block = 2%nat) /\
    (pace prefs = "balanced" -> length block = 3%nat) /\
    (pace prefs = "packed" -> length block = 4%nat) /\
    (pace prefs ∉ ["relaxed"; "balanced"; "packed"]%string -> length block = 3%nat) /\
    forall i : nat, (i < length block)%nat ->
      exists item tag cat times,
        block !! i = Some item /\
        day item = day_idx /\
        match interests prefs with
        | [] => tag = "sightseeing"
        | _ :: _ =>
            exists raw, interests prefs !! (i mod length (interests prefs))%nat = Some raw /\
                        tag = PyStr.lower raw
        end /\
        (cat, times) =
          match dict_lookup interest_map tag with
          | Some entry => entry
          | None => ("sightseeing", ["morning"; "afternoon"; "evening"])%string
          end /\
        category item = cat /\
        times !! (i mod length times)%nat = Some (time_of_day item).
Proof.
  intros Hday. exists (day_block day_idx prefs).
  split; [by apply generate_daily_plan_ok|].
  rewrite length_day_block.
  destruct (pace_count_table prefs) as (H2 & H3 & H4 & Hd).
  do 5 (split; [done|]).
  intros i Hi.
  exists (slot_item day_idx prefs i), (slot_tag prefs i),
         (slot_entry prefs i).1, (slot_entry prefs i).2.
  destruct (slot_item_fields day_idx prefs i) as (Hd' & Hc & Ht).
  split.
  { unfold day_block. rewrite list_lookup_fmap, lookup_seq_lt by done. done. }
  split; [done|]. split.
  { unfold slot_tag. destruct (interests prefs) as [|t ts] eqn:E; [done|].
    assert (Hlt : (i mod length (t :: ts) < length (t :: ts))%nat)
      by (apply Nat.mod_upper_bound; simpl; lia).
    destruct (lookup_lt_is_Some_2 _ _ Hlt) as [raw Hraw].
    exists raw. split; [done|]. f_equal. by apply nth_lookup_Some. }
  split; [|done].
  unfold slot_entry, dict_get, interest_default.
  by destruct (dict_lookup interest_map (slot_tag prefs i)) as [[c t]|].
Qed.

Lemma daily_plan_block_witness :
  exists block,
    generate_daily_plan 2 mixed_prefs = Ok block /\
    map category block = ["culture"; "sightseeing"; "food"; "culture"]%string /\
    map time_of_day block = ["afternoon"; "afternoon"; "morning"; "afternoon"]%string.
Proof.
  destruct (daily_plan_block mixed_prefs 2) as (block & Hgen & _); [lia|].
  exists block. split; [exact Hgen|].
  rewrite generate_daily_plan_ok in Hgen by lia. injection Hgen as <-.
  by vm_compute.
Defined.

(** C6: no item of a per-day block has category "transport": no entry the
    interest lookup can return has that category, although the title table
    has a "transport" entry; in a generated itinerary a "transport" item
    is one of the two fixed items (arrival, farewell). *)
Theorem transport_unreachable (prefs : TripPreference) :
  Forall (fun e : string * list string => e.1 <> "transport") interest_entries /\
  dict_lookup title_table "transport" = Some "Transfer/Check-in" /\
  (forall day_idx block,
      generate_daily_plan day_idx prefs = Ok block ->
      Forall (fun item => category item <> "transport") block) /\
  exists it,
    generate_itinerary prefs = Ok it /\
    forall (k : nat) item,
      items it !! k = Some item ->
      category item = "transport" ->
      (k = 0%nat /\ item = arrival_item) \/
      (k = (length (items it) - 1)%nat /\
       item = farewell_item (date_diff_days (start_date prefs) (end_date prefs))).
Proof.
  split; [by repeat constructor|]. split; [done|]. split.
  - intros d block Hgen. destruct (decide (1 <= d)) as [Hd|Hd].
    + rewrite generate_daily_plan_ok in Hgen by done. injection Hgen as <-.
      unfold day_block. apply Forall_fmap, Forall_forall. intros i _. simpl.
      apply slot_item_not_transport.
    + unfold generate_daily_plan in Hgen. cbv zeta in Hgen.
      change (dict_get pace_to_count (pace prefs) 3%nat) with (pace_count prefs) in Hgen.
      assert (Hc : exists n, pace_count prefs = S n).
      { unfold pace_count.
        destruct (dict_get_cases pace_to_count (pace prefs) 3%nat) as [-> | H];
          [by eexists|].
        simpl in H. rewrite !elem_of_cons, elem_of_nil in H.
        destruct H as [-> | [-> | [-> | []]]]; by eexists. }
      destruct Hc as [n Hn]. rewrite Hn in Hgen. simpl in Hgen.
      apply bind_Ok_inv in Hgen as (acc & Hstep & _).
      unfold daily_plan_step in Hstep.
      rewrite interest_key_ok, bind_Ok in Hstep.
      destruct (dict_get interest_map (slot_tag prefs 0) interest_default) as [cat times].
      apply bind_Ok_inv in Hstep as (j & _ & Hstep).
      apply bind_Ok_inv in Hstep as (tod & _ & Hstep).
      apply bind_Ok_inv in Hstep as (ttl & _ & Hstep).
      apply bind_Ok_inv in Hstep as (item & Hnew & _).
      unfold new_ItineraryItem in Hnew.
      replace (1 <=? d) with false in Hnew by (symmetry; apply Z.leb_gt; lia).
      discriminate.
  - eexists. split; [apply generate_itinerary_ok|]. simpl.
    intros k item Hk Hcat. left.
    unfold planned_items in Hk. destruct k as [|k]; simpl in Hk.
    + injection Hk as <-. done.
    + exfalso. apply lookup_app_Some in Hk as [Hk | [_ Hk]].
      * apply list_elem_of_lookup_2, list_elem_of_In, in_concat in Hk
          as (blk & Hblk & Hin).
        apply in_map_iff in Hblk as (d & <- & _).
        unfold day_block in Hin. apply in_map_iff in Hin as (i & <- & _).
        by apply (slot_item_not_transport d prefs i).
      * destruct (2 <? trip_days prefs); [|by rewrite lookup_nil in Hk].
        apply list_elem_of_lookup_2 in Hk. apply list_elem_of_singleton in Hk.
        subst. discriminate.
Qed.

(** C10: the item type allows the time of day "flex" and has it as the
    default, yet no generated item has it: the options of every interest
    entry are among morning, afternoon, evening, the arrival is "morning"
    and the farewell "evening". *)
Theorem no_flex_item (prefs : TripPreference) :
  "flex" ∈ TIME_OF_DAY_LITERAL /\
  default_time_of_day = "flex" /\
  Forall (fun e : string * list string =>
            Forall (fun t => t ∈ ["morning"; "afternoon"; "evening"]%string) e.2)
         interest_entries /\
  time_of_day arrival_item = "morning" /\
  (forall days, time_of_day (farewell_item days) = "evening") /\
  exists it,
    generate_itinerary prefs = Ok it /\
    Forall (fun item => time_of_day item <> "flex") (items it).
Proof.
  split; [unfold TIME_OF_DAY_LITERAL; rewrite !elem_of_cons; tauto|].
  split; [done|]. split.
  { repeat constructor; rewrite !elem_of_cons; tauto. }
  split; [done|]. split; [done|].
  eexists. split; [apply generate_itinerary_ok|]. simpl. unfold planned_items.
  rewrite !Forall_app. split; [|split].
  - by repeat constructor.
  - apply Forall_concat, Forall_fmap, Forall_forall. intros d _. simpl.
    unfold day_block. apply Forall_fmap, Forall_forall. intros i _. simpl.
    pose proof (slot_item_time d prefs i) as H. intros Hflex. rewrite Hflex in H.
    rewrite !elem_of_cons, elem_of_nil in H.
    by destruct H as [H | [H | [H | []]]].
  - destruct (2 <? trip_days prefs); by repeat constructor.
Qed.

(** ** Dictionaries and positions *)

Lemma dict_lookup_set {V : Type} (d : list (string * V)) (k k' : string) (v : V) :
  dict_lookup (dict_set d k v) k' = if String.eqb k k' then Some v else dict_lookup d k'.
Proof.
  induction d as [|[k0 v0] d IH]; simpl.
  - by destruct (String.eqb k k').
  - destruct (String.eqb k0 k) eqn:E0; simpl.
    + apply String.eqb_eq in E0. subst k0. by destruct (String.eqb k k').
    + rewrite IH. destruct (String.eqb k0 k') eqn:E1; [|done].
      apply String.eqb_eq in E1. subst k0. by rewrite String.eqb_sym, E0.
Qed.

Lemma dict_lookup_pop {V : Type} (d : list (string * V)) (k k' : string) :
  dict_lookup (dict_pop d k) k' = if String.eqb k k' then None else dict_lookup d k'.
Proof.
  induction d as [|[k0 v0] d IH]; simpl.
  - by destruct (String.eqb k k').
  - destruct (String.eqb k0 k) eqn:E0; simpl.
    + apply String.eqb_eq in E0. subst k0. rewrite IH. by destruct (String.eqb k k').
    + rewrite IH. destruct (String.eqb k0 k') eqn:E1; [|done].
      apply String.eqb_eq in E1. subst k0. by rewrite String.eqb_sym, E0.
Qed.

Lemma dict_lookup_map {V W : Type} (f : V -> W) (d : list (string * V)) (k : string) :
  dict_lookup (map (fun kv => (kv.1, f kv.2)) d) k = f <$> dict_lookup d k.
Proof.
  induction d as [|[k0 v0] d IH]; simpl; [done|].
  by destruct (String.eqb k0 k).
Qed.

Lemma dict_lookup_None {V : Type} (d : list (string * V)) (k : string) :
  dict_lookup d k = None <-> k ∉ map fst d.
Proof.
  induction d as [|[k0 v0] d IH]; simpl.
  - split; [intros _; apply not_elem_of_nil | done].
  - rewrite not_elem_of_cons. destruct (String.eqb k0 k) eqn:E.
    + apply String.eqb_eq in E. subst. split; [done | intros [? _]; done].
    + apply String.eqb_neq in E. rewrite IH. split; [intros ?; split; congruence | tauto].
Qed.

Lemma dict_set_keys {V : Type} (d : list (string * V)) (k : string) (v : V) :
  map fst (dict_set d k v) = if dict_mem d k then map fst d else (map fst d ++ [k])%list.
Proof.
  unfold dict_mem. induction d as [|[k0 v0] d IH]; simpl; [done|].
  destruct (String.eqb k0 k) eqn:E; simpl; [done|].
  rewrite IH. by destruct (dict_lookup d k).
Qed.

Lemma dict_set_NoDup {V : Type} (d : list (string * V)) (k : string) (v : V) :
  NoDup (map fst d) -> NoDup (map fst (dict_set d k v)).
Proof.
  intros Hnd. rewrite dict_set_keys. unfold dict_mem.
  destruct (dict_lookup d k) eqn:E; [done|].
  apply dict_lookup_None in E.
  apply NoDup_app. split; [done|]. split.
  - intros x Hx Hk. apply list_elem_of_singleton in Hk. by subst.
  - apply NoDup_singleton.
Qed.

Lemma dict_pop_keys {V : Type} (d : list (string * V)) (k x : string) :
  x ∈ map fst (dict_pop d k) -> x ∈ map fst d.
Proof.
  induction d as [|[k0 v0] d IH]; simpl; [done|].
  destruct (String.eqb k0 k); simpl.
  - intros H. right. by apply IH.
  - rewrite !elem_of_cons. intros [-> | H]; [by left | right; by apply IH].
Qed.

Lemma dict_pop_NoDup {V : Type} (d : list (string * V)) (k : string) :
  NoDup (map fst d) -> NoDup (map fst (dict_pop d k)).
Proof.
  induction d as [|[k0 v0] d IH]; simpl; [done|].
  rewrite NoDup_cons. intros [Hn Hnd].
  destruct (String.eqb k0 k); simpl; [by apply IH|].
  apply NoDup_cons. split; [|by apply IH].
  intros Hin. apply Hn. by eapply dict_pop_keys.
Qed.

Lemma dict_set_fresh {V : Type} (pre rest : list (string * V)) (k : string) (v0 v : V) :
  k ∉ map fst pre ->
  dict_set (pre ++ (k, v0) :: rest) k v = (pre ++ (k, v) :: rest)%list.
Proof.
  induction pre as [|[k1 v1] pre IH]; simpl; intros Hk.
  - by rewrite String.eqb_refl.
  - apply not_elem_of_cons in Hk as [Hne Hk].
    apply not_eq_sym, String.eqb_neq in Hne. rewrite Hne. by rewrite IH.
Qed.

Lemma top_item_keys (d : document) : map fst (map top_item d) = map fst d.
Proof.
  rewrite map_map. apply map_ext. intros [k v]. by destruct v.
Qed.

Lemma convert_top_map (d : document) :
  NoDup (map fst d) -> convert_top d = map top_item d.
Proof.
  intros Hnd. unfold convert_top.
  assert (H : forall rest pre,
             NoDup (map fst (pre ++ rest)) ->
             fold_left
               (fun d kv => match kv.2 with
                            | VDatetime t => dict_set d kv.1 (VStr (isoformat t))
                            | _ => d
                            end)
               rest (map top_item pre ++ rest)%list
             = map top_item (pre ++ rest)).
  { induction rest as [|[k v] rest IH]; intros pre Hpre; simpl.
    - by rewrite !app_nil_r.
    - replace (pre ++ (k, v) :: rest)%list with ((pre ++ [(k, v)]) ++ rest)%list in *
        by (by rewrite <- app_assoc).
      rewrite <- IH by done.
      f_equal. rewrite map_app. simpl. rewrite <- app_assoc. simpl.
      assert (Hk : k ∉ map fst (map top_item pre)).
      { rewrite top_item_keys.
        rewrite !map_app, <- app_assoc in Hpre. apply NoDup_app in Hpre as (_ & Hdis & _).
        intros Hin. apply (Hdis k Hin). simpl. left. }
      destruct v; unfold top_item at 2; simpl; try done.
      by apply dict_set_fresh. }
  apply (H d []). done.
Qed.

Lemma convert_nested_top_item (kv : string * value) :
  convert_nested (top_item kv).2 = convert_nested kv.2 /\ (top_item kv).1 = kv.1.
Proof. destruct kv as [k []]; done. Qed.

Lemma convert_after_top (d : document) :
  map (fun kv => (kv.1, convert_nested kv.2)) (map top_item d)
  = map (fun kv => (kv.1, convert_nested kv.2)) d.
Proof.
  rewrite map_map. apply map_ext. intros kv.
  destruct (convert_nested_top_item kv) as [-> ->]. done.
Qed.

Lemma value_at_convert (v : value) (path : list step) :
  value_at (convert_nested v) path = convert_nested <$> value_at v path.
Proof.
  revert path. induction v as [| | | | | |xs IH|kvs IH] using value_nested_ind;
    intros [|[k|i] path]; simpl; try done.
  - rewrite list_lookup_fmap. destruct (xs !! i) as [x|] eqn:E; simpl; [|done].
    rewrite Forall_forall in IH. apply IH. by eapply list_elem_of_lookup_2.
  - rewrite dict_lookup_map. destruct (dict_lookup kvs k) as [x|] eqn:E; simpl; [|done].
    rewrite Forall_forall in IH.
    assert (Hin : exists kv, kv ∈ kvs /\ kv.2 = x).
    { clear -E. induction kvs as [|[k0 v0] kvs IHk]; simpl in E; [done|].
      destruct (String.eqb k0 k).
      - injection E as <-. exists (k0, v0). split; [left | done].
      - destruct (IHk E) as (kv & Hin & Hx). exists kv. split; [by right | done]. }
    destruct Hin as (kv & Hin & <-). by apply (IH kv).
Qed.

Lemma convert_nested_image (v : value) : json_image v (convert_nested v).
Proof.
  destruct v; simpl; try done.
  - eexists. split; [done|]. by rewrite length_map.
  - eexists. split; [done|]. rewrite map_map. by apply map_ext.
Qed.

Lemma convert_nested_no_datetime (v : value) (path : list step) (t : datetime) :
  value_at (convert_nested v) path <> Some (VDatetime t).
Proof.
  rewrite value_at_convert. destruct (value_at v path) as [[]|]; simpl; congruence.
Qed.

(** ** The serializer *)

Lemma rename_id_NoDup (str_of : value -> string) (doc : document) :
  NoDup (map fst doc) -> NoDup (map fst (rename_id str_of doc)).
Proof.
  intros H. unfold rename_id. destruct (dict_lookup doc "_id"); [|done].
  by apply dict_set_NoDup, dict_pop_NoDup.
Qed.

Lemma serialize_doc_eq (str_of : value -> string) (doc : document) :
  NoDup (map fst doc) ->
  serialize_doc str_of (Some doc)
  = Some (map (fun kv => (kv.1, convert_nested kv.2)) (rename_id str_of doc)).
Proof.
  intros Hnd. destruct doc as [|kv doc]; [done|].
  unfold serialize_doc. fold (rename_id str_of (kv :: doc)).
  rewrite convert_top_map by by apply rename_id_NoDup.
  simpl convert_nested. by rewrite convert_after_top.
Qed.

(** C7: a falsy input comes back as it is; otherwise the result binds
    "id" to the text of the value that "_id" held and has no "_id"; at
    every position below another key, a date-time has become its ISO text,
    any other scalar is unchanged, and sequences and mappings keep their
    length and keys; no date-time is left at any depth. *)
Theorem serialize_doc_contract (str_of : value -> string) (doc : document) :
  NoDup (map fst doc) ->
  serialize_doc str_of None = None /\
  serialize_doc str_of (Some []) = Some [] /\
  exists out,
    serialize_doc str_of (Some doc) = Some out /\
    (forall v, dict_lookup doc "_id" = Some v ->
       dict_lookup out "id" = Some (VStr (str_of v)) /\ dict_lookup out "_id" = None) /\
    (forall k path v,
       k <> "_id" -> (k = "id" -> dict_lookup doc "_id" = None) ->
       value_at (VDict doc) (Key k :: path) = Some v ->
       exists v', value_at (VDict out) (Key k :: path) = Some v' /\ json_image v v') /\
    (forall path t, value_at (VDict out) path <> Some (VDatetime t)).
Proof.
  intros Hnd. split; [done|]. split; [done|].
  eexists. split; [by apply serialize_doc_eq|].
  split; [|split].
  - intros v Hid. rewrite !dict_lookup_map. unfold rename_id. rewrite Hid.
    rewrite !dict_lookup_set, !dict_lookup_pop. split; reflexivity.
  - intros k path v Hk Hid Hat. simpl in Hat |- *.
    rewrite dict_lookup_map.
    assert (Hsame : dict_lookup (rename_id str_of doc) k = dict_lookup doc k).
    { unfold rename_id. destruct (dict_lookup doc "_id") eqn:E; [|done].
      rewrite dict_lookup_set, dict_lookup_pop.
      destruct (String.eqb "id" k) eqn:E1.
      - apply String.eqb_eq in E1. subst k. by specialize (Hid eq_refl).
      - destruct (String.eqb "_id" k) eqn:E2; [|done].
        apply String.eqb_eq in E2. by subst k. }
    rewrite Hsame. destruct (dict_lookup doc k) as [x|]; simpl in Hat |- *; [|done].
    rewrite value_at_convert, Hat. simpl.
    eexists. split; [done|]. apply convert_nested_image.
  - intros path t.
    change (VDict (map (fun kv => (kv.1, convert_nested kv.2)) (rename_id str_of doc)))
      with (convert_nested (VDict (rename_id str_of doc))).
    apply convert_nested_no_datetime.
Qed.

Lemma serialize_doc_contract_witness :
  exists out,
    serialize_doc str_plain (Some sample_doc) = Some out /\
    dict_lookup out "id" = Some (VStr "665a1f0c2b3c4d5e6f708192") /\
    dict_lookup out "_id" = None /\
    value_at (VDict out) [Key "log"; Index 0; Key "at"] = Some (VStr "2024-06-01T09:05:00") /\
    value_at (VDict out) [Key "log"; Index 0; Key "n"] = Some (VInt 2).
Proof.
  assert (Hnd : NoDup (map fst sample_doc)).
  { apply NoDup_ListNoDup. vm_compute. repeat constructor; simpl; intuition discriminate. }
  destruct (serialize_doc_contract str_plain sample_doc Hnd)
    as (_ & _ & out & Hout & Hid & Hpos & _).
  exists out. split; [exact Hout|].
  destruct (Hid _ eq_refl) as [Hid1 Hid2].
  split; [exact Hid1|]. split; [exact Hid2|].
  rewrite serialize_doc_eq in Hout by exact Hnd. injection Hout as <-.
  split; reflexivity.
Defined.

(** ** The get-by-id route *)

(** C1 as the specification states it does not hold: a malformed
    identifier is answered with status 500, not 404. *)
Lemma get_itinerary_malformed_not_404 :
  ObjectId "not-an-id" = Raise (InvalidId "not-an-id") /\
  get_itinerary str_plain exn_text_plain (Ok empty_store) "not-an-id"
  = Raise (HTTPException 500
      "'not-an-id' is not a valid ObjectId, it must be a 12-byte input or a 24-character hex string") /\
  response_status (get_itinerary str_plain exn_text_plain (Ok empty_store) "not-an-id") <> 404.
Proof. split; [reflexivity|]. split; [reflexivity|]. vm_compute. discriminate. Qed.

(** C1, amended: the route never lets an exception other than an
    [HTTPException] escape, and an identifier that [ObjectId] rejects is
    answered with status 500: with the text of the rejection when the
    collection was reached, and with the text of the failure to reach it
    otherwise (that failure comes first). *)
Theorem get_itinerary_malformed_is_500
    (str_of : value -> string) (exn_text : exn -> string)
    (find_one : result (string -> result (option document)))
    (itinerary_id : string) (e : exn) :
  ObjectId itinerary_id = Raise e ->
  (forall query, find_one = Ok query ->
     get_itinerary str_of exn_text find_one itinerary_id
     = Raise (HTTPException 500 (exn_text e))) /\
  (forall e', find_one = Raise e' ->
     get_itinerary str_of exn_text find_one itinerary_id
     = Raise (HTTPException 500 (exn_text e'))) /\
  response_status (get_itinerary str_of exn_text find_one itinerary_id) = 500 /\
  forall other_id,
    (exists doc, get_itinerary str_of exn_text find_one other_id = Ok doc) \/
    (exists status detail,
        get_itinerary str_of exn_text find_one other_id
        = Raise (HTTPException status detail)).
Proof.
  intros Hbad. unfold get_itinerary.
  split; [|split; [|split]].
  - intros query ->. by rewrite bind_Ok, Hbad.
  - by intros e' ->.
  - destruct find_one as [query|e']; [|done]. by rewrite bind_Ok, Hbad.
  - intros other. unfold try_except.
    match goal with |- context [match ?body with Ok _ => _ | Raise _ => _ end] =>
      destruct body end; eauto.
Qed.

Lemma get_itinerary_malformed_is_500_witness :
  get_itinerary str_plain exn_text_plain (Ok empty_store) "not-an-id"
  = Raise (HTTPException 500 (exn_text_plain (InvalidId "not-an-id"))) /\
  get_itinerary str_plain exn_text_plain no_database "not-an-id"
  = Raise (HTTPException 500 "'NoneType' object is not subscriptable") /\
  response_status (get_itinerary str_plain exn_text_plain (Ok empty_store) "not-an-id") = 500 /\
  response_status (get_itinerary str_plain exn_text_plain no_database "not-an-id") = 500.
Proof.
  destruct (get_itinerary_malformed_is_500 str_plain exn_text_plain (Ok empty_store)
              "not-an-id" (InvalidId "not-an-id") eq_refl) as (H1 & _ & H2 & _).
  destruct (get_itinerary_malformed_is_500 str_plain exn_text_plain no_database
              "not-an-id" (InvalidId "not-an-id") eq_refl) as (_ & H3 & H4 & _).
  split; [exact (H1 empty_store eq_refl)|].
  split; [exact (H3 _ eq_refl)|].
  split; [exact H2 | exact H4].
Defined.

(** A well-formed identifier that the store does not hold: the 404 that
    the route raises is caught by its own handler and answered as 500. *)
Lemma get_itinerary_unknown_is_500 :
  ObjectId "665a1f0c2b3c4d5e6f708192" = Ok "665a1f0c2b3c4d5e6f708192" /\
  get_itinerary str_plain exn_text_plain (Ok empty_store) "665a1f0c2b3c4d5e6f708192"
  = Raise (HTTPException 500 "404: Itinerary not found").
Proof. split; reflexivity. Qed.

(** A held document is returned serialized. *)
Lemma get_itinerary_found :
  get_itinerary str_plain exn_text_plain (Ok (store_find_one [sample_doc]))
    "665A1F0C2B3C4D5E6F708192"
  = Ok (serialize_doc str_plain (Some sample_doc)).
Proof. reflexivity. Qed.

(** ** The serializer on shared objects *)

Module StoreFacts.
Import Store.

Lemma keeps_ret {A : Type} (h0 : gmap loc obj) (a : A) : keeps h0 (ret a).
Proof. by intros h Hh. Qed.

Lemma keeps_raise {A : Type} (h0 : gmap loc obj) (e : exn) : keeps h0 (@raise A e).
Proof. by intros h Hh. Qed.

Lemma keeps_bind_post {A B : Type} (h0 : gmap loc obj) (post : A -> Prop)
    (m : M A) (f : A -> M B) :
  keeps h0 m ->
  (forall h a, h0 ⊆ h -> (m h).1 = Ok a -> post a) ->
  (forall a, post a -> keeps h0 (f a)) ->
  keeps h0 (bind m f).
Proof.
  intros Hm Hpost Hf h Hh. unfold bind.
  specialize (Hm h Hh). specialize (Hpost h).
  destruct (m h) as [[a|e] h']; simpl in *; [|done].
  apply Hf; [by apply Hpost | done].
Qed.

Lemma keeps_bind {A B : Type} (h0 : gmap loc obj) (m : M A) (f : A -> M B) :
  keeps h0 m -> (forall a, keeps h0 (f a)) -> keeps h0 (bind m f).
Proof.
  intros Hm Hf. apply (keeps_bind_post h0 (fun _ => True)); auto.
Qed.

Lemma keeps_load (h0 : gmap loc obj) (l : loc) : keeps h0 (load l).
Proof. intros h Hh. unfold load. by destruct (h !! l). Qed.

Lemma keeps_load_dict (h0 : gmap loc obj) (l : loc) : keeps h0 (load_dict l).
Proof.
  apply keeps_bind; [apply keeps_load|].
  intros [xs|items]; [apply keeps_raise | apply keeps_ret].
Qed.

Lemma fresh_unused (h0 h : gmap loc obj) : h0 ⊆ h -> h0 !! fresh (dom h) = None.
Proof.
  intros Hh. apply not_elem_of_dom. intros Hin.
  apply (is_fresh (dom h)). by apply (subseteq_dom h0 h Hh).
Qed.

Lemma keeps_alloc (h0 : gmap loc obj) (o : obj) : keeps h0 (alloc o).
Proof.
  intros h Hh. unfold alloc. simpl.
  apply insert_subseteq_r; [by apply fresh_unused | done].
Qed.

Lemma alloc_unused (h0 h : gmap loc obj) (o : obj) (l : loc) :
  h0 ⊆ h -> (alloc o h).1 = Ok l -> h0 !! l = None.
Proof. unfold alloc. simpl. intros Hh [= <-]. by apply fresh_unused. Qed.

(** An update in place is harmless when it is to an object that is not
    one of [h0]. *)
Lemma keeps_store (h0 : gmap loc obj) (l : loc) (o : obj) :
  h0 !! l = None -> keeps h0 (store l o).
Proof. intros Hl h Hh. unfold store. simpl. by apply insert_subseteq_r. Qed.

Lemma keeps_map_each {A B : Type} (h0 : gmap loc obj) (f : A -> M B) (xs : list A) :
  (forall x, keeps h0 (f x)) -> keeps h0 (map_each f xs).
Proof.
  intros Hf. induction xs as [|x xs IH]; simpl; [apply keeps_ret|].
  apply keeps_bind; [apply Hf|]. intros y.
  apply keeps_bind; [apply IH|]. intros ys. apply keeps_ret.
Qed.

Lemma keeps_each {A : Type} (h0 : gmap loc obj) (body : A -> M unit) (xs : list A) :
  (forall x, keeps h0 (body x)) -> keeps h0 (each body xs).
Proof.
  intros Hb. induction xs as [|x xs IH]; simpl; [apply keeps_ret|].
  apply keeps_bind; [apply Hb | intros _; apply IH].
Qed.

Lemma keeps_truthy (h0 : gmap loc obj) (x : hvalue) : keeps h0 (truthy x).
Proof.
  destruct x; simpl; try apply keeps_ret.
  apply keeps_bind; [apply keeps_load | intros o; apply keeps_ret].
Qed.

Lemma keeps_convert_nested (h0 : gmap loc obj) (fuel : nat) (x : hvalue) :
  keeps h0 (convert_nested fuel x).
Proof.
  revert x. induction fuel as [|fuel IH]; intros x; simpl; [apply keeps_raise|].
  destruct x; try apply keeps_ret.
  apply keeps_bind; [apply keeps_load|]. intros [xs|items].
  - apply keeps_bind; [by apply keeps_map_each|]. intros ys.
    apply keeps_bind; [apply keeps_alloc | intros l'; apply keeps_ret].
  - apply keeps_bind.
    + apply keeps_map_each. intros kv.
      apply keeps_bind; [apply IH | intros v; apply keeps_ret].
    + intros items'.
      apply keeps_bind; [apply keeps_alloc | intros l'; apply keeps_ret].
Qed.

Lemma keeps_serialize_doc (str_of : gmap loc obj -> hvalue -> string)
    (h0 : gmap loc obj) (fuel : nat) (doc : hvalue) :
  keeps h0 (serialize_doc str_of fuel doc).
Proof.
  unfold serialize_doc.
  apply keeps_bind; [apply keeps_truthy|]. intros t.
  destruct (negb t); [apply keeps_ret|].
  destruct doc; try apply keeps_raise.
  apply keeps_bind; [apply keeps_load_dict|]. intros items.
  apply (keeps_bind_post h0 (fun d => h0 !! d = None)).
  { apply keeps_alloc. }
  { intros h d Hh Hd. by eapply alloc_unused. }
  intros d Hd.
  apply keeps_bind.
  { destruct (dict_mem items "_id"); [|apply keeps_ret].
    apply keeps_bind; [apply keeps_load_dict|]. intros cur.
    destruct (dict_lookup cur "_id") as [v|]; [|apply keeps_raise].
    apply keeps_bind; [by apply keeps_store|]. intros _.
    apply keeps_bind; [by intros h Hh|]. intros s.
    apply keeps_bind; [apply keeps_load_dict|]. intros cur'.
    by apply keeps_store. }
  intros _.
  apply keeps_bind; [apply keeps_load_dict|]. intros snapshot.
  apply keeps_bind.
  { apply keeps_each. intros [k v]. destruct v; simpl; try apply keeps_ret.
    apply keeps_bind; [apply keeps_load_dict|]. intros cur.
    by apply keeps_store. }
  intros _. apply keeps_convert_nested.
Qed.

(** What a reference stands for does not change when the store grows. *)
Lemma reify_mono (h h' : gmap loc obj) (fuel : nat) (x : hvalue) (v : value) :
  h ⊆ h' -> reify h fuel x = Some v -> reify h' fuel x = Some v.
Proof.
  intros Hh. revert x v. induction fuel as [|fuel IH]; intros x v; destruct x; simpl; try done.
  destruct (h !! l) as [o|] eqn:El; [|done].
  rewrite (lookup_weaken _ _ _ _ El Hh).
  destruct o as [xs|items]; intros Hv.
  - apply fmap_Some in Hv as (vs & Hvs & ->).
    apply fmap_Some. exists vs. split; [|done].
    apply mapM_Some in Hvs. apply mapM_Some.
    eapply Forall2_impl; [exact Hvs|]. simpl. intros a b. apply IH.
  - apply fmap_Some in Hv as (vs & Hvs & ->).
    apply fmap_Some. exists vs. split; [|done].
    apply mapM_Some in Hvs. apply mapM_Some.
    eapply Forall2_impl; [exact Hvs|]. simpl. intros [k a] [k' b] Hb. simpl in *.
    destruct (reify h fuel a) as [va|] eqn:Ea; [|done].
    by rewrite (IH _ _ Ea).
Qed.

End StoreFacts.

(** C8: whatever the outcome of a run of the serializer (a result or an
    exception), every object the store held before the call is in the
    store afterwards with the same content, and the tree the caller's
    argument stands for, nested lists and dicts included, is the tree it
    stood for before. *)
Theorem serialize_doc_keeps_argument
    (str_of : gmap Store.loc Store.obj -> Store.hvalue -> string)
    (fuel : nat) (doc : Store.hvalue) (h : gmap Store.loc Store.obj) :
  let h' := (Store.serialize_doc str_of fuel doc h).2 in
  h ⊆ h' /\
  (forall l o, h !! l = Some o -> h' !! l = Some o) /\
  (forall depth v, Store.reify h depth doc = Some v -> Store.reify h' depth doc = Some v).
Proof.
  intros h'.
  assert (Hsub : h ⊆ h') by (by apply StoreFacts.keeps_serialize_doc).
  split; [done|]. split.
  - intros l o Hl. by eapply lookup_weaken.
  - intros depth v. by apply StoreFacts.reify_mono.
Qed.

Lemma serialize_doc_keeps_argument_witness :
  let run := Store.serialize_doc str_atom 3 (Store.HRef 2%positive) shared_store in
  (exists r,
      run.1 = Ok r /\
      Store.reify run.2 3 r
      = Some (VDict [("a", VList [VStr "2024-06-01T09:05:00"; VInt 7]);
                     ("b", VList [VStr "2024-06-01T09:05:00"; VInt 7]);
                     ("when", VStr "2024-06-01T09:05:00");
                     ("id", VStr "665a1f0c2b3c4d5e6f708192")])) /\
  run.2 !! 1%positive = Some (Store.OList [Store.HDatetime sample_created; Store.HInt 7]) /\
  Store.reify shared_store 3 (Store.HRef 2%positive) = Some shared_tree /\
  Store.reify run.2 3 (Store.HRef 2%positive) = Some shared_tree.
Proof.
  intros run. subst run.
  destruct (serialize_doc_keeps_argument str_atom 3 (Store.HRef 2%positive) shared_store)
    as (_ & Hobj & Htree).
  split; [eexists; split; by vm_compute|].
  split; [by apply Hobj|].
  split; [reflexivity|].
  by apply Htree.
Defined.

(** ** The store model against the tree model

    On a document that is a tree in the store, the serializer on shared
    objects returns, given fuel for the depth of the document, and its
    result stands for the tree the serializer on trees computes. *)

Lemma reify_items (h : gmap Store.loc Store.obj) (n : nat)
    (items : list (string * Store.hvalue)) (d : document) :
  mapM (fun kv => v ← Store.reify h n kv.2; Some (kv.1, v)) items = Some d
  <-> Forall2 (item_rel h n) items d.
Proof.
  rewrite mapM_Some. split; intros H; (eapply Forall2_impl; [exact H|]); simpl.
  - intros [k x] [k' v] Hx. simpl in *. unfold item_rel. simpl.
    destruct (Store.reify h n x); simplify_eq/=. done.
  - intros [k x] [k' v] [Hk Hx]. simpl in *. subst. by rewrite Hx.
Qed.

Lemma item_rel_mono (h h' : gmap Store.loc Store.obj) (n : nat) kv kv' :
  h ⊆ h' -> item_rel h n kv kv' -> item_rel h' n kv kv'.
Proof. intros Hh [Hk Hx]. split; [done|]. by eapply StoreFacts.reify_mono. Qed.

Lemma run_bind {A B : Type} (m : Store.M A) (f : A -> Store.M B)
    (h h' : gmap Store.loc Store.obj) (a : A) :
  m h = (Ok a, h') -> Store.bind m f h = f a h'.
Proof. intros H. unfold Store.bind. by rewrite H. Qed.

Lemma map_each_refines {A B A' B' : Type} (f : A -> Store.M B) (g : A' -> B')
    (R : gmap Store.loc Store.obj -> A -> A' -> Prop)
    (Q : gmap Store.loc Store.obj -> B -> B' -> Prop) :
  (forall h h' a a', h ⊆ h' -> R h a a' -> R h' a a') ->
  (forall h h' b b', h ⊆ h' -> Q h b b' -> Q h' b b') ->
  (forall a a' h, R h a a' -> exists b h', f a h = (Ok b, h') /\ h ⊆ h' /\ Q h' b (g a')) ->
  forall xs xs' h,
    Forall2 (R h) xs xs' ->
    exists ys h',
      Store.map_each f xs h = (Ok ys, h') /\ h ⊆ h' /\ Forall2 (Q h') ys (map g xs').
Proof.
  intros HR HQ Hf xs. induction xs as [|x xs IH]; intros xs' h H.
  - apply Forall2_nil_inv_l in H as ->. exists [], h. simpl. eauto.
  - apply Forall2_cons_inv_l in H as (x' & xs'' & Hx & Hxs & ->).
    destruct (Hf x x' h Hx) as (y & h1 & Hrun & Hsub & Hy).
    assert (Hxs1 : Forall2 (R h1) xs xs'').
    { eapply Forall2_impl; [exact Hxs|]. intros a b. by apply HR. }
    destruct (IH xs'' h1 Hxs1) as (ys & h2 & Hrun' & Hsub' & Hys).
    exists (y :: ys), h2. split; [|split].
    + simpl. rewrite (run_bind _ _ _ _ _ Hrun), (run_bind _ _ _ _ _ Hrun'). done.
    + by etrans.
    + simpl. constructor; [by eapply HQ | done].
Qed.

Lemma alloc_grows (h : gmap Store.loc Store.obj) (o : Store.obj) : h ⊆ <[fresh (dom h) := o]> h.
Proof. apply insert_subseteq, not_elem_of_dom, is_fresh. Qed.

Lemma convert_nested_refines (n : nat) :
  forall (x : Store.hvalue) (v : value) (h : gmap Store.loc Store.obj) (fuel : nat),
    Store.reify h n x = Some v -> (n < fuel)%nat ->
    exists r h',
      Store.convert_nested fuel x h = (Ok r, h') /\
      h ⊆ h' /\
      Store.reify h' n r = Some (convert_nested v).
Proof.
  induction n as [|n IH]; intros x v h fuel Hx Hfuel;
    (destruct fuel as [|fuel]; [lia|]).
  - destruct x; simpl in Hx; simplify_eq; simpl; eauto.
  - destruct x; simpl in Hx; simplify_eq; simpl; eauto.
    destruct (h !! l) as [[xs|items]|] eqn:El; [| |done].
    + apply fmap_Some in Hx as (vs & Hvs & ->). apply mapM_Some in Hvs.
      destruct (map_each_refines (Store.convert_nested fuel) convert_nested
                  (fun h x v => Store.reify h n x = Some v)
                  (fun h x v => Store.reify h n x = Some v)) with (xs := xs) (xs' := vs) (h := h)
        as (ys & h2 & Hrun & Hsub & Hys); try done.
      { intros h1 h2 a b. apply StoreFacts.reify_mono. }
      { intros h1 h2 a b. apply StoreFacts.reify_mono. }
      { intros a b h1 Ha. apply IH; [done | lia]. }
      eexists _, _. split; [|split].
      * unfold Store.bind at 1. unfold Store.load. rewrite El.
        rewrite (run_bind _ _ _ _ _ Hrun). reflexivity.
      * etrans; [exact Hsub | apply alloc_grows].
      * simpl. rewrite lookup_insert_eq. simpl. apply fmap_Some.
        eexists. split; [|done]. apply mapM_Some.
        eapply Forall2_impl; [exact Hys|]. intros a b. apply StoreFacts.reify_mono, alloc_grows.
    + apply fmap_Some in Hx as (d & Hd & ->). apply reify_items in Hd.
      destruct (map_each_refines
                  (fun kv => Store.bind (Store.convert_nested fuel kv.2) (fun v => Store.ret (kv.1, v)))
                  (fun kv : string * value => (kv.1, convert_nested kv.2))
                  (fun h => item_rel h n) (fun h => item_rel h n))
        with (xs := items) (xs' := d) (h := h)
        as (items' & h2 & Hrun & Hsub & Hys); try done.
      { intros h1 h2 a b. apply item_rel_mono. }
      { intros h1 h2 a b. apply item_rel_mono. }
      { intros [k a] [k' b] h1 [Hk Ha]. simpl in *. subst k'.
        destruct (IH a b h1 fuel Ha ltac:(lia)) as (r & h2 & Hrun & Hsub & Hr).
        exists (k, r), h2. split; [|split; [done|]].
        - by rewrite (run_bind _ _ _ _ _ Hrun).
        - by split. }
      eexists _, _. split; [|split].
      * unfold Store.bind at 1. unfold Store.load. rewrite El.
        rewrite (run_bind _ _ _ _ _ Hrun). reflexivity.
      * etrans; [exact Hsub | apply alloc_grows].
      * simpl. rewrite lookup_insert_eq. simpl. apply fmap_Some.
        eexists. split; [|done]. apply reify_items.
        eapply Forall2_impl; [exact Hys|]. intros a b. apply item_rel_mono, alloc_grows.
Qed.

Lemma run_load_dict (h : gmap Store.loc Store.obj) (l : Store.loc)
    (items : list (string * Store.hvalue)) :
  h !! l = Some (Store.ODict items) -> Store.load_dict l h = (Ok items, h).
Proof. intros H. unfold Store.load_dict, Store.bind, Store.load. by rewrite H. Qed.

Lemma items_rel_lookup {X Y : Type} (R : X -> Y -> Prop)
    (items : list (string * X)) (d : list (string * Y)) (k : string) :
  items_rel R items d ->
  match dict_lookup items k, dict_lookup d k with
  | Some x, Some y => R x y
  | None, None => True
  | _, _ => False
  end.
Proof.
  induction 1 as [|[k1 x] [k2 y] items d [Hk Hxy] _ IH]; simpl in *; [done|].
  subst k2. by destruct (String.eqb k1 k).
Qed.

Lemma items_rel_pop {X Y : Type} (R : X -> Y -> Prop)
    (items : list (string * X)) (d : list (string * Y)) (k : string) :
  items_rel R items d -> items_rel R (dict_pop items k) (dict_pop d k).
Proof.
  induction 1 as [|[k1 x] [k2 y] items d [Hk Hxy] _ IH]; simpl in *; [constructor|].
  subst k2. destruct (String.eqb k1 k); [done|]. by constructor.
Qed.

Lemma items_rel_set {X Y : Type} (R : X -> Y -> Prop)
    (items : list (string * X)) (d : list (string * Y)) (k : string) (x : X) (y : Y) :
  items_rel R items d -> R x y -> items_rel R (dict_set items k x) (dict_set d k y).
Proof.
  intros H Hxy. induction H as [|[k1 x1] [k2 y1] items d [Hk H1] Hrest IH]; simpl in *.
  - by repeat constructor.
  - subst k2. destruct (String.eqb k1 k); by constructor.
Qed.

Lemma reify_datetime (h : gmap Store.loc Store.obj) (n : nat) (x : Store.hvalue) (v : value) :
  Store.reify h n x = Some v ->
  match x, v with
  | Store.HDatetime t, VDatetime t' => t = t'
  | Store.HDatetime _, _ | _, VDatetime _ => False
  | _, _ => True
  end.
Proof.
  destruct n, x; simpl; intros H; simplify_eq; try done.
  destruct (h !! l) as [[|]|]; [| |done];
    apply fmap_Some in H as (? & _ & ->); done.
Qed.

(** [str] on the store is assumed to agree with [str] on trees. *)
Section Refinement.

Variable str_of : gmap Store.loc Store.obj -> Store.hvalue -> string.
Variable str_pure : value -> string.
Variable n : nat.
Hypothesis str_agree :
  forall h x v, Store.reify h n x = Some v -> str_of h x = str_pure v.

Lemma top_loop_refines (h : gmap Store.loc Store.obj) (dl : Store.loc) :
  h !! dl = None ->
  forall snap psnap cur pcur,
    items_rel (fun x v => Store.reify h n x = Some v) snap psnap ->
    items_rel (fun x v => Store.reify h n x = Some v) cur pcur ->
    exists cur',
      Store.each (fun kv =>
              match kv.2 with
              | Store.HDatetime t =>
                  Store.bind (Store.load_dict dl) (fun c =>
                  Store.store dl (Store.ODict (dict_set c kv.1 (Store.HStr (isoformat t)))))
              | _ => Store.ret tt
              end) snap (<[dl := Store.ODict cur]> h)
      = (Ok tt, <[dl := Store.ODict cur']> h) /\
      items_rel (fun x v => Store.reify h n x = Some v) cur'
        (fold_left
           (fun d kv => match kv.2 with
                        | VDatetime t => dict_set d kv.1 (VStr (isoformat t))
                        | _ => d
                        end) psnap pcur).
Proof.
  intros Hdl snap. induction snap as [|[k x] snap IH]; intros psnap cur pcur Hs Hc.
  - apply Forall2_nil_inv_l in Hs as ->. exists cur. by simpl.
  - apply Forall2_cons_inv_l in Hs as ([k' v] & psnap' & [Hk Hx] & Hs' & ->).
    simpl in Hk, Hx. subst k'. simpl.
    pose proof (reify_datetime _ _ _ _ Hx) as Hdt.
    assert (Hskip : forall (c : list (string * Store.hvalue)) pc,
               items_rel (fun x v => Store.reify h n x = Some v) c pc ->
               exists cur',
                 Store.each (fun kv =>
                         match kv.2 with
                         | Store.HDatetime t =>
                             Store.bind (Store.load_dict dl) (fun c =>
                             Store.store dl (Store.ODict (dict_set c kv.1 (Store.HStr (isoformat t)))))
                         | _ => Store.ret tt
                         end) snap (<[dl := Store.ODict c]> h)
                 = (Ok tt, <[dl := Store.ODict cur']> h) /\
                 items_rel (fun x v => Store.reify h n x = Some v) cur'
                   (fold_left
                      (fun d kv => match kv.2 with
                                   | VDatetime t => dict_set d kv.1 (VStr (isoformat t))
                                   | _ => d
                                   end) psnap' pc)) by (intros; by apply IH).
    destruct x; destruct v; try done; try (apply (Hskip cur pcur Hc)).
    subst t0.
    destruct (Hskip (dict_set cur k (Store.HStr (isoformat t)))
                    (dict_set pcur k (VStr (isoformat t)))) as (cur' & Hrun & Hrel).
    { apply items_rel_set; [done | by destruct n]. }
    exists cur'. split; [|done].
    unfold Store.bind at 1. unfold Store.bind at 1.
    rewrite (run_load_dict _ dl cur) by apply lookup_insert_eq.
    unfold Store.store. simpl. rewrite insert_insert_eq. exact Hrun.
Qed.

(** X25: on a dict that stands for the tree [d], with fuel for its depth,
    the run on shared objects returns, and its result stands for what the
    serializer on trees makes of [d]. *)
Theorem serialize_doc_refines (h : gmap Store.loc Store.obj) (l : Store.loc)
    (d : document) (fuel : nat) :
  Store.reify h (S n) (Store.HRef l) = Some (VDict d) ->
  (S n < fuel)%nat ->
  exists r h' out,
    Store.serialize_doc str_of fuel (Store.HRef l) h = (Ok r, h') /\
    serialize_doc str_pure (Some d) = Some out /\
    Store.reify h' (S n) r = Some (VDict out).
Proof.
  intros Hd Hfuel. pose proof Hd as Hd0. simpl in Hd.
  destruct (h !! l) as [[xs|items]|] eqn:El; [| |done].
  { apply fmap_Some in Hd as (? & _ & ?). done. }
  apply fmap_Some in Hd as (d' & Hd & [= <-]). apply reify_items in Hd.
  change (Forall2 (item_rel h n) items d)
    with (items_rel (fun x v => Store.reify h n x = Some v) items d) in Hd.
  unfold Store.serialize_doc.
  assert (Htruthy : Store.truthy (Store.HRef l) h
                    = (Ok (match items with [] => false | _ => true end), h)).
  { unfold Store.truthy, Store.bind, Store.load. rewrite El. by destruct items. }
  rewrite (run_bind _ _ _ _ _ Htruthy).
  destruct items as [|kv items].
  { apply Forall2_nil_inv_l in Hd as ->. simpl.
    exists (Store.HRef l), h, []. split; [done|]. split; [done|]. exact Hd0. }
  destruct d as [|kv' d]; [by apply Forall2_nil_inv_r in Hd|].
  change (negb true) with false. cbv iota.
  rewrite (run_bind _ _ _ _ _ (run_load_dict _ _ _ El)).
  set (items0 := kv :: items) in *. set (d0 := kv' :: d) in *.
  set (dl := fresh (dom h)).
  assert (Hdl : h !! dl = None) by apply not_elem_of_dom, is_fresh.
  assert (Halloc : Store.alloc (Store.ODict items0) h
                   = (Ok dl, <[dl := Store.ODict items0]> h)) by done.
  rewrite (run_bind _ _ _ _ _ Halloc).
  assert (Hgrow : forall cur, h ⊆ <[dl := Store.ODict cur]> h)
    by (intros; by apply insert_subseteq).
  (* the renaming of the identifier *)
  assert (Hrename : exists cur1,
             (if dict_mem items0 "_id"
              then
                Store.bind (Store.load_dict dl) (fun cur =>
                match dict_lookup cur "_id" with
                | Some v =>
                    Store.bind (Store.store dl (Store.ODict (dict_pop cur "_id"))) (fun _ =>
                    Store.bind (Store.str str_of v) (fun s =>
                    Store.bind (Store.load_dict dl) (fun cur' =>
                    Store.store dl (Store.ODict (dict_set cur' "id" (Store.HStr s))))))
                | None => Store.raise (KeyError "_id")
                end)
              else Store.ret tt) (<[dl := Store.ODict items0]> h)
             = (Ok tt, <[dl := Store.ODict cur1]> h) /\
             items_rel (fun x v => Store.reify h n x = Some v) cur1
               (match dict_lookup d0 "_id" with
                | Some v => dict_set (dict_pop d0 "_id") "id" (VStr (str_pure v))
                | None => d0
                end)).
  { pose proof (items_rel_lookup _ items0 d0 "_id" Hd) as Hid.
    unfold dict_mem.
    destruct (dict_lookup items0 "_id") as [x|] eqn:Ex;
      destruct (dict_lookup d0 "_id") as [v|] eqn:Ev; try done.
    - eexists. split.
      + rewrite (run_bind _ _ _ _ _ (run_load_dict _ dl items0 (lookup_insert_eq _ _ _))).
        rewrite Ex. unfold Store.store at 1. unfold Store.bind at 1. rewrite insert_insert_eq.
        unfold Store.str at 1. unfold Store.bind at 1.
        rewrite (run_bind _ _ _ _ _ (run_load_dict _ dl _ (lookup_insert_eq _ _ _))).
        unfold Store.store. rewrite insert_insert_eq. reflexivity.
      + rewrite (str_agree _ x v) by (eapply StoreFacts.reify_mono; [apply Hgrow | done]).
        apply items_rel_set; [by apply items_rel_pop | by destruct n].
    - exists items0. by split. }
  destruct Hrename as (cur1 & Hrun1 & Hrel1).
  rewrite (run_bind _ _ _ _ _ Hrun1).
  rewrite (run_bind _ _ _ _ _ (run_load_dict _ dl cur1 (lookup_insert_eq _ _ _))).
  destruct (top_loop_refines h dl Hdl cur1 _ cur1 _ Hrel1 Hrel1) as (cur2 & Hrun2 & Hrel2).
  rewrite (run_bind _ _ _ _ _ Hrun2).
  fold (rename_id str_pure d0) in Hrel2.
  change (fold_left _ (rename_id str_pure d0) (rename_id str_pure d0))
    with (convert_top (rename_id str_pure d0)) in Hrel2.
  assert (Hreify : Store.reify (<[dl := Store.ODict cur2]> h) (S n) (Store.HRef dl)
                   = Some (VDict (convert_top (rename_id str_pure d0)))).
  { simpl. rewrite lookup_insert_eq. simpl. apply fmap_Some. eexists. split; [|done].
    apply reify_items. eapply Forall2_impl; [exact Hrel2|].
    intros a b [Hk Hx]. split; [done|]. eapply StoreFacts.reify_mono; [apply Hgrow | done]. }
  destruct (convert_nested_refines (S n) _ _ _ fuel Hreify Hfuel) as (r & h' & Hrun3 & _ & Hr).
  exists r, h'. eexists. split; [exact Hrun3|]. split; [|exact Hr].
  reflexivity.
Qed.

End Refinement.

(** ** The generator on shared objects *)

(** *** What a run leaves as it was *)

Lemma keeps_lift {A : Type} (h0 : gmap Store.loc Store.obj) (r : result A) :
  keeps h0 (Objects.lift r).
Proof. by intros h Hh. Qed.

Lemma keeps_attr (h0 : gmap Store.loc Store.obj) (x : Store.hvalue) (name : string) :
  keeps h0 (Objects.attr x name).
Proof.
  destruct x; try apply StoreFacts.keeps_raise. simpl.
  apply StoreFacts.keeps_bind; [apply StoreFacts.keeps_load_dict|]. intros fields.
  destruct (dict_lookup fields name); [apply StoreFacts.keeps_ret | apply StoreFacts.keeps_raise].
Qed.

Lemma keeps_text (h0 : gmap Store.loc Store.obj) (x : Store.hvalue) :
  keeps h0 (Objects.text x).
Proof. destruct x; try apply StoreFacts.keeps_raise. apply StoreFacts.keeps_ret. Qed.

Lemma keeps_attr_text (h0 : gmap Store.loc Store.obj) (x : Store.hvalue) (name : string) :
  keeps h0 (Store.bind (Objects.attr x name) Objects.text).
Proof. apply StoreFacts.keeps_bind; [apply keeps_attr | intros v; apply keeps_text]. Qed.

Lemma keeps_load_list (h0 : gmap Store.loc Store.obj) (x : Store.hvalue) :
  keeps h0 (Objects.load_list x).
Proof.
  destruct x; try apply StoreFacts.keeps_raise. simpl.
  apply StoreFacts.keeps_bind; [apply StoreFacts.keeps_load|].
  intros [xs|items]; [apply StoreFacts.keeps_ret | apply StoreFacts.keeps_raise].
Qed.

Lemma keeps_append (h0 : gmap Store.loc Store.obj) (l : Store.loc) (x : Store.hvalue) :
  h0 !! l = None -> keeps h0 (Objects.append l x).
Proof.
  intros Hl. apply StoreFacts.keeps_bind; [apply keeps_load_list|].
  intros xs. by apply StoreFacts.keeps_store.
Qed.

Lemma keeps_extend (h0 : gmap Store.loc Store.obj) (l : Store.loc) (ys : Store.hvalue) :
  h0 !! l = None -> keeps h0 (Objects.extend l ys).
Proof.
  intros Hl. apply StoreFacts.keeps_bind; [apply keeps_load_list|]. intros new.
  apply StoreFacts.keeps_bind; [apply keeps_load_list|].
  intros xs. by apply StoreFacts.keeps_store.
Qed.

Lemma keeps_new_ItineraryItem (h0 : gmap Store.loc Store.obj) (d : Z)
    (ttl desc cat tod : string) :
  keeps h0 (Objects.new_ItineraryItem d ttl desc cat tod).
Proof.
  apply StoreFacts.keeps_bind; [apply keeps_lift|]. intros item.
  apply StoreFacts.keeps_bind; [apply StoreFacts.keeps_alloc|].
  intros l. apply StoreFacts.keeps_ret.
Qed.

Lemma keeps_alloc_then {A : Type} (h0 : gmap Store.loc Store.obj) (o : Store.obj)
    (f : Store.loc -> Store.M A) :
  (forall l, h0 !! l = None -> keeps h0 (f l)) ->
  keeps h0 (Store.bind (Store.alloc o) f).
Proof.
  intros Hf. apply (StoreFacts.keeps_bind_post h0 (fun l => h0 !! l = None)).
  - apply StoreFacts.keeps_alloc.
  - intros h l Hh Hl. by eapply StoreFacts.alloc_unused.
  - exact Hf.
Qed.

Lemma keeps_daily_plan_step (h0 : gmap Store.loc Store.obj) (d : Z) (x : Store.hvalue)
    (chosen : Store.loc) (i : nat) :
  h0 !! chosen = None -> keeps h0 (Objects.daily_plan_step d x chosen i).
Proof.
  intros Hc. unfold Objects.daily_plan_step.
  apply StoreFacts.keeps_bind.
  { unfold Objects.interest_key.
    apply StoreFacts.keeps_bind; [apply keeps_attr|]. intros interests.
    apply StoreFacts.keeps_bind; [apply keeps_load_list|]. intros tags.
    destruct tags; [apply StoreFacts.keeps_ret|].
    apply StoreFacts.keeps_bind; [apply keeps_lift|]. intros j.
    apply StoreFacts.keeps_bind; [apply keeps_lift|]. intros tag.
    apply StoreFacts.keeps_bind; [apply keeps_text|]. intros t.
    apply StoreFacts.keeps_ret. }
  intros key. destruct (dict_get interest_map key interest_default) as [cat times].
  apply StoreFacts.keeps_bind; [apply keeps_lift|]. intros j.
  apply StoreFacts.keeps_bind; [apply keeps_lift|]. intros tod.
  apply StoreFacts.keeps_bind; [apply keeps_lift|]. intros ttl.
  apply StoreFacts.keeps_bind.
  { unfold Objects.mood_text.
    apply StoreFacts.keeps_bind; [apply keeps_attr|]. intros mood.
    apply StoreFacts.keeps_bind; [apply keeps_load_list|]. intros ms.
    apply StoreFacts.keeps_bind; [apply StoreFacts.keeps_map_each, keeps_text|].
    intros moods. apply StoreFacts.keeps_ret. }
  intros mood.
  apply StoreFacts.keeps_bind; [apply keeps_new_ItineraryItem|]. intros item.
  by apply keeps_append.
Qed.

Lemma keeps_generate_daily_plan (h0 : gmap Store.loc Store.obj) (d : Z) (x : Store.hvalue) :
  keeps h0 (Objects.generate_daily_plan d x).
Proof.
  unfold Objects.generate_daily_plan.
  apply keeps_alloc_then. intros buckets _.
  apply StoreFacts.keeps_bind; [apply keeps_attr_text|]. intros pc.
  apply keeps_alloc_then. intros chosen Hc.
  apply StoreFacts.keeps_bind; [|intros _; apply StoreFacts.keeps_ret].
  apply StoreFacts.keeps_each. intros i. by apply keeps_daily_plan_step.
Qed.

Lemma keeps_generate_itinerary (h0 : gmap Store.loc Store.obj) (x : Store.hvalue) :
  keeps h0 (Objects.generate_itinerary x).
Proof.
  unfold Objects.generate_itinerary.
  apply StoreFacts.keeps_bind; [apply keeps_attr_text|]. intros sd.
  apply StoreFacts.keeps_bind; [apply keeps_attr_text|]. intros ed.
  apply keeps_alloc_then. intros items Hitems.
  apply StoreFacts.keeps_bind; [apply keeps_new_ItineraryItem|]. intros arrival.
  apply StoreFacts.keeps_bind; [by apply keeps_append|]. intros _.
  apply StoreFacts.keeps_bind.
  { apply StoreFacts.keeps_each. intros d.
    apply StoreFacts.keeps_bind; [apply keeps_generate_daily_plan|]. intros plan.
    by apply keeps_extend. }
  intros _. apply StoreFacts.keeps_bind.
  { destruct (2 <? date_diff_days sd ed); [|apply StoreFacts.keeps_ret].
    apply StoreFacts.keeps_bind; [apply keeps_new_ItineraryItem|]. intros farewell.
    by apply keeps_append. }
  intros _.
  apply StoreFacts.keeps_bind; [apply keeps_attr_text|]. intros dest.
  apply StoreFacts.keeps_bind; [apply keeps_attr_text|]. intros pc.
  apply StoreFacts.keeps_bind; [apply keeps_attr_text|]. intros budget.
  apply StoreFacts.keeps_bind; [apply keeps_load_list|]. intros validated.
  apply StoreFacts.keeps_bind; [apply StoreFacts.keeps_alloc|]. intros items'.
  apply StoreFacts.keeps_bind; [apply StoreFacts.keeps_alloc|]. intros it.
  apply StoreFacts.keeps_ret.
Qed.

(** *** What a run returns *)

Lemma run_attr (h : gmap Store.loc Store.obj) (l : Store.loc)
    (fields : list (string * Store.hvalue)) (name : string) (v : Store.hvalue) :
  h !! l = Some (Store.ODict fields) -> dict_lookup fields name = Some v ->
  Objects.attr (Store.HRef l) name h = (Ok v, h).
Proof.
  intros Hl Hv. unfold Objects.attr.
  rewrite (run_bind _ _ _ _ _ (run_load_dict _ _ _ Hl)). by rewrite Hv.
Qed.

Lemma run_attr_text (h : gmap Store.loc Store.obj) (l : Store.loc)
    (fields : list (string * Store.hvalue)) (name s : string) :
  h !! l = Some (Store.ODict fields) -> dict_lookup fields name = Some (Store.HStr s) ->
  Store.bind (Objects.attr (Store.HRef l) name) (fun x => Objects.text x) h = (Ok s, h).
Proof. intros Hl Hv. by rewrite (run_bind _ _ _ _ _ (run_attr _ _ _ _ _ Hl Hv)). Qed.

Lemma run_load_list (h : gmap Store.loc Store.obj) (l : Store.loc) (xs : list Store.hvalue) :
  h !! l = Some (Store.OList xs) -> Objects.load_list (Store.HRef l) h = (Ok xs, h).
Proof. intros Hl. unfold Objects.load_list, Store.bind, Store.load. by rewrite Hl. Qed.

Lemma run_append (h : gmap Store.loc Store.obj) (l : Store.loc) (xs : list Store.hvalue)
    (x : Store.hvalue) :
  h !! l = Some (Store.OList xs) ->
  Objects.append l x h = (Ok tt, <[l := Store.OList (xs ++ [x])]> h).
Proof.
  intros Hl. unfold Objects.append.
  by rewrite (run_bind _ _ _ _ _ (run_load_list _ _ _ Hl)).
Qed.

Lemma run_extend (h : gmap Store.loc Store.obj) (l ly : Store.loc)
    (xs new : list Store.hvalue) :
  h !! ly = Some (Store.OList new) -> h !! l = Some (Store.OList xs) ->
  Objects.extend l (Store.HRef ly) h = (Ok tt, <[l := Store.OList (xs ++ new)]> h).
Proof.
  intros Hly Hl. unfold Objects.extend.
  rewrite (run_bind _ _ _ _ _ (run_load_list _ _ _ Hly)).
  by rewrite (run_bind _ _ _ _ _ (run_load_list _ _ _ Hl)).
Qed.

Lemma run_new_ItineraryItem (h : gmap Store.loc Store.obj) (d : Z)
    (ttl desc cat tod : string) (item : ItineraryItem) :
  new_ItineraryItem d ttl desc cat tod = Ok item ->
  Objects.new_ItineraryItem d ttl desc cat tod h =
  (Ok (Store.HRef (fresh (dom h))),
   <[fresh (dom h) := Store.ODict (Objects.item_fields item)]> h).
Proof.
  intros H. unfold Objects.new_ItineraryItem, Store.bind, Objects.lift. by rewrite H.
Qed.

Lemma run_map_each_text (h : gmap Store.loc Store.obj) (ss : list string) :
  Store.map_each Objects.text (map Store.HStr ss) h = (Ok ss, h).
Proof.
  induction ss as [|s ss IH]; [done|].
  cbn [map Store.map_each].
  rewrite (run_bind _ _ h h s eq_refl), (run_bind _ _ _ _ _ IH). done.
Qed.

Lemma new_ItineraryItem_defaults (d : Z) (ttl desc cat tod : string) (item : ItineraryItem) :
  new_ItineraryItem d ttl desc cat tod = Ok item ->
  location item = None /\ cost_estimate item = None.
Proof.
  unfold new_ItineraryItem. intros H.
  repeat match type of H with (if ?b then _ else _) = _ => destruct b end;
    try discriminate. by injection H as <-.
Qed.

(** The pure steps of one slot, one by one. *)
Lemma slot_parts (d : Z) (p : TripPreference) (i : nat) :
  1 <= d ->
  exists j tod ttl,
    py_mod i (length (slot_entry p i).2) = Ok j /\
    getitem (slot_entry p i).2 j = Ok tod /\
    dict_getitem title_table (slot_entry p i).1 = Ok ttl /\
    new_ItineraryItem d ttl
      ("Curated " ++ (slot_entry p i).1 ++ " stop aligned with your mood: "
       ++ mood_text p ++ ".") (slot_entry p i).1 tod = Ok (slot_item d p i).
Proof.
  intros Hd. pose proof (daily_plan_step_ok d p i [] Hd) as H.
  unfold daily_plan_step in H. rewrite interest_key_ok, bind_Ok in H.
  unfold slot_entry.
  destruct (dict_get interest_map (slot_tag p i) interest_default) as [cat times].
  apply bind_Ok_inv in H as (j & Hj & H).
  apply bind_Ok_inv in H as (tod & Htod & H).
  apply bind_Ok_inv in H as (ttl & Httl & H).
  apply bind_Ok_inv in H as (item & Hitem & H).
  injection H as <-. by exists j, tod, ttl.
Qed.

Lemma run_interest_key (h : gmap Store.loc Store.obj) (l li : Store.loc)
    (fields : list (string * Store.hvalue)) (p : TripPreference) (i : nat) :
  h !! l = Some (Store.ODict fields) ->
  dict_lookup fields "interests" = Some (Store.HRef li) ->
  h !! li = Some (Store.OList (map Store.HStr (interests p))) ->
  Objects.interest_key (Store.HRef l) i h = (Ok (slot_tag p i), h).
Proof.
  intros Hl Hf Hli. unfold Objects.interest_key.
  rewrite (run_bind _ _ _ _ _ (run_attr _ _ _ _ _ Hl Hf)).
  rewrite (run_bind _ _ _ _ _ (run_load_list _ _ _ Hli)).
  pose proof (interest_key_ok p i) as Hk. unfold interest_key in Hk.
  unfold slot_tag in *.
  destruct (interests p) as [|t ts]; [done|].
  apply bind_Ok_inv in Hk as (j & Hj & Hk).
  apply bind_Ok_inv in Hk as (tag & Htag & Hk).
  cbn [map]. rewrite <- (map_cons Store.HStr). rewrite length_map, Hj.
  rewrite (run_bind _ _ h h j eq_refl).
  assert (Hg : getitem (map Store.HStr (t :: ts)) j = Ok (Store.HStr tag)).
  { unfold getitem in *. rewrite list_lookup_fmap.
    destruct ((t :: ts) !! j); [|discriminate]. by injection Htag as ->. }
  rewrite Hg. rewrite (run_bind _ _ h h (Store.HStr tag) eq_refl).
  rewrite (run_bind _ _ h h tag eq_refl).
  unfold Store.ret. by injection Hk as ->.
Qed.

Lemma run_mood_text (h : gmap Store.loc Store.obj) (l lm : Store.loc)
    (fields : list (string * Store.hvalue)) (p : TripPreference) :
  h !! l = Some (Store.ODict fields) ->
  dict_lookup fields "mood" = Some (Store.HRef lm) ->
  h !! lm = Some (Store.OList (map Store.HStr (mood p))) ->
  Objects.mood_text (Store.HRef l) h = (Ok (mood_text p), h).
Proof.
  intros Hl Hf Hlm. unfold Objects.mood_text.
  rewrite (run_bind _ _ _ _ _ (run_attr _ _ _ _ _ Hl Hf)).
  rewrite (run_bind _ _ _ _ _ (run_load_list _ _ _ Hlm)).
  by rewrite (run_bind _ _ _ _ _ (run_map_each_text _ _)).
Qed.

Lemma prefs_at_mono (h h' : gmap Store.loc Store.obj) (x : Store.hvalue)
    (p : TripPreference) :
  h ⊆ h' -> prefs_at h x p -> prefs_at h' x p.
Proof.
  intros Hh (l & lm & li & -> & Hl & Hlm & Hli). exists l, lm, li.
  repeat split; try done; by eapply lookup_weaken.
Qed.

Lemma item_at_mono (h h' : gmap Store.loc Store.obj) (x : Store.hvalue)
    (item : ItineraryItem) :
  h ⊆ h' -> item_at h x item -> item_at h' x item.
Proof.
  intros Hh (l & -> & Hl & Hdef). exists l. repeat split; try apply Hdef.
  by eapply lookup_weaken.
Qed.

(** An update of the list at [c] leaves the items that were built. *)
Lemma built_at_store (h0 h : gmap Store.loc Store.obj) (c : Store.loc) (o : Store.obj)
    (y : Store.hvalue) (item : ItineraryItem) :
  built_at h0 c h y item -> built_at h0 c (<[c := o]> h) y item.
Proof.
  intros [(l & -> & Hl & Hdef) (k & [= <-] & Hk & Hnew)]. split.
  - exists l. repeat split; try apply Hdef. by rewrite lookup_insert_ne.
  - by exists l.
Qed.

Lemma run_daily_plan_step (h0 h : gmap Store.loc Store.obj) (d : Z) (x : Store.hvalue)
    (p : TripPreference) (c : Store.loc) (i : nat) (xs : list Store.hvalue)
    (acc : list ItineraryItem) :
  1 <= d -> prefs_at h0 x p -> h0 ⊆ h -> h0 !! c = None ->
  h !! c = Some (Store.OList xs) ->
  Forall2 (built_at h0 c h) xs acc ->
  exists h' ys,
    Objects.daily_plan_step d x c i h = (Ok tt, h') /\
    h0 ⊆ h' /\ h' !! c = Some (Store.OList ys) /\
    Forall2 (built_at h0 c h') ys (acc ++ [slot_item d p i]).
Proof.
  intros Hd Hp Hsub Hc0 Hc Hall.
  destruct (prefs_at_mono _ _ _ _ Hsub Hp) as (l & lm & li & -> & Hl & Hlm & Hli).
  unfold Objects.daily_plan_step.
  rewrite (run_bind _ _ _ _ _ (run_interest_key h l li _ p i Hl eq_refl Hli)).
  destruct (slot_parts d p i Hd) as (j & tod & ttl & Hj & Htod & Httl & Hitem).
  unfold slot_entry in Hj, Htod, Httl, Hitem.
  destruct (dict_get interest_map (slot_tag p i) interest_default) as [cat times].
  cbn [fst snd] in Hj, Htod, Httl, Hitem.
  rewrite Hj, (run_bind _ _ h h j eq_refl).
  rewrite Htod, (run_bind _ _ h h tod eq_refl).
  rewrite Httl, (run_bind _ _ h h ttl eq_refl).
  rewrite (run_bind _ _ _ _ _ (run_mood_text h l lm _ p Hl eq_refl Hlm)).
  rewrite (run_bind _ _ _ _ _ (run_new_ItineraryItem h _ _ _ _ _ _ Hitem)).
  set (k := fresh (dom h)).
  assert (Hk : h !! k = None) by apply (StoreFacts.fresh_unused h h), reflexivity.
  assert (Hk0 : h0 !! k = None) by by apply StoreFacts.fresh_unused.
  assert (Hkc : k <> c) by (intros ->; congruence).
  set (h1 := <[k := Store.ODict (Objects.item_fields (slot_item d p i))]> h).
  assert (Hc1 : h1 !! c = Some (Store.OList xs)).
  { unfold h1. by rewrite lookup_insert_ne. }
  rewrite (run_append _ _ _ _ Hc1).
  eexists _, _. split; [reflexivity|]. split; [|split].
  - apply insert_subseteq_r; [done|]. by apply insert_subseteq_r.
  - apply lookup_insert_eq.
  - apply Forall2_app.
    + eapply Forall2_impl; [exact Hall|]. intros y item Hy.
      apply built_at_store. destruct Hy as [Hy Hnew]. split; [|done].
      eapply item_at_mono; [|exact Hy]. by apply insert_subseteq.
    + constructor; [|constructor]. apply built_at_store. split.
      * exists k. split; [done|]. split; [apply lookup_insert_eq|].
        by eapply new_ItineraryItem_defaults.
      * by exists k.
Qed.

Lemma run_daily_plan_loop (h0 : gmap Store.loc Store.obj) (d : Z) (x : Store.hvalue)
    (p : TripPreference) (c : Store.loc) :
  1 <= d -> prefs_at h0 x p -> h0 !! c = None ->
  forall (slots : list nat) (h : gmap Store.loc Store.obj) (xs : list Store.hvalue)
         (acc : list ItineraryItem),
    h0 ⊆ h -> h !! c = Some (Store.OList xs) ->
    Forall2 (built_at h0 c h) xs acc ->
    exists h' ys,
      Store.each (Objects.daily_plan_step d x c) slots h = (Ok tt, h') /\
      h0 ⊆ h' /\ h' !! c = Some (Store.OList ys) /\
      Forall2 (built_at h0 c h') ys (acc ++ map (slot_item d p) slots).
Proof.
  intros Hd Hp Hc0. induction slots as [|i slots IH]; intros h xs acc Hsub Hc Hall.
  - exists h, xs. cbn [map]. rewrite app_nil_r. by repeat split.
  - destruct (run_daily_plan_step h0 h d x p c i xs acc Hd Hp Hsub Hc0 Hc Hall)
      as (h1 & ys & Hrun & Hsub1 & Hc1 & Hall1).
    destruct (IH h1 ys _ Hsub1 Hc1 Hall1) as (h' & ys' & Hrun' & Hsub' & Hc' & Hall').
    exists h', ys'. split; [|split; [done|split; [done|]]].
    + cbn [Store.each]. by rewrite (run_bind _ _ _ _ _ Hrun).
    + cbn [map]. by rewrite <- app_assoc in Hall'.
Qed.

Lemma run_generate_daily_plan (h : gmap Store.loc Store.obj) (d : Z) (x : Store.hvalue)
    (p : TripPreference) :
  1 <= d -> prefs_at h x p ->
  exists c h' ys,
    Objects.generate_daily_plan d x h = (Ok (Store.HRef c), h') /\
    h ⊆ h' /\ h !! c = None /\ h' !! c = Some (Store.OList ys) /\
    Forall2 (built_at h c h') ys (day_block d p).
Proof.
  intros Hd Hp. unfold Objects.generate_daily_plan.
  set (hb := <[fresh (dom h) := Store.OList []]> h).
  assert (Hhb : h ⊆ hb).
  { apply insert_subseteq. apply (StoreFacts.fresh_unused h h). reflexivity. }
  rewrite (run_bind _ _ h hb (fresh (dom h)) eq_refl).
  destruct (prefs_at_mono _ _ _ _ Hhb Hp) as (l & lm & li & Hx & Hl & Hlm & Hli).
  rewrite Hx.
  rewrite (run_bind _ _ _ _ _ (run_attr_text hb l _ "pace" (pace p) Hl eq_refl)).
  fold (pace_count p).
  set (c := fresh (dom hb)).
  set (hc := <[c := Store.OList []]> hb).
  rewrite (run_bind _ _ hb hc c eq_refl).
  assert (Hc0 : h !! c = None) by by apply StoreFacts.fresh_unused.
  assert (Hcb : hb !! c = None) by apply (StoreFacts.fresh_unused hb hb), reflexivity.
  assert (Hsub : h ⊆ hc).
  { etrans; [exact Hhb|]. by apply insert_subseteq. }
  rewrite <- Hx.
  destruct (run_daily_plan_loop h d x p c Hd Hp Hc0 (seq 0 (pace_count p)) hc [] []
              Hsub (lookup_insert_eq _ _ _) ltac:(constructor))
    as (h' & ys & Hrun & Hsub' & Hc' & Hall).
  rewrite (run_bind _ _ _ _ _ Hrun).
  exists c, h', ys. by repeat split.
Qed.

Lemma run_itinerary_loop (h0 : gmap Store.loc Store.obj) (x : Store.hvalue)
    (p : TripPreference) (c : Store.loc) :
  prefs_at h0 x p -> h0 !! c = None ->
  forall (ds : list Z) (h : gmap Store.loc Store.obj) (xs : list Store.hvalue)
         (acc : list ItineraryItem),
    (forall d, d ∈ ds -> 1 <= d) ->
    h0 ⊆ h -> h !! c = Some (Store.OList xs) ->
    Forall2 (built_at h0 c h) xs acc ->
    exists h' ys,
      Store.each
        (fun d => Store.bind (Objects.generate_daily_plan d x)
                    (fun plan => Objects.extend c plan)) ds h = (Ok tt, h') /\
      h0 ⊆ h' /\ h' !! c = Some (Store.OList ys) /\
      Forall2 (built_at h0 c h') ys (acc ++ concat (map (fun d => day_block d p) ds)).
Proof.
  intros Hp Hc0. induction ds as [|d ds IH]; intros h xs acc Hds Hsub Hc Hall.
  - exists h, xs. cbn [map concat]. rewrite app_nil_r. by repeat split.
  - assert (Hd : 1 <= d) by (apply Hds; left).
    destruct (run_generate_daily_plan h d x p Hd (prefs_at_mono _ _ _ _ Hsub Hp))
      as (cd & h1 & new & Hrun & Hsub1 & Hcd & Hcd1 & Hnew).
    assert (Hc1 : h1 !! c = Some (Store.OList xs)) by by eapply lookup_weaken.
    set (h2 := <[c := Store.OList (xs ++ new)]> h1).
    assert (Hall2 : Forall2 (built_at h0 c h2) (xs ++ new) (acc ++ day_block d p)).
    { apply Forall2_app.
      - eapply Forall2_impl; [exact Hall|]. intros y item [Hy Hk].
        apply built_at_store. split; [|done]. by eapply item_at_mono.
      - eapply Forall2_impl; [exact Hnew|]. intros y item [Hy (k & -> & _ & Hk)].
        apply built_at_store. split; [done|]. exists k. split; [done|]. split.
        + intros ->. congruence.
        + by eapply lookup_weaken_None. }
    destruct (IH h2 (xs ++ new)%list (acc ++ day_block d p)%list)
      as (h' & ys & Hrun' & Hsub' & Hc' & Hall').
    + intros d' Hd'. apply Hds. by right.
    + apply insert_subseteq_r; [done|]. by etrans.
    + apply lookup_insert_eq.
    + exact Hall2.
    + exists h', ys. split; [|split; [done|split; [done|]]].
      * cbn [Store.each]. rewrite (run_bind _ _ h h2 tt); [done|].
        rewrite (run_bind _ _ _ _ _ Hrun). by apply run_extend.
      * cbn [map concat]. by rewrite <- app_assoc in Hall'.
Qed.

Lemma items_at_built (h0 h : gmap Store.loc Store.obj) (c l : Store.loc)
    (xs : list Store.hvalue) (its : list ItineraryItem) :
  h !! l = Some (Store.OList xs) -> Forall2 (built_at h0 c h) xs its ->
  items_at h (Store.HRef l) its.
Proof.
  intros Hl Hall. exists l, xs. split; [done|]. split; [done|].
  eapply Forall2_impl; [exact Hall|]. by intros y item [Hy _].
Qed.

Lemma items_at_mono (h h' : gmap Store.loc Store.obj) (x : Store.hvalue)
    (its : list ItineraryItem) :
  h ⊆ h' -> items_at h x its -> items_at h' x its.
Proof.
  intros Hh (l & xs & -> & Hl & Hall). exists l, xs. split; [done|].
  split; [by eapply lookup_weaken|].
  eapply Forall2_impl; [exact Hall|]. intros y item Hy. by eapply item_at_mono.
Qed.

(** A run on a reference to preferences returns a reference to the
    itinerary of these preferences, and leaves the store's objects. *)
Lemma run_generate_itinerary (h : gmap Store.loc Store.obj) (x : Store.hvalue)
    (p : TripPreference) :
  prefs_at h x p ->
  exists r h' it,
    Objects.generate_itinerary x h = (Ok r, h') /\ h ⊆ h' /\
    generate_itinerary p = Ok it /\ itinerary_at h' r it.
Proof.
  intros Hp.
  assert (Hkeep : h ⊆ (Objects.generate_itinerary x h).2)
    by apply keeps_generate_itinerary, reflexivity.
  revert Hkeep. unfold Objects.generate_itinerary.
  destruct Hp as (l & lm & li & -> & Hl & Hlm & Hli).
  set (x := Store.HRef l).
  assert (Hp : prefs_at h x p) by by exists l, lm, li.
  rewrite (run_bind _ _ _ _ _ (run_attr_text h l _ "start_date" (start_date p) Hl eq_refl)).
  rewrite (run_bind _ _ _ _ _ (run_attr_text h l _ "end_date" (end_date p) Hl eq_refl)).
  fold (trip_days p). pose proof (trip_days_pos p) as Hpos.
  set (c := fresh (dom h)).
  set (hc := <[c := Store.OList []]> h).
  rewrite (run_bind (Store.alloc (Store.OList [])) _ h hc c eq_refl).
  assert (Hc0 : h !! c = None) by apply (StoreFacts.fresh_unused h h), reflexivity.
  assert (Hsubc : h ⊆ hc) by by apply insert_subseteq.
  assert (Harr : new_ItineraryItem 1 "Arrival & Check-in"
                   "Settle in and take a gentle neighborhood walk." "transport" "morning"
                 = Ok arrival_item) by done.
  rewrite (run_bind _ _ _ _ _ (run_new_ItineraryItem hc _ _ _ _ _ _ Harr)).
  set (ka := fresh (dom hc)).
  assert (Hka : hc !! ka = None) by apply (StoreFacts.fresh_unused hc hc), reflexivity.
  assert (Hka0 : h !! ka = None) by by apply StoreFacts.fresh_unused.
  assert (Hkac : ka <> c).
  { intros E. rewrite E in Hka. unfold hc in Hka. by rewrite lookup_insert_eq in Hka. }
  set (ha := <[ka := Store.ODict (Objects.item_fields arrival_item)]> hc).
  assert (Hca : ha !! c = Some (Store.OList [])).
  { unfold ha, hc. rewrite lookup_insert_ne by done. apply lookup_insert_eq. }
  rewrite (run_bind _ _ _ _ _ (run_append ha c [] (Store.HRef ka) Hca)).
  cbn [app].
  set (h1 := <[c := Store.OList [Store.HRef ka]]> ha).
  assert (Hsub1 : h ⊆ h1).
  { apply insert_subseteq_r; [done|]. apply insert_subseteq_r; [done|]. done. }
  assert (Hall1 : Forall2 (built_at h c h1) [Store.HRef ka] [arrival_item]).
  { constructor; [|constructor]. apply built_at_store. split.
    - exists ka. split; [done|]. split; [apply lookup_insert_eq | done].
    - by exists ka. }
  assert (Hds : forall d, d ∈ seqZ 1 (trip_days p) -> 1 <= d).
  { intros d Hd. apply elem_of_seqZ in Hd. lia. }
  destruct (run_itinerary_loop h x p c Hp Hc0 (seqZ 1 (trip_days p)) h1
              [Store.HRef ka] [arrival_item] Hds Hsub1 (lookup_insert_eq _ _ _) Hall1)
    as (h2 & ys & Hrun & Hsub2 & Hc2 & Hall2).
  rewrite (run_bind _ _ _ _ _ Hrun).
  assert (Hfare : exists h3 zs,
    (if 2 <? trip_days p
     then Store.bind
            (Objects.new_ItineraryItem (trip_days p) "Farewell Dinner"
               "Wrap up the trip with a memorable final meal." "food" "evening")
            (fun farewell => Objects.append c farewell)
     else Store.ret tt) h2 = (Ok tt, h3) /\
    h ⊆ h3 /\ h3 !! c = Some (Store.OList zs) /\
    Forall2 (built_at h c h3) zs (planned_items p)).
  { unfold planned_items. destruct (2 <? trip_days p) eqn:E.
    - apply Z.ltb_lt in E.
      assert (Hf : new_ItineraryItem (trip_days p) "Farewell Dinner"
                     "Wrap up the trip with a memorable final meal." "food" "evening"
                   = Ok (farewell_item (trip_days p))).
      { apply new_ItineraryItem_ok; [lia | done | done]. }
      rewrite (run_bind _ _ _ _ _ (run_new_ItineraryItem h2 _ _ _ _ _ _ Hf)).
      set (kf := fresh (dom h2)).
      assert (Hkf : h2 !! kf = None) by apply (StoreFacts.fresh_unused h2 h2), reflexivity.
      assert (Hkf0 : h !! kf = None) by by apply StoreFacts.fresh_unused.
      assert (Hkfc : kf <> c) by (intros ->; congruence).
      set (hf := <[kf := Store.ODict (Objects.item_fields (farewell_item (trip_days p)))]> h2).
      assert (Hcf : hf !! c = Some (Store.OList ys)).
      { unfold hf. by rewrite lookup_insert_ne. }
      rewrite (run_append _ _ _ _ Hcf).
      eexists _, _. split; [reflexivity|]. split; [|split].
      + apply insert_subseteq_r; [done|]. by apply insert_subseteq_r.
      + apply lookup_insert_eq.
      + rewrite app_assoc. apply Forall2_app.
        * eapply Forall2_impl; [exact Hall2|]. intros y item [Hy Hk].
          apply built_at_store. split; [|done].
          eapply item_at_mono; [|exact Hy]. by apply insert_subseteq.
        * constructor; [|constructor]. apply built_at_store. split.
          -- exists kf. split; [done|]. split; [apply lookup_insert_eq | done].
          -- by exists kf.
    - exists h2, ys. rewrite app_nil_r. by repeat split. }
  destruct Hfare as (h3 & zs & Hrun3 & Hsub3 & Hc3 & Hall3).
  rewrite (run_bind _ _ _ _ _ Hrun3).
  assert (Hl3 : h3 !! l = Some (Store.ODict (prefs_fields p (Store.HRef lm) (Store.HRef li))))
    by by eapply lookup_weaken.
  rewrite (run_bind _ _ _ _ _ (run_attr_text h3 l _ "destination" (destination p) Hl3 eq_refl)).
  rewrite (run_bind _ _ _ _ _ (run_attr_text h3 l _ "pace" (pace p) Hl3 eq_refl)).
  rewrite (run_bind _ _ _ _ _
             (run_attr_text h3 l _ "budget_level" (budget_level p) Hl3 eq_refl)).
  rewrite (run_bind _ _ _ _ _ (run_load_list _ _ _ Hc3)).
  set (ci := fresh (dom h3)).
  set (h4 := <[ci := Store.OList zs]> h3).
  rewrite (run_bind (Store.alloc (Store.OList zs)) _ h3 h4 ci eq_refl).
  set (ki := fresh (dom h4)).
  match goal with
  | |- context [Store.alloc ?o] => set (obj := o)
  end.
  set (h5 := <[ki := obj]> h4).
  rewrite (run_bind (Store.alloc obj) _ h4 h5 ki eq_refl).
  cbn [Store.ret snd]. intros Hkeep.
  assert (Hsub4 : h3 ⊆ h4).
  { apply insert_subseteq. apply (StoreFacts.fresh_unused h3 h3). reflexivity. }
  assert (Hsub5 : h4 ⊆ h5).
  { apply insert_subseteq. apply (StoreFacts.fresh_unused h4 h4). reflexivity. }
  eexists (Store.HRef ki), h5, _. split; [reflexivity|]. split; [exact Hkeep|].
  split; [apply generate_itinerary_ok|].
  exists ki, x, (Store.HRef ci). split; [done|]. split; [apply lookup_insert_eq|].
  cbn [preference items]. split.
  - exact (prefs_at_mono _ _ _ _ Hkeep Hp).
  - eapply items_at_mono; [exact Hsub5|].
    eapply items_at_built; [apply lookup_insert_eq|].
    eapply Forall2_impl; [exact Hall3|]. intros y item [Hy Hk]. split; [|exact Hk].
    exact (item_at_mono _ _ _ _ Hsub4 Hy).
Qed.

(** *** What the returned reference stands for *)

Lemma reify_texts (h : gmap Store.loc Store.obj) (n : nat) (ss : list string) :
  mapM (Store.reify h n) (map Store.HStr ss) = Some (map VStr ss).
Proof.
  induction ss as [|s ss IH]; [done|].
  cbn [map mapM]. rewrite IH. by destruct n.
Qed.

Lemma reify_opt_text (h : gmap Store.loc Store.obj) (n : nat) (o : option string) :
  Store.reify h n (opt_text o) = Some (opt_tree o).
Proof. by destruct o, n. Qed.

Lemma reify_text_list (h : gmap Store.loc Store.obj) (n : nat) (l : Store.loc)
    (ss : list string) :
  h !! l = Some (Store.OList (map Store.HStr ss)) ->
  Store.reify h (S n) (Store.HRef l) = Some (VList (map VStr ss)).
Proof. intros Hl. cbn [Store.reify]. by rewrite Hl, reify_texts. Qed.

Lemma reify_prefs (h : gmap Store.loc Store.obj) (n : nat) (x : Store.hvalue)
    (p : TripPreference) :
  prefs_at h x p -> Store.reify h (S (S n)) x = Some (prefs_tree p).
Proof.
  intros (l & lm & li & -> & Hl & Hlm & Hli).
  change (Store.reify h (S (S n)) (Store.HRef l)) with
    (match h !! l with
     | Some (Store.OList xs) => VList <$> mapM (Store.reify h (S n)) xs
     | Some (Store.ODict items) =>
         VDict <$> mapM (fun kv => v ← Store.reify h (S n) kv.2; Some (kv.1, v)) items
     | None => None
     end).
  rewrite Hl. unfold prefs_fields. cbn [mapM snd fst].
  rewrite (reify_text_list h n lm _ Hlm), (reify_text_list h n li _ Hli).
  rewrite reify_opt_text. reflexivity.
Qed.

Lemma reify_item (h : gmap Store.loc Store.obj) (n : nat) (y : Store.hvalue)
    (item : ItineraryItem) :
  item_at h y item -> Store.reify h (S n) y = Some (item_tree item).
Proof.
  intros (l & -> & Hl & _). cbn [Store.reify]. rewrite Hl.
  unfold Objects.item_fields. by destruct n.
Qed.

Lemma reify_items_at (h : gmap Store.loc Store.obj) (n : nat) (x : Store.hvalue)
    (its : list ItineraryItem) :
  items_at h x its -> Store.reify h (S (S n)) x = Some (VList (map item_tree its)).
Proof.
  intros (l & xs & -> & Hl & Hall).
  change (Store.reify h (S (S n)) (Store.HRef l)) with
    (match h !! l with
     | Some (Store.OList xs) => VList <$> mapM (Store.reify h (S n)) xs
     | Some (Store.ODict items) =>
         VDict <$> mapM (fun kv => v ← Store.reify h (S n) kv.2; Some (kv.1, v)) items
     | None => None
     end).
  rewrite Hl.
  assert (Hm : mapM (Store.reify h (S n)) xs = Some (map item_tree its)).
  { clear Hl. induction Hall as [|y item ys its' Hy Hall IH]; [done|].
    cbn [mapM map]. rewrite (reify_item _ _ _ _ Hy). cbn [mbind option_bind].
    rewrite IH. reflexivity. }
  by rewrite Hm.
Qed.

Lemma reify_itinerary (h : gmap Store.loc Store.obj) (n : nat) (r : Store.hvalue)
    (it : Itinerary) :
  itinerary_at h r it -> Store.reify h (S (S (S n))) r = Some (itinerary_tree it).
Proof.
  intros (l & xp & xi & -> & Hl & Hp & Hi).
  change (Store.reify h (S (S (S n))) (Store.HRef l)) with
    (match h !! l with
     | Some (Store.OList xs) => VList <$> mapM (Store.reify h (S (S n))) xs
     | Some (Store.ODict items) =>
         VDict <$> mapM (fun kv => v ← Store.reify h (S (S n)) kv.2; Some (kv.1, v)) items
     | None => None
     end).
  rewrite Hl. cbn [mapM snd fst].
  rewrite (reify_prefs _ _ _ _ Hp), (reify_items_at _ _ _ _ Hi), !reify_opt_text.
  reflexivity.
Qed.

(** C9: the generator has no effect on what was there and is determined
    by the preferences it is given. A run, on any argument and in any
    store, leaves every object of the store as it was, so every value
    that could be read before the run reads the same after it. Two runs
    on references to the same preferences, in any two stores and
    wherever the preferences are kept, both return, and the two
    references they return stand for the same itinerary, field by field
    and item by item: the one the generator as a function of the
    preferences gives. *)
Theorem generate_itinerary_deterministic :
  (forall (h : gmap Store.loc Store.obj) (x : Store.hvalue),
     h ⊆ (Objects.generate_itinerary x h).2 /\
     forall (fuel : nat) (y : Store.hvalue) (v : value),
       Store.reify h fuel y = Some v ->
       Store.reify (Objects.generate_itinerary x h).2 fuel y = Some v) /\
  (forall (h1 h2 : gmap Store.loc Store.obj) (x1 x2 : Store.hvalue) (p : TripPreference),
     prefs_at h1 x1 p -> prefs_at h2 x2 p ->
     exists (r1 r2 : Store.hvalue) (it : Itinerary),
       (Objects.generate_itinerary x1 h1).1 = Ok r1 /\
       (Objects.generate_itinerary x2 h2).1 = Ok r2 /\
       generate_itinerary p = Ok it /\
       itinerary_at (Objects.generate_itinerary x1 h1).2 r1 it /\
       itinerary_at (Objects.generate_itinerary x2 h2).2 r2 it /\
       forall fuel : nat,
         (3 <= fuel)%nat ->
         Store.reify (Objects.generate_itinerary x1 h1).2 fuel r1 = Some (itinerary_tree it) /\
         Store.reify (Objects.generate_itinerary x2 h2).2 fuel r2 = Some (itinerary_tree it)).
Proof.
  split.
  - intros h x.
    assert (Hkeep : h ⊆ (Objects.generate_itinerary x h).2)
      by apply keeps_generate_itinerary, reflexivity.
    split; [exact Hkeep|]. intros fuel y v. by apply StoreFacts.reify_mono.
  - intros h1 h2 x1 x2 p Hp1 Hp2.
    destruct (run_generate_itinerary h1 x1 p Hp1) as (r1 & h1' & it1 & Hrun1 & _ & Hit1 & Hat1).
    destruct (run_generate_itinerary h2 x2 p Hp2) as (r2 & h2' & it2 & Hrun2 & _ & Hit2 & Hat2).
    assert (it2 = it1) as -> by congruence.
    exists r1, r2, it1. rewrite Hrun1, Hrun2. cbn [fst snd].
    repeat (split; [done|]).
    intros fuel Hfuel. destruct fuel as [|[|[|n]]]; try lia.
    split; by apply reify_itinerary.
Qed.

Lemma generate_itinerary_deterministic_witness :
  exists (r1 r2 : Store.hvalue) (it : Itinerary),
    (Objects.generate_itinerary (Store.HRef 3%positive) paris_store).1 = Ok r1 /\
    (Objects.generate_itinerary (Store.HRef 9%positive) paris_store').1 = Ok r2 /\
    generate_itinerary paris_prefs = Ok it /\
    itinerary_at (Objects.generate_itinerary (Store.HRef 3%positive) paris_store).2 r1 it /\
    itinerary_at (Objects.generate_itinerary (Store.HRef 9%positive) paris_store').2 r2 it /\
    forall fuel : nat,
      (3 <= fuel)%nat ->
      Store.reify (Objects.generate_itinerary (Store.HRef 3%positive) paris_store).2 fuel r1
      = Some (itinerary_tree it) /\
      Store.reify (Objects.generate_itinerary (Store.HRef 9%positive) paris_store').2 fuel r2
      = Some (itinerary_tree it).
Proof.
  apply (proj2 generate_itinerary_deterministic paris_store paris_store'
           (Store.HRef 3%positive) (Store.HRef 9%positive) paris_prefs).
  - exists 3%positive, 1%positive, 2%positive. repeat split; reflexivity.
  - exists 9%positive, 7%positive, 4%positive. repeat split; reflexivity.
Defined.

(** * Further properties *)

(** ** More on the date range calculator *)

Lemma strptime_valid (s : string) (d : Calendar.date) :
  Calendar.strptime s = Some d -> Calendar.valid d = true.
Proof.
  unfold Calendar.strptime. intros H.
  destruct (Calendar.parse_Y s) as [[y r]|]; [|done]. simpl in H.
  destruct (Calendar.expect_dash r) as [r'|]; [|done]. simpl in H.
  destruct (Calendar.first_some _ _) as [dt|]; [|done]. simpl in H.
  destruct (Calendar.valid dt) eqn:E; [|done]. by injection H as <-.
Qed.

Lemma days_before_year_mono (y y' : Z) :
  y <= y' -> Calendar.days_before_year y <= Calendar.days_before_year y'.
Proof.
  intros H. replace y' with (y + Z.of_nat (Z.to_nat (y' - y))) by lia.
  induction (Z.to_nat (y' - y)) as [|n IH]; [by rewrite Z.add_0_r|].
  replace (y + Z.of_nat (S n)) with (y + Z.of_nat n + 1) by lia.
  rewrite days_before_year_succ. destruct (Calendar.is_leap _); lia.
Qed.

Lemma day_of_year_bound (y m dd : Z) :
  1 <= m <= 12 -> 1 <= dd <= Calendar.days_in_month y m ->
  1 <= Calendar.days_before_month y m + dd <= (if Calendar.is_leap y then 366 else 365).
Proof.
  intros Hm Hd.
  assert (Hcases : m = 1 \/ m = 2 \/ m = 3 \/ m = 4 \/ m = 5 \/ m = 6 \/ m = 7 \/ m = 8
                   \/ m = 9 \/ m = 10 \/ m = 11 \/ m = 12) by lia.
  destruct Hcases as [->|[->|[->|[->|[->|[->|[->|[->|[->|[->|[->| ->]]]]]]]]]]];
    revert Hd; unfold Calendar.days_before_month, Calendar.days_in_month; simpl;
    destruct (Calendar.is_leap y); simpl; lia.
Qed.

Lemma toordinal_bounds (d : Calendar.date) :
  Calendar.valid d = true -> 1 <= Calendar.toordinal d <= 3652059.
Proof.
  destruct d as [y m dd]. unfold Calendar.valid. simpl.
  rewrite !andb_true_iff, !Z.leb_le. intros [[[[[Hy1 Hy2] Hm1] Hm2] Hd1] Hd2].
  unfold Calendar.toordinal. simpl.
  pose proof (day_of_year_bound y m dd ltac:(lia) ltac:(lia)) as Hdoy.
  pose proof (days_before_year_mono 1 y Hy1) as Hlo.
  pose proof (days_before_year_mono (y + 1) 10000 ltac:(lia)) as Hhi.
  rewrite days_before_year_succ in Hhi.
  change (Calendar.days_before_year 1) with 0 in Hlo.
  change (Calendar.days_before_year 10000) with 3652059 in Hhi.
  destruct (Calendar.is_leap y); lia.
Qed.

(** X1: the day count is always between 1 and 3652059, the number of days
    from 0001-01-01 to 9999-12-31. *)
Theorem date_diff_days_bounds (start end_ : string) :
  1 <= date_diff_days start end_ <= 3652059.
Proof.
  unfold date_diff_days.
  destruct (Calendar.strptime start) as [sd|] eqn:Es; [|lia].
  destruct (Calendar.strptime end_) as [ed|] eqn:Ee; [|lia].
  apply strptime_valid, toordinal_bounds in Es, Ee. lia.
Qed.

(** *** Counting days *)

Lemma valid_iff (d : Calendar.date) :
  Calendar.valid d = true <->
  1 <= Calendar.year d <= 9999 /\ 1 <= Calendar.month d <= 12 /\
  1 <= Calendar.day d <= Calendar.days_in_month (Calendar.year d) (Calendar.month d).
Proof. unfold Calendar.valid. rewrite !andb_true_iff, !Z.leb_le. lia. Qed.

Lemma days_in_month_pos (y m : Z) : 28 <= Calendar.days_in_month y m.
Proof.
  unfold Calendar.days_in_month.
  repeat match goal with |- context [if ?b then _ else _] => destruct b end; lia.
Qed.

Lemma next_day_valid (d : Calendar.date) :
  Calendar.valid d = true -> Calendar.year (next_day d) <= 9999 ->
  Calendar.valid (next_day d) = true.
Proof.
  rewrite !valid_iff. destruct d as [y m dd]. unfold next_day.
  cbn [Calendar.year Calendar.month Calendar.day]. intros (Hy & Hm & Hd).
  destruct (dd <? Calendar.days_in_month y m) eqn:E1;
    [|destruct (m <? 12) eqn:E2];
    cbn [Calendar.year Calendar.month Calendar.day]; intros Hy'.
  - apply Z.ltb_lt in E1. lia.
  - apply Z.ltb_lt in E2. pose proof (days_in_month_pos y (m + 1)). lia.
  - pose proof (days_in_month_pos (y + 1) 1). lia.
Qed.

Lemma next_day_year (d : Calendar.date) :
  Calendar.year d <= Calendar.year (next_day d).
Proof.
  destruct d as [y m dd]. unfold next_day.
  repeat match goal with |- context [if ?b then _ else _] => destruct b end; simpl; lia.
Qed.

Lemma iter_next_day (n : nat) (d : Calendar.date) :
  Calendar.valid d = true ->
  Calendar.year (Nat.iter n next_day d) <= 9999 ->
  Calendar.valid (Nat.iter n next_day d) = true /\
  Calendar.toordinal (Nat.iter n next_day d) = Calendar.toordinal d + Z.of_nat n.
Proof.
  intros Hv. induction n as [|n IH]; simpl; intros Hy; [split; [done | lia]|].
  pose proof (next_day_year (Nat.iter n next_day d)) as Hmono.
  destruct IH as [IHv IHo]; [lia|].
  split; [by apply next_day_valid|].
  rewrite toordinal_next_day, IHo; [lia| |].
  all: unfold Calendar.valid in IHv; rewrite !andb_true_iff, !Z.leb_le in IHv; lia.
Qed.

(** X2: a trip that ends [n] calendar days after it starts counts [n + 1]
    days, across month ends, year ends and leap days. *)
Theorem date_diff_days_counts (d : Calendar.date) (n : nat) :
  Calendar.valid d = true ->
  Calendar.year (Nat.iter n next_day d) <= 9999 ->
  date_diff_days (iso_date d) (iso_date (Nat.iter n next_day d)) = Z.of_nat n + 1.
Proof.
  intros Hv Hy. destruct (iter_next_day n d Hv Hy) as [Hv' Ho].
  rewrite date_diff_days_iso by done. lia.
Qed.

Lemma date_diff_days_counts_witness :
  date_diff_days "2024-02-27" "2024-03-02" = 5.
Proof.
  apply (date_diff_days_counts (Calendar.mkDate 2024 2 27) 4); [reflexivity|].
  vm_compute. discriminate.
Defined.

(** *** Well-formed text that names no calendar day *)

Lemma strptime_iso_date_impossible (d : Calendar.date) :
  0 <= Calendar.year d <= 9999 -> 1 <= Calendar.month d <= 12 ->
  1 <= Calendar.day d <= 31 -> Calendar.valid d = false ->
  Calendar.strptime (iso_date d) = None.
Proof.
  destruct d as [y m dd]. cbn [Calendar.year Calendar.month Calendar.day].
  intros Hy Hm Hd Hv.
  unfold Calendar.strptime, iso_date.
  cbn [Calendar.year Calendar.month Calendar.day].
  remember (two_digits m ++ "-" ++ two_digits dd)%string as tail eqn:Htail.
  rewrite parse_Y_four_digits by lia.
  cbn [mbind option_bind]. rewrite expect_dash_dash. cbn [mbind option_bind].
  subst tail. rewrite parse_month_day by lia.
  cbn [mbind option_bind]. by rewrite Hv.
Qed.

(** X3: a text of the right shape that names no day of the calendar (the
    30th of February, the 31st of April, the year 0000) counts as
    unparsable: the result is 3 whatever the other date is. *)
Theorem date_diff_days_impossible_date (d : Calendar.date) (other : string) :
  0 <= Calendar.year d <= 9999 -> 1 <= Calendar.month d <= 12 ->
  1 <= Calendar.day d <= 31 -> Calendar.valid d = false ->
  date_diff_days (iso_date d) other = 3 /\ date_diff_days other (iso_date d) = 3.
Proof.
  intros Hy Hm Hd Hv. unfold date_diff_days.
  rewrite strptime_iso_date_impossible by done.
  split; [done|]. by destruct (Calendar.strptime other).
Qed.

Lemma date_diff_days_impossible_date_witness :
  date_diff_days "2024-02-30" "2024-03-05" = 3 /\
  date_diff_days "2024-03-05" "2024-02-30" = 3.
Proof.
  apply (date_diff_days_impossible_date (Calendar.mkDate 2024 2 30) "2024-03-05");
    cbn [Calendar.year Calendar.month Calendar.day]; first [lia | reflexivity].
Defined.

(** *** Month and day without padding *)

Lemma short_month_day_table :
  forallb (fun m => forallb (short_month_day_ok m) (seqZ 1 31)) (seqZ 1 12) = true.
Proof. by vm_compute. Qed.

Lemma parse_short_month_day (y m d : Z) :
  1 <= m <= 12 -> 1 <= d <= 31 ->
  Calendar.first_some (Calendar.parse_tail y)
    (Calendar.parse_m (PyStr.of_Z m ++ "-" ++ PyStr.of_Z d))
  = Some (Calendar.mkDate y m d).
Proof.
  intros Hm Hd. pose proof short_month_day_table as H.
  rewrite forallb_forall in H.
  assert (Hmi : In m (seqZ 1 12)) by (apply list_elem_of_In, elem_of_seqZ; lia).
  specialize (H m Hmi). rewrite forallb_forall in H.
  assert (Hdi : In d (seqZ 1 31)) by (apply list_elem_of_In, elem_of_seqZ; lia).
  specialize (H d Hdi). unfold short_month_day_ok in H.
  rewrite first_some_parse_tail_year.
  destruct (Calendar.first_some (Calendar.parse_tail 0) _) as [[y0 m0 d0]|]; [|done].
  cbn [Calendar.month Calendar.day] in H. apply andb_true_iff in H as [H1 H2].
  apply Z.eqb_eq in H1, H2. by subst.
Qed.

Lemma strptime_short_date (d : Calendar.date) :
  Calendar.valid d = true -> Calendar.strptime (short_date d) = Some d.
Proof.
  intros Hv. pose proof Hv as (Hy & Hm & Hd)%valid_iff. destruct d as [y m dd].
  cbn [Calendar.year Calendar.month Calendar.day] in *.
  assert (Hd31 : dd <= 31).
  { destruct Hd as [_ Hd2]. unfold Calendar.days_in_month in Hd2.
    repeat match type of Hd2 with context [if ?b then _ else _] => destruct b end; lia. }
  unfold Calendar.strptime, short_date.
  cbn [Calendar.year Calendar.month Calendar.day].
  remember (PyStr.of_Z m ++ "-" ++ PyStr.of_Z dd)%string as tail eqn:Htail.
  rewrite parse_Y_four_digits by lia.
  cbn [mbind option_bind]. rewrite expect_dash_dash. cbn [mbind option_bind].
  subst tail. rewrite parse_short_month_day by lia.
  cbn [mbind option_bind]. by rewrite Hv.
Qed.

(** X4: month and day may be written without the leading zero, in either
    date or in both; the count is the one of the dates meant. *)
Theorem date_diff_days_unpadded (sd ed : Calendar.date) :
  Calendar.valid sd = true -> Calendar.valid ed = true ->
  date_diff_days (short_date sd) (short_date ed)
  = Z.max 1 (Calendar.toordinal ed - Calendar.toordinal sd + 1) /\
  date_diff_days (short_date sd) (iso_date ed)
  = Z.max 1 (Calendar.toordinal ed - Calendar.toordinal sd + 1) /\
  date_diff_days (iso_date sd) (short_date ed)
  = Z.max 1 (Calendar.toordinal ed - Calendar.toordinal sd + 1).
Proof.
  intros Hs He. unfold date_diff_days.
  by rewrite !strptime_short_date, !strptime_iso_date.
Qed.

Lemma date_diff_days_unpadded_witness :
  date_diff_days "2024-6-1" "2024-6-5" = 5 /\
  date_diff_days "2024-6-1" "2024-06-05" = 5 /\
  date_diff_days "2024-06-01" "2024-6-5" = 5.
Proof.
  exact (date_diff_days_unpadded (Calendar.mkDate 2024 6 1) (Calendar.mkDate 2024 6 5)
           eq_refl eq_refl).
Defined.

(** *** Text after the date *)

Lemma digit_char_not_dash (k : Z) : 0 <= k <= 9 -> Ascii.eqb (digit_char k) "-" = false.
Proof.
  intros Hk.
  assert (H : k = 0 \/ k = 1 \/ k = 2 \/ k = 3 \/ k = 4 \/ k = 5 \/ k = 6 \/ k = 7
              \/ k = 8 \/ k = 9) by lia.
  destruct H as [->|[->|[->|[->|[->|[->|[->|[->|[->| ->]]]]]]]]]; reflexivity.
Qed.

Lemma parse_d_digits (x y : Z) (rest : string) :
  0 <= x <= 3 -> 0 <= y <= 9 -> 1 <= x * 10 + y <= 31 ->
  Calendar.parse_d (String (digit_char x) (String (digit_char y) rest))
  = Some (x * 10 + y, rest).
Proof.
  intros Hx Hy Hd. unfold Calendar.parse_d.
  rewrite (digit_digit_char x) by lia.
  destruct ((x =? 1) || (x =? 2)) eqn:E12.
  - by rewrite decimal_digit_char.
  - rewrite digit_digit_char by lia.
    assert (Hc : ((x =? 3) && (y <=? 1)) || ((x =? 0) && (1 <=? y)) = true).
    { rewrite orb_false_iff, !Z.eqb_neq in E12.
      rewrite !orb_true_iff, !andb_true_iff, !Z.eqb_eq, !Z.leb_le. lia. }
    by rewrite Hc.
Qed.

Lemma parse_tail_digit_first (y m k : Z) (rest : string) :
  0 <= k <= 9 -> Calendar.parse_tail y (m, String (digit_char k) rest) = None.
Proof.
  intros Hk. unfold Calendar.parse_tail, Calendar.expect_dash. cbn [snd].
  by rewrite digit_char_not_dash.
Qed.

Lemma parse_tail_trailing (y m x d : Z) (c : ascii) (s : string) :
  0 <= x <= 3 -> 0 <= d <= 9 -> 1 <= x * 10 + d <= 31 ->
  Calendar.parse_tail y
    (m, String "-" (String (digit_char x) (String (digit_char d) (String c s))))
  = None.
Proof.
  intros Hx Hd Hr. unfold Calendar.parse_tail. cbn [snd].
  change (Calendar.expect_dash (String "-" ?r)) with (Some r).
  cbn [mbind option_bind]. by rewrite parse_d_digits.
Qed.

Lemma strptime_trailing_text (d : Calendar.date) (c : ascii) (s : string) :
  0 <= Calendar.year d <= 9999 -> 1 <= Calendar.month d <= 12 ->
  1 <= Calendar.day d <= 31 ->
  Calendar.strptime (iso_date d ++ String c s) = None.
Proof.
  destruct d as [y m dd]. cbn [Calendar.year Calendar.month Calendar.day].
  intros Hy Hm Hd. unfold Calendar.strptime, iso_date.
  cbn [Calendar.year Calendar.month Calendar.day].
  rewrite !append_assoc.
  rewrite parse_Y_four_digits by lia.
  cbn [mbind option_bind]. rewrite expect_dash_dash. cbn [mbind option_bind].
  unfold two_digits.
  change (Calendar.first_some (Calendar.parse_tail y)
            (Calendar.parse_m
               (String (digit_char (m / 10)) (String (digit_char (m mod 10))
                  (String "-" (String (digit_char (dd / 10))
                     (String (digit_char (dd mod 10)) (String c s)))))))
          ≫= (fun dt => if Calendar.valid dt then Some dt else None) = None).
  assert (H10 : 0 <= m / 10 <= 9) by (Z.div_mod_to_equations; lia).
  assert (H1 : 0 <= m mod 10 <= 9) by (Z.div_mod_to_equations; lia).
  assert (Hx : 0 <= dd / 10 <= 3) by (Z.div_mod_to_equations; lia).
  assert (Hd1 : 0 <= dd mod 10 <= 9) by (Z.div_mod_to_equations; lia).
  assert (Hdd : 1 <= dd / 10 * 10 + dd mod 10 <= 31) by (Z.div_mod_to_equations; lia).
  unfold Calendar.parse_m. rewrite !digit_digit_char by lia.
  assert (Hnone : forall l : list (Z * string),
             (forall mr, mr ∈ l -> Calendar.parse_tail y mr = None) ->
             Calendar.first_some (Calendar.parse_tail y) l = None).
  { induction l as [|mr l IH]; intros Hl; simpl; [done|].
    rewrite (Hl mr) by left. apply IH. intros mr' Hin. apply Hl. by right. }
  rewrite Hnone; [done|].
  intros mr Hin. apply elem_of_app in Hin as [Hin | Hin].
  - destruct (_ || _) in Hin; [|by apply elem_of_nil in Hin].
    apply list_elem_of_singleton in Hin. subst mr. by apply parse_tail_trailing.
  - destruct (1 <=? m / 10) in Hin; [|by apply elem_of_nil in Hin].
    apply list_elem_of_singleton in Hin. subst mr. by apply parse_tail_digit_first.
Qed.

(** X5: a date followed by any further text (a time of day, a space, a
    letter) is unparsable, however good the date: the result is 3 whether
    it is the start or the end. *)
Theorem date_diff_days_trailing_text (d : Calendar.date) (s other : string) :
  Calendar.valid d = true -> s <> "" ->
  date_diff_days (iso_date d ++ s) other = 3 /\
  date_diff_days other (iso_date d ++ s) = 3.
Proof.
  intros (Hy & Hm & Hd)%valid_iff Hs. destruct s as [|c s]; [done|].
  assert (Hd31 : Calendar.day d <= 31).
  { destruct Hd as [_ Hd2]. unfold Calendar.days_in_month in Hd2.
    repeat match type of Hd2 with context [if ?b then _ else _] => destruct b end; lia. }
  unfold date_diff_days. rewrite strptime_trailing_text by lia.
  split; [done|]. by destruct (Calendar.strptime other).
Qed.

Lemma date_diff_days_trailing_text_witness :
  date_diff_days "2024-06-01T00:00:00" "2024-06-10" = 3 /\
  date_diff_days "2024-06-10" "2024-06-01T00:00:00" = 3.
Proof.
  apply (date_diff_days_trailing_text (Calendar.mkDate 2024 6 1) "T00:00:00" "2024-06-10");
    [reflexivity | discriminate].
Defined.

(** ** The emoji *)

Lemma lower_app (a b : string) :
  PyStr.lower (a ++ b) = (PyStr.lower a ++ PyStr.lower b)%string.
Proof. induction a as [|c a IH]; simpl; [done | by rewrite IH]. Qed.

Lemma prefix_app (k s : string) : String.prefix k (k ++ s) = true.
Proof.
  induction k as [|c k IH]; simpl; [by destruct s|].
  destruct (ascii_dec c c); [done | congruence].
Qed.

Lemma contains_of_prefix (k s : string) :
  String.prefix k s = true -> PyStr.contains k s = true.
Proof. intros H. destruct s; cbn [PyStr.contains]; by rewrite H. Qed.

Lemma contains_app (k a b : string) : PyStr.contains k (a ++ k ++ b) = true.
Proof.
  induction a as [|c a IH].
  - change (PyStr.contains k (k ++ b) = true). apply contains_of_prefix, prefix_app.
  - change (PyStr.contains k (String c (a ++ k ++ b)) = true).
    cbn [PyStr.contains]. rewrite IH. apply orb_true_r.
Qed.

Lemma any_in_occurs (keys : list string) (pre w post : string) :
  PyStr.lower w ∈ keys ->
  any_in keys (PyStr.lower (pre ++ w ++ post)) = true.
Proof.
  intros Hw. unfold any_in. apply existsb_exists.
  exists (PyStr.lower w). split; [by apply list_elem_of_In|].
  rewrite !lower_app. apply contains_app.
Qed.

(** X6: a destination that mentions Paris, Rome, Florence or Milan, in any
    letter case and anywhere in the text, gets the map emoji, whatever
    else the text mentions. *)
Theorem pick_emoji_first_group_wins (pre w post : string) :
  PyStr.lower w ∈ ["paris"; "rome"; "florence"; "milan"] ->
  pick_emoji (pre ++ w ++ post) = EMOJI_MAP.
Proof.
  intros Hw. unfold pick_emoji. by rewrite any_in_occurs.
Qed.

Lemma pick_emoji_first_group_wins_witness :
  pick_emoji "From Tokyo to PARIS by plane" = EMOJI_MAP.
Proof.
  apply (pick_emoji_first_group_wins "From Tokyo to " "PARIS" " by plane").
  rewrite !elem_of_cons. by left.
Defined.

Lemma elem_of_sub (l1 l2 : list string) (k : string) :
  forallb (fun x => is_literal x l2) l1 = true -> k ∈ l1 -> k ∈ l2.
Proof.
  intros H Hk. rewrite forallb_forall in H.
  apply is_literal_elem, H. by apply list_elem_of_In.
Qed.

Lemma any_in_false (keys : list string) (name : string) :
  any_in keys name = false <-> forall k, k ∈ keys -> PyStr.contains k name = false.
Proof.
  unfold any_in. split.
  - intros H k Hk. apply not_true_is_false. intros Hc.
    assert (existsb (fun k => PyStr.contains k name) keys = true); [|congruence].
    apply existsb_exists. exists k. split; [by apply list_elem_of_In | done].
  - intros H. apply not_true_is_false. intros He.
    apply existsb_exists in He as (k & Hk & Hc).
    rewrite H in Hc by (by apply list_elem_of_In). done.
Qed.





(** ** More on the generator *)

Lemma slot_item_literals (d : Z) (prefs : TripPreference) (i : nat) :
  is_literal (category (slot_item d prefs i)) CATEGORY_LITERAL = true /\
  is_literal (time_of_day (slot_item d prefs i)) TIME_OF_DAY_LITERAL = true.
Proof.
  split.
  - destruct (slot_item_fields d prefs i) as (_ & -> & _).
    pose proof (slot_entry_ok prefs i) as Hok.
    destruct (slot_entry prefs i) as [cat times]. simpl.
    unfold entry_ok in Hok. rewrite !andb_true_iff in Hok. tauto.
  - pose proof (slot_item_time d prefs i) as H.
    apply is_literal_elem. unfold TIME_OF_DAY_LITERAL.
    rewrite !elem_of_cons, elem_of_nil in H. rewrite !elem_of_cons. tauto.
Qed.

Lemma slot_item_valid (d : Z) (prefs : TripPreference) (i : nat) :
  1 <= d -> valid_item (slot_item d prefs i).
Proof.
  intros Hd. destruct (slot_item_literals d prefs i) as [Hc Ht].
  unfold valid_item.
  destruct (slot_item_fields d prefs i) as (Hday & _ & _). rewrite Hday.
  rewrite new_ItineraryItem_ok by done.
  f_equal. unfold slot_item. by destruct (slot_entry prefs i).
Qed.

Lemma day_block_days (d : Z) (prefs : TripPreference) :
  map day (day_block d prefs) = replicate (pace_count prefs) d.
Proof.
  unfold day_block. rewrite map_map.
  generalize 0%nat as k. induction (pace_count prefs) as [|n IH]; intros k; simpl; [done|].
  destruct (slot_item_fields d prefs k) as (-> & _). by rewrite IH.
Qed.

Lemma planned_items_days (prefs : TripPreference) :
  map day (planned_items prefs)
  = (1 :: concat (map (fun d => replicate (pace_count prefs) d) (seqZ 1 (trip_days prefs)))
       ++ (if 2 <? trip_days prefs then [trip_days prefs] else []))%list.
Proof.
  unfold planned_items. rewrite !map_app. simpl. f_equal. f_equal.
  - induction (seqZ 1 (trip_days prefs)) as [|d ds IH]; simpl; [done|].
    by rewrite map_app, IH, day_block_days.
  - by destruct (2 <? trip_days prefs).
Qed.

Lemma blocks_range (c : nat) (n x : Z) :
  x ∈ concat (map (fun d => replicate c d) (seqZ 1 n)) -> 1 <= x <= n.
Proof.
  intros Hx. apply list_elem_of_In, in_concat in Hx as (blk & Hblk & Hin).
  apply in_map_iff in Hblk as (d & <- & Hd).
  apply list_elem_of_In, elem_of_replicate in Hin as [-> _].
  apply list_elem_of_In, elem_of_seqZ in Hd. lia.
Qed.

Lemma replicate_blocks_sorted (c : nat) (ds : list Z) :
  StronglySorted Z.le ds ->
  StronglySorted Z.le (concat (map (fun d => replicate c d) ds)).
Proof.
  induction 1 as [|d ds Hs IH Hall]; simpl; [constructor|].
  apply StronglySorted_app. split; [|split; [|done]].
  - intros x y Hx Hy. apply elem_of_replicate in Hx as [-> _].
    apply list_elem_of_In, in_concat in Hy as (blk & Hblk & Hin).
    apply in_map_iff in Hblk as (d' & <- & Hd').
    apply list_elem_of_In, elem_of_replicate in Hin as [-> _].
    rewrite Forall_forall in Hall. by apply Hall, list_elem_of_In.
  - clear. induction c; simpl; constructor; [done|].
    apply Forall_forall. intros x Hx. apply elem_of_replicate in Hx as [-> _]. lia.
Qed.

Lemma seqZ_sorted (m n : Z) : StronglySorted Z.le (seqZ m n).
Proof.
  unfold seqZ. generalize (Z.to_nat n) as k. intros k.
  generalize 0%nat as s. induction k as [|k IH]; intros s; simpl; [constructor|].
  constructor; [apply IH|].
  apply Forall_forall. intros x Hx.
  apply list_elem_of_fmap in Hx as (j & -> & Hj). apply elem_of_seq in Hj. lia.
Qed.

(** X9: every item of a generated itinerary passes the validation of
    [ItineraryItem]: building an item anew from its fields succeeds and
    gives the same item. *)
Theorem items_pass_validation (prefs : TripPreference) :
  exists it,
    generate_itinerary prefs = Ok it /\
    Forall valid_item (items it).
Proof.
  eexists. split; [apply generate_itinerary_ok|]. cbn [items].
  pose proof (trip_days_pos prefs) as Hpos.
  unfold planned_items. rewrite !Forall_app. split; [|split].
  - by repeat constructor.
  - apply Forall_concat, Forall_fmap, Forall_forall. intros d Hd. simpl.
    apply elem_of_seqZ in Hd.
    unfold day_block. apply Forall_fmap, Forall_forall. intros i _. simpl.
    apply slot_item_valid. lia.
  - destruct (2 <? trip_days prefs) eqn:E; [|constructor].
    apply Z.ltb_lt in E. repeat constructor. unfold valid_item. simpl.
    apply new_ItineraryItem_ok; [lia|done|done].
Qed.

(** X10: every item of a generated itinerary lies on a day of the trip,
    from 1 to the day count, and the days never decrease along the list. *)
Theorem items_day_ascending (prefs : TripPreference) :
  exists it,
    generate_itinerary prefs = Ok it /\
    Forall (fun d => 1 <= d <= date_diff_days (start_date prefs) (end_date prefs))
           (map day (items it)) /\
    StronglySorted Z.le (map day (items it)).
Proof.
  eexists. split; [apply generate_itinerary_ok|]. cbn [items].
  pose proof (trip_days_pos prefs) as Hpos. fold (trip_days prefs).
  split.
  - rewrite planned_items_days. constructor; [lia|].
    apply Forall_app. split.
    + apply Forall_forall. intros x Hx. by apply blocks_range in Hx.
    + destruct (2 <? trip_days prefs); repeat constructor; lia.
  - rewrite planned_items_days.
    apply StronglySorted_cons. split.
    + apply Forall_app. split.
      * apply Forall_forall. intros x Hx. apply blocks_range in Hx. lia.
      * destruct (2 <? trip_days prefs); repeat constructor; lia.
    + apply StronglySorted_app. split; [|split].
      * intros x y Hx Hy. apply blocks_range in Hx.
        destruct (2 <? trip_days prefs); [|by apply elem_of_nil in Hy].
        apply list_elem_of_singleton in Hy. lia.
      * apply replicate_blocks_sorted, seqZ_sorted.
      * destruct (2 <? trip_days prefs); repeat constructor.
Qed.

(** *** What the items depend on *)

Lemma lower_nth (l : list string) (k : nat) :
  PyStr.lower (nth k l "") = nth k (map PyStr.lower l) "".
Proof. by rewrite <- (map_nth PyStr.lower l "" k). Qed.

Lemma slot_tag_lower (p q : TripPreference) (i : nat) :
  map PyStr.lower (interests p) = map PyStr.lower (interests q) ->
  slot_tag p i = slot_tag q i.
Proof.
  intros H. unfold slot_tag.
  assert (Hlen : length (interests p) = length (interests q)).
  { by rewrite <- (length_map PyStr.lower (interests p)), H, length_map. }
  destruct (interests p) as [|a l], (interests q) as [|b l']; try done.
  by rewrite !lower_nth, H, Hlen.
Qed.

Lemma planned_items_depend (p q : TripPreference) :
  start_date p = start_date q -> end_date p = end_date q ->
  pace p = pace q -> mood p = mood q ->
  map PyStr.lower (interests p) = map PyStr.lower (interests q) ->
  planned_items p = planned_items q.
Proof.
  intros Hs He Hp Hm Hi.
  assert (Hdays : trip_days p = trip_days q) by (unfold trip_days; by rewrite Hs, He).
  assert (Hcount : pace_count p = pace_count q) by (unfold pace_count; by rewrite Hp).
  assert (Hslot : forall d i, slot_item d p i = slot_item d q i).
  { intros d i. unfold slot_item, slot_entry, mood_text.
    by rewrite (slot_tag_lower p q i Hi), Hm. }
  unfold planned_items. rewrite Hdays. f_equal. f_equal. f_equal.
  apply map_ext. intros d. unfold day_block. rewrite Hcount. by apply map_ext.
Qed.

(** X11: the items of an itinerary are determined by the two dates, the
    pace, the mood and the interests up to letter case; destination,
    travelers, budget level and notes have no influence on them. *)
Theorem items_depend_only_on (p q : TripPreference) :
  start_date p = start_date q -> end_date p = end_date q ->
  pace p = pace q -> mood p = mood q ->
  map PyStr.lower (interests p) = map PyStr.lower (interests q) ->
  exists ip iq,
    generate_itinerary p = Ok ip /\ generate_itinerary q = Ok iq /\
    items ip = items iq.
Proof.
  intros Hs He Hp Hm Hi. eexists _, _.
  split; [apply generate_itinerary_ok|]. split; [apply generate_itinerary_ok|].
  cbn [items]. by apply planned_items_depend.
Qed.

Lemma items_depend_only_on_witness :
  exists ip iq,
    generate_itinerary paris_prefs = Ok ip /\ generate_itinerary rome_prefs = Ok iq /\
    items ip = items iq.
Proof.
  apply (items_depend_only_on paris_prefs rome_prefs); reflexivity.
Defined.

(** *** Interests the table does not know *)

Lemma slot_tag_cases (prefs : TripPreference) (i : nat) :
  slot_tag prefs i = "sightseeing" \/
  exists t, t ∈ interests prefs /\ slot_tag prefs i = PyStr.lower t.
Proof.
  unfold slot_tag. destruct (interests prefs) as [|a l] eqn:E; [by left|].
  right. eexists. split; [|done].
  apply list_elem_of_In, nth_In. apply Nat.mod_upper_bound. simpl. lia.
Qed.

(** X12: when no interest (lowercased) is a key of the interest table, and
    so when there are no interests at all, every activity of every day is
    "sightseeing" with the title "Iconic Landmark Walk", and the times of
    day go round morning, afternoon, evening. *)
Theorem unknown_interests_sightseeing (prefs : TripPreference) (day_idx : Z) :
  1 <= day_idx ->
  (forall t, t ∈ interests prefs -> dict_lookup interest_map (PyStr.lower t) = None) ->
  exists block,
    generate_daily_plan day_idx prefs = Ok block /\
    forall (i : nat) item,
      block !! i = Some item ->
      category item = "sightseeing" /\
      title item = "Iconic Landmark Walk" /\
      ["morning"; "afternoon"; "evening"] !! (i mod 3)%nat = Some (time_of_day item).
Proof.
  intros Hd Hunknown. exists (day_block day_idx prefs).
  split; [by apply generate_daily_plan_ok|].
  intros i item Hi. unfold day_block in Hi.
  rewrite list_lookup_fmap in Hi.
  destruct (seq 0 (pace_count prefs) !! i) as [k|] eqn:Ek; [|done].
  apply lookup_seq in Ek as [-> _]. simpl in Hi. injection Hi as <-.
  assert (Hentry : slot_entry prefs i = interest_default).
  { unfold slot_entry, dict_get.
    destruct (slot_tag_cases prefs i) as [-> | (t & Ht & ->)]; [done|].
    by rewrite (Hunknown t Ht). }
  destruct (slot_item_fields day_idx prefs i) as (_ & Hc & Ht).
  rewrite Hentry in Hc, Ht. simpl in Hc, Ht.
  split; [done|]. split; [|done].
  unfold slot_item. by rewrite Hentry.
Qed.

Lemma unknown_interests_sightseeing_witness :
  exists block,
    generate_daily_plan 1 hiking_prefs = Ok block /\
    map time_of_day block = ["morning"; "afternoon"; "evening"; "morning"].
Proof.
  destruct (unknown_interests_sightseeing hiking_prefs 1) as (block & Hgen & _).
  - lia.
  - intros t Ht. apply list_elem_of_singleton in Ht. by subst.
  - exists block. split; [exact Hgen|].
    rewrite generate_daily_plan_ok in Hgen by lia. injection Hgen as <-. reflexivity.
Defined.

(** *** The description *)

Lemma mood_text_cases (prefs : TripPreference) :
  mood_text prefs
  = match mood prefs with
    | [] | [""] => "explore"
    | _ => PyStr.join ", " (mood prefs)
    end.
Proof.
  unfold mood_text, PyStr.join.
  destruct (mood prefs) as [|x [|y l]]; [done| |]; simpl; by destruct x.
Qed.

(** X13: the description of every activity is "Curated <category> stop
    aligned with your mood: <moods>." where <moods> is the mood tags
    joined by ", ", or "explore" when there is no mood tag or the only
    tag is the empty text. *)
Theorem description_of_activity (prefs : TripPreference) (day_idx : Z) :
  1 <= day_idx ->
  exists block,
    generate_daily_plan day_idx prefs = Ok block /\
    Forall (fun item =>
              description item
              = ("Curated " ++ category item ++ " stop aligned with your mood: "
                 ++ match mood prefs with
                    | [] | [""] => "explore"
                    | _ => PyStr.join ", " (mood prefs)
                    end ++ ".")%string /\
              dict_lookup title_table (category item) = Some (title item))
           block.
Proof.
  intros Hd. exists (day_block day_idx prefs).
  split; [by apply generate_daily_plan_ok|].
  unfold day_block. apply Forall_fmap, Forall_forall. intros i _. simpl.
  rewrite <- mood_text_cases. unfold slot_item.
  pose proof (slot_entry_ok prefs i) as Hok.
  destruct (slot_entry prefs i) as [cat times]. simpl. split; [done|].
  unfold entry_ok in Hok. rewrite !andb_true_iff in Hok.
  destruct Hok as [[[_ _] Ht] _]. apply bool_decide_eq_true in Ht as [ttl Httl].
  unfold dict_get. by rewrite Httl.
Qed.

Lemma description_of_activity_witness :
  exists block,
    generate_daily_plan 1 moody_prefs = Ok block /\
    map description block
    = ["Curated culture stop aligned with your mood: calm, curious.";
       "Curated culture stop aligned with your mood: calm, curious."].
Proof.
  destruct (description_of_activity moody_prefs 1) as (block & Hgen & _); [lia|].
  exists block. split; [exact Hgen|].
  rewrite generate_daily_plan_ok in Hgen by lia. injection Hgen as <-. reflexivity.
Defined.

(** *** The two fixed items *)

Lemma slot_item_title (d : Z) (prefs : TripPreference) (i : nat) :
  title (slot_item d prefs i) ∈ map snd title_table.
Proof.
  unfold slot_item. pose proof (slot_entry_ok prefs i) as Hok.
  destruct (slot_entry prefs i) as [cat times]. simpl.
  unfold entry_ok in Hok. rewrite !andb_true_iff in Hok.
  destruct Hok as [[[_ _] Ht] _]. apply bool_decide_eq_true in Ht as [ttl Httl].
  destruct (dict_get_cases title_table cat "") as [H | H]; [|done].
  unfold dict_get in H. rewrite Httl in H. subst ttl.
  exfalso. clear -Httl. unfold title_table in Httl. simpl in Httl.
  repeat match type of Httl with
         | (if ?b then _ else _) = _ => destruct b; [discriminate|]
         end.
  discriminate.
Qed.

(** X14: the itinerary opens with the arrival item; a trip of more than two
    days closes with the farewell dinner on its last day, and no other
    item, and no item at all of a shorter trip, is titled "Farewell
    Dinner". *)
Theorem arrival_first_farewell_last (prefs : TripPreference) :
  exists it,
    generate_itinerary prefs = Ok it /\
    let days := date_diff_days (start_date prefs) (end_date prefs) in
    head (items it) = Some arrival_item /\
    (2 < days -> last (items it) = Some (farewell_item days)) /\
    (forall (k : nat) item,
        items it !! k = Some item -> title item = "Farewell Dinner" ->
        2 < days /\ S k = length (items it)).
Proof.
  eexists. split; [apply generate_itinerary_ok|]. cbn [items]. cbv zeta.
  fold (trip_days prefs). unfold planned_items.
  split; [done|]. split.
  - intros Hdays. apply Z.ltb_lt in Hdays. rewrite Hdays.
    rewrite app_assoc. by rewrite last_snoc.
  - intros k item Hk Htitle.
    apply lookup_app_Some in Hk as [Hk | [Hlen Hk]].
    { apply list_elem_of_lookup_2, list_elem_of_singleton in Hk. by subst. }
    apply lookup_app_Some in Hk as [Hk | [Hlen' Hk]].
    { exfalso.
      apply list_elem_of_lookup_2, list_elem_of_In, in_concat in Hk as (blk & Hblk & Hin).
      apply in_map_iff in Hblk as (d & <- & _).
      unfold day_block in Hin. apply in_map_iff in Hin as (i & <- & _).
      pose proof (slot_item_title d prefs i) as Ht. rewrite Htitle in Ht.
      simpl in Ht. rewrite !elem_of_cons, elem_of_nil in Ht.
      intuition discriminate. }
    destruct (2 <? trip_days prefs) eqn:E; [|by rewrite lookup_nil in Hk].
    apply Z.ltb_lt in E. split; [done|].
    apply lookup_lt_Some in Hk as Hlt. simpl in Hlt, Hlen, Hlen'.
    rewrite !length_app. simpl. lia.
Qed.

(** *** A day index below one *)

Lemma pace_count_pos (prefs : TripPreference) : exists n, pace_count prefs = S n.
Proof.
  unfold pace_count.
  destruct (dict_get_cases pace_to_count (pace prefs) 3%nat) as [-> | H]; [by eexists|].
  simpl in H. rewrite !elem_of_cons, elem_of_nil in H.
  destruct H as [-> | [-> | [-> | []]]]; by eexists.
Qed.

Lemma daily_plan_step_bad_day (day_idx : Z) (prefs : TripPreference) (i : nat)
    (chosen : list ItineraryItem) :
  day_idx < 1 ->
  daily_plan_step day_idx prefs i chosen = Raise (ValidationError "day").
Proof.
  intros Hday. unfold daily_plan_step.
  rewrite interest_key_ok, bind_Ok.
  pose proof (interest_lookup_ok (slot_tag prefs i)) as Hok.
  destruct (dict_get interest_map (slot_tag prefs i) interest_default) as [cat times].
  unfold entry_ok in Hok. rewrite !andb_true_iff in Hok.
  destruct Hok as [[[[Hne _] _] Htitle] _].
  apply negb_true_iff, Nat.eqb_neq in Hne.
  unfold py_mod. destruct (length times) as [|n] eqn:El; [lia|].
  rewrite bind_Ok. unfold getitem.
  assert (Hlt : (i mod S n < length times)%nat).
  { rewrite El. apply Nat.mod_upper_bound. lia. }
  destruct (lookup_lt_is_Some_2 times (i mod S n) Hlt) as [tod Htod].
  rewrite Htod, bind_Ok.
  unfold dict_getitem.
  apply bool_decide_eq_true in Htitle as [ttl Httl].
  rewrite Httl, bind_Ok.
  unfold new_ItineraryItem.
  replace (1 <=? day_idx) with false by (symmetry; apply Z.leb_gt; lia).
  reflexivity.
Qed.

(** X15: the per-day generation has no plan for a day index below 1: the
    first item it builds fails the validation of [ItineraryItem], and the
    call raises for the field "day" whatever the preferences are. *)
Theorem generate_daily_plan_rejects_day_below_one (prefs : TripPreference) (day_idx : Z) :
  day_idx < 1 ->
  generate_daily_plan day_idx prefs = Raise (ValidationError "day").
Proof.
  intros Hday. unfold generate_daily_plan. cbv zeta.
  change (dict_get pace_to_count (pace prefs) 3%nat) with (pace_count prefs).
  destruct (pace_count_pos prefs) as [n ->].
  cbn [seq for_each]. by rewrite daily_plan_step_bad_day.
Qed.

Lemma generate_daily_plan_rejects_day_below_one_witness :
  generate_daily_plan 0 paris_prefs = Raise (ValidationError "day").
Proof. apply (generate_daily_plan_rejects_day_below_one paris_prefs 0). lia. Defined.

(** *** Requests that pass validation *)

Lemma new_TripPreference_inv (dest sd ed : string) (n : Z) (budget pc : string)
    (md ints : list string) (nt : option string) (prefs : TripPreference) :
  new_TripPreference dest sd ed n budget pc md ints nt = Ok prefs ->
  prefs = mkTripPreference dest sd ed n budget pc md ints nt /\
  1 <= n <= 12 /\ budget ∈ BUDGET_LEVEL_LITERAL /\ pc ∈ PACE_LITERAL.
Proof.
  unfold new_TripPreference.
  destruct ((1 <=? n) && (n <=? 12)) eqn:En; [|done].
  destruct (is_literal budget BUDGET_LEVEL_LITERAL) eqn:Eb; [|done].
  destruct (is_literal pc PACE_LITERAL) eqn:Ep; [|done].
  cbn [negb]. intros [= <-]. split; [done|].
  apply andb_true_iff in En as [H1 H2]. apply Z.leb_le in H1, H2.
  split; [lia|]. split; by apply is_literal_elem.
Qed.

(** X16: for a request that passes the validation of [TripPreference] the
    pace is one of the table, so the fallback count is never used: each
    day has 2, 3 or 4 activities for relaxed, balanced, packed, and the
    itinerary has 1 + days * count items, one more when days > 2. *)
Theorem validated_request_item_count (dest sd ed : string) (n : Z) (budget pc : string)
    (md ints : list string) (nt : option string) (prefs : TripPreference) :
  new_TripPreference dest sd ed n budget pc md ints nt = Ok prefs ->
  exists count it,
    dict_lookup pace_to_count (pace prefs) = Some count /\
    (2 <= count <= 4)%nat /\
    generate_itinerary prefs = Ok it /\
    let days := date_diff_days (start_date prefs) (end_date prefs) in
    Z.of_nat (length (items it)) = 1 + days * Z.of_nat count + (if 2 <? days then 1 else 0).
Proof.
  intros (-> & _ & _ & Hp)%new_TripPreference_inv.
  set (prefs := mkTripPreference dest sd ed n budget pc md ints nt).
  assert (Hc : exists count, dict_lookup pace_to_count pc = Some count /\
                             (2 <= count <= 4)%nat).
  { unfold PACE_LITERAL in Hp. rewrite !elem_of_cons, elem_of_nil in Hp.
    destruct Hp as [-> | [-> | [-> | []]]]; eexists; (split; [reflexivity | lia]). }
  destruct Hc as (count & Hc & Hrange).
  exists count. eexists. split; [exact Hc|]. split; [exact Hrange|].
  split; [apply generate_itinerary_ok|].
  cbn [items]. rewrite item_count_closed_form.
  fold (trip_days prefs). pose proof (trip_days_pos prefs) as Hpos.
  assert (Hpc : pace_count prefs = count).
  { unfold pace_count, dict_get. cbn [pace prefs]. by rewrite Hc. }
  rewrite Hpc. cbv zeta. destruct (2 <? trip_days prefs); nia.
Qed.

Lemma validated_request_item_count_witness :
  exists count it,
    dict_lookup pace_to_count "packed" = Some count /\
    (2 <= count <= 4)%nat /\
    generate_itinerary mixed_prefs = Ok it /\
    Z.of_nat (length (items it)) = 1 + 2 * Z.of_nat count + 0.
Proof.
  exact (validated_request_item_count "Kyoto" "2024-04-01" "2024-04-02" 2 "luxury" "packed"
           ["calm"] ["Museums"; "hiking"; "FOOD"] None mixed_prefs eq_refl).
Defined.

(** ** More on the serializer *)

Lemma convert_nested_idem (v : value) :
  convert_nested (convert_nested v) = convert_nested v.
Proof.
  induction v as [| | | | | |xs IH|kvs IH] using value_nested_ind; simpl; try done.
  - f_equal. rewrite map_map. apply map_ext_Forall. done.
  - f_equal. rewrite map_map. apply map_ext_Forall.
    eapply Forall_impl; [exact IH|]. intros [k v] Hv. simpl in *. by rewrite Hv.
Qed.

Lemma convert_nested_items_NoDup (d : document) :
  NoDup (map fst d) -> NoDup (map fst (map (fun kv => (kv.1, convert_nested kv.2)) d)).
Proof. intros H. rewrite map_map. simpl. done. Qed.

(** X17: serializing twice is serializing once. *)
Theorem serialize_doc_idempotent (str_of str_of' : value -> string) (doc : document) :
  NoDup (map fst doc) ->
  exists out,
    serialize_doc str_of (Some doc) = Some out /\
    serialize_doc str_of' (Some out) = Some out.
Proof.
  intros Hnd. eexists. split; [by apply serialize_doc_eq|].
  set (out := map (fun kv => (kv.1, convert_nested kv.2)) (rename_id str_of doc)).
  assert (Hout : NoDup (map fst out)).
  { apply convert_nested_items_NoDup. by apply rename_id_NoDup. }
  rewrite serialize_doc_eq by done.
  assert (Hno : dict_lookup out "_id" = None).
  { unfold out. rewrite dict_lookup_map. unfold rename_id.
    destruct (dict_lookup doc "_id") eqn:E; [|by rewrite E].
    by rewrite dict_lookup_set, dict_lookup_pop. }
  unfold rename_id at 1. rewrite Hno. unfold out. rewrite map_map. f_equal.
  apply map_ext. intros [k v]. simpl. by rewrite convert_nested_idem.
Qed.

Lemma serialize_doc_idempotent_witness :
  exists out,
    serialize_doc str_plain (Some sample_doc) = Some out /\
    serialize_doc str_plain (Some out) = Some out.
Proof.
  apply (serialize_doc_idempotent str_plain str_plain sample_doc).
  apply NoDup_ListNoDup. vm_compute. repeat constructor; simpl; intuition discriminate.
Defined.

Lemma dict_pop_keys_filter {V : Type} (d : list (string * V)) (k : string) :
  map fst (dict_pop d k) = List.filter (fun x => negb (String.eqb x k)) (map fst d).
Proof.
  induction d as [|[k0 v0] d IH]; simpl; [done|].
  destruct (String.eqb k0 k); simpl; by rewrite IH.
Qed.

Lemma dict_mem_pop {V : Type} (d : list (string * V)) (k k' : string) :
  k <> k' -> dict_mem (dict_pop d k) k' = dict_mem d k'.
Proof.
  intros Hk. unfold dict_mem. rewrite dict_lookup_pop.
  apply String.eqb_neq in Hk. by rewrite Hk.
Qed.

(** X18: the keys of the result, in order: those of the document without
    "_id"; "id" keeps its place when the document had one and goes last
    otherwise. *)
Theorem serialize_doc_keys (str_of : value -> string) (doc : document) :
  NoDup (map fst doc) ->
  exists out,
    serialize_doc str_of (Some doc) = Some out /\
    NoDup (map fst out) /\
    map fst out
    = if dict_mem doc "_id"
      then let rest := List.filter (fun k => negb (String.eqb k "_id")) (map fst doc) in
           if dict_mem doc "id" then rest else (rest ++ ["id"])%list
      else map fst doc.
Proof.
  intros Hnd. eexists. split; [by apply serialize_doc_eq|]. split.
  { apply convert_nested_items_NoDup. by apply rename_id_NoDup. }
  rewrite map_map. simpl. unfold rename_id, dict_mem at 1.
  destruct (dict_lookup doc "_id") as [v|]; [|done].
  rewrite dict_set_keys, dict_mem_pop by done. cbv zeta.
  by rewrite dict_pop_keys_filter.
Qed.

Lemma serialize_doc_keys_witness :
  exists out,
    serialize_doc str_plain (Some both_ids_doc) = Some out /\
    NoDup (map fst out) /\
    map fst out = ["id"; "created_at"].
Proof.
  apply (serialize_doc_keys str_plain both_ids_doc).
  apply NoDup_ListNoDup. vm_compute. repeat constructor; simpl; intuition discriminate.
Defined.

(** *** Without the assumption on the keys *)

Lemma convert_top_keys (d : document) : map fst (convert_top d) = map fst d.
Proof.
  unfold convert_top.
  assert (H : forall rest acc,
             (forall kv, kv ∈ rest -> kv.1 ∈ map fst acc) ->
             map fst (fold_left
               (fun d kv => match kv.2 with
                            | VDatetime t => dict_set d kv.1 (VStr (isoformat t))
                            | _ => d
                            end) rest acc) = map fst acc).
  { induction rest as [|[k v] rest IH]; intros acc Hin; simpl; [done|].
    assert (Hk : k ∈ map fst acc) by (apply (Hin (k, v)); left).
    assert (Hstep : forall w, map fst (dict_set acc k w) = map fst acc).
    { intros w. rewrite dict_set_keys. unfold dict_mem.
      destruct (dict_lookup acc k) eqn:E; [done|]. by apply dict_lookup_None in E. }
    destruct v; simpl; try (apply IH; intros kv Hkv; apply Hin; by right).
    rewrite IH; [apply Hstep|].
    intros kv Hkv. rewrite Hstep. apply Hin. by right. }
  apply H. intros kv Hkv. apply list_elem_of_fmap. by exists kv.
Qed.

Lemma rename_id_no_id (str_of : value -> string) (doc : document) :
  dict_lookup (rename_id str_of doc) "_id" = None.
Proof.
  unfold rename_id. destruct (dict_lookup doc "_id") eqn:E; [|done].
  by rewrite dict_lookup_set, dict_lookup_pop.
Qed.

Lemma serialize_doc_as_convert (str_of : value -> string) (doc : document) :
  exists d0,
    serialize_doc str_of (Some doc) = Some (map (fun kv => (kv.1, convert_nested kv.2)) d0) /\
    dict_lookup d0 "_id" = None.
Proof.
  destruct doc as [|kv doc]; [by exists []|].
  exists (convert_top (rename_id str_of (kv :: doc))). split; [done|].
  apply dict_lookup_None. rewrite convert_top_keys. apply dict_lookup_None.
  apply rename_id_no_id.
Qed.

Lemma serialize_doc_json_safe (str_of : value -> string) (doc : document) :
  exists out,
    serialize_doc str_of (Some doc) = Some out /\
    dict_lookup out "_id" = None /\
    forall path t, value_at (VDict out) path <> Some (VDatetime t).
Proof.
  destruct (serialize_doc_as_convert str_of doc) as (d0 & Hout & Hid).
  eexists. split; [exact Hout|]. split.
  - by rewrite dict_lookup_map, Hid.
  - intros path t.
    change (VDict (map (fun kv => (kv.1, convert_nested kv.2)) d0))
      with (convert_nested (VDict d0)).
    apply convert_nested_no_datetime.
Qed.

(** ** The list route *)

(** X19: the list route answers with at most ten items, the serialized
    documents in the order of the cursor, none with an "_id" and the whole
    answer without a date-time at any depth; an exception of the store is
    answered with status 500. *)
Theorem list_itineraries_contract (str_of : value -> string) (exn_text : exn -> string)
    (find_sorted : string -> Z -> result (list document)) :
  match find_sorted "created_at" (-1) with
  | Ok docs =>
      exists items,
        list_itineraries str_of exn_text find_sorted = Ok [("items", VList items)] /\
        length items = Nat.min 10 (length docs) /\
        (forall i d, (i < 10)%nat -> docs !! i = Some d ->
           exists out, items !! i = Some (VDict out) /\
                       serialize_doc str_of (Some d) = Some out /\
                       dict_lookup out "_id" = None) /\
        (forall path t, value_at (VDict [("items", VList items)]) path <> Some (VDatetime t))
  | Raise e =>
      list_itineraries str_of exn_text find_sorted = Raise (HTTPException 500 (exn_text e))
  end.
Proof.
  unfold list_itineraries, limit.
  destruct (find_sorted "created_at" (-1)) as [docs|e]; [|done].
  cbn [mbind result_bind try_except]. eexists. split; [done|]. split; [|split].
  - by rewrite length_map, length_take.
  - intros i d Hi Hd.
    destruct (serialize_doc_json_safe str_of d) as (out & Hout & Hid & _).
    exists out. split; [|done].
    rewrite list_lookup_fmap, lookup_take_lt by done. rewrite Hd.
    cbn [fmap option_fmap option_map]. by rewrite Hout.
  - intros path t.
    assert (Hconv : exists xs, map (fun d => doc_value (serialize_doc str_of (Some d)))
                                 (take 10 docs) = map convert_nested xs).
    { induction (take 10 docs) as [|d ds [xs IH]]; [by exists []|].
      destruct (serialize_doc_as_convert str_of d) as (d0 & Hd0 & _).
      exists (VDict d0 :: xs). cbn [map]. by rewrite Hd0, IH. }
    destruct Hconv as [xs ->].
    change (VDict [("items", VList (map convert_nested xs))])
      with (convert_nested (VDict [("items", VList xs)])).
    apply convert_nested_no_datetime.
Qed.

(** ** The get-by-id route, when it returns *)

(** X20: the route returns exactly when the collection is reached, the
    identifier is well formed and the store answers with a non-empty
    document; what it returns is that document serialized, without "_id"
    and without a date-time at any depth. *)
Theorem get_itinerary_returns (str_of : value -> string) (exn_text : exn -> string)
    (find_one : result (string -> result (option document))) (itinerary_id : string)
    (r : option document) :
  (get_itinerary str_of exn_text find_one itinerary_id = Ok r <->
   exists query oid kv doc,
     find_one = Ok query /\
     ObjectId itinerary_id = Ok oid /\ query oid = Ok (Some (kv :: doc)) /\
     r = serialize_doc str_of (Some (kv :: doc))) /\
  (get_itinerary str_of exn_text find_one itinerary_id = Ok r ->
   exists out,
     r = Some out /\ dict_lookup out "_id" = None /\
     forall path t, value_at (VDict out) path <> Some (VDatetime t)).
Proof.
  assert (Hiff : get_itinerary str_of exn_text find_one itinerary_id = Ok r <->
    exists query oid kv doc,
      find_one = Ok query /\
      ObjectId itinerary_id = Ok oid /\ query oid = Ok (Some (kv :: doc)) /\
      r = serialize_doc str_of (Some (kv :: doc))).
  { unfold get_itinerary, try_except. split.
    - destruct find_one as [query|e]; [|done]. rewrite bind_Ok.
      destruct (ObjectId itinerary_id) as [oid|e]; [|done]. rewrite bind_Ok.
      destruct (query oid) as [[[|kv doc]|]|e] eqn:Hf; try done.
      rewrite bind_Ok. cbn [doc_truthy negb]. intros [= <-].
      by exists query, oid, kv, doc.
    - intros (query & oid & kv & doc & -> & -> & Hf & ->).
      rewrite !bind_Ok, Hf, bind_Ok. done. }
  split; [exact Hiff|].
  intros (query & oid & kv & doc & _ & _ & _ & ->)%Hiff.
  destruct (serialize_doc_json_safe str_of (kv :: doc)) as (out & Hout & Hsafe).
  exists out. split; [exact Hout | exact Hsafe].
Qed.

(** ** The generate route *)

(** X21: the generate route fails only when storing fails, and then with
    status 500 and the text of the exception; otherwise it answers with
    the identifier the store gave and the dumped itinerary, to which
    "created_at" is added as the ISO text of the clock reading, the other
    keys being left as dumped. *)
Theorem generate_route_contract (exn_text : exn -> string)
    (create_document : string -> Itinerary -> result string)
    (model_dump : Itinerary -> document) (utcnow : datetime) (prefs : TripPreference) :
  exists itinerary,
    generate_itinerary prefs = Ok itinerary /\
    match create_document "itinerary" itinerary with
    | Ok inserted_id =>
        exists payload,
          generate_route exn_text create_document model_dump utcnow prefs
          = Ok [("id", VStr inserted_id); ("itinerary", VDict payload)] /\
          dict_lookup payload "created_at" = Some (VStr (isoformat utcnow)) /\
          (forall k, k <> "created_at" ->
             dict_lookup payload k = dict_lookup (model_dump itinerary) k)
    | Raise e =>
        generate_route exn_text create_document model_dump utcnow prefs
        = Raise (HTTPException 500 (exn_text e))
    end.
Proof.
  eexists. split; [apply generate_itinerary_ok|].
  unfold generate_route. rewrite generate_itinerary_ok, bind_Ok.
  destruct (create_document "itinerary" _) as [inserted_id|e]; [|done].
  rewrite bind_Ok. cbn [try_except]. eexists. split; [done|]. split.
  - by rewrite dict_lookup_set, String.eqb_refl.
  - intros k Hk. rewrite dict_lookup_set.
    apply not_eq_sym, String.eqb_neq in Hk. rewrite String.eqb_sym in Hk.
    rewrite String.eqb_sym. by rewrite Hk.
Qed.

(** *** The loop over the top-level items *)

(** X22: the loop that converts the date-times at the top level changes
    nothing in the result: the nested conversion that follows gives the
    same document with and without it. *)
Theorem serialize_doc_top_loop_redundant (d : document) :
  NoDup (map fst d) ->
  convert_nested (VDict (convert_top d)) = convert_nested (VDict d).
Proof.
  intros Hnd. rewrite convert_top_map by done.
  cbn [convert_nested]. by rewrite convert_after_top.
Qed.

Lemma serialize_doc_top_loop_redundant_witness :
  convert_nested (VDict (convert_top sample_doc)) = convert_nested (VDict sample_doc).
Proof.
  apply (serialize_doc_top_loop_redundant sample_doc).
  apply NoDup_ListNoDup. vm_compute. repeat constructor; simpl; intuition discriminate.
Defined.

(** ** What the serializer returns, on shared objects *)

Lemma detached_mono (h0 h h' : gmap Store.loc Store.obj) (fuel : nat) (x : Store.hvalue) :
  h ⊆ h' -> detached h0 h fuel x -> detached h0 h' fuel x.
Proof.
  intros Hh. revert x. induction fuel as [|fuel IH]; intros x; destruct x; simpl; try done.
  intros [Hl Hx]. split; [done|].
  destruct (h !! l) as [o|] eqn:El; [|done].
  rewrite (lookup_weaken _ _ _ _ El Hh).
  destruct o as [xs|items]; (eapply Forall_impl; [exact Hx|]); simpl; intros; by apply IH.
Qed.

Lemma ensures_bind_post {A B : Type} (h0 : gmap Store.loc Store.obj) (post : A -> Prop)
    (m : Store.M A) (f : A -> Store.M B) (Q : B -> gmap Store.loc Store.obj -> Prop) :
  keeps h0 m ->
  (forall h a, h0 ⊆ h -> (m h).1 = Ok a -> post a) ->
  (forall a, post a -> ensures h0 (f a) Q) ->
  ensures h0 (Store.bind m f) Q.
Proof.
  intros Hm Hpost Hf h Hh b. unfold Store.bind.
  specialize (Hm h Hh). specialize (Hpost h).
  destruct (m h) as [[a|e] h'] eqn:E; simpl in *; [|done].
  apply Hf; [by apply Hpost | done].
Qed.

Lemma ensures_bind {A B : Type} (h0 : gmap Store.loc Store.obj)
    (m : Store.M A) (f : A -> Store.M B) (Q : B -> gmap Store.loc Store.obj -> Prop) :
  keeps h0 m -> (forall a, ensures h0 (f a) Q) -> ensures h0 (Store.bind m f) Q.
Proof. intros Hm Hf. apply (ensures_bind_post h0 (fun _ => True)); auto. Qed.

Lemma ensures_raise {A : Type} (h0 : gmap Store.loc Store.obj) (e : exn)
    (Q : A -> gmap Store.loc Store.obj -> Prop) :
  ensures h0 (Store.raise e) Q.
Proof. by intros h Hh a. Qed.

(** The members a comprehension collects keep what each of them was
    given, when that survives the growth of the store. *)
Lemma map_each_ensures {A B : Type} (h0 : gmap Store.loc Store.obj)
    (f : A -> Store.M B) (Q : B -> gmap Store.loc Store.obj -> Prop) (xs : list A) :
  (forall b h h', h ⊆ h' -> Q b h -> Q b h') ->
  (forall x h1, keeps h1 (f x)) ->
  (forall x, ensures h0 (f x) Q) ->
  ensures h0 (Store.map_each f xs) (fun ys h' => Forall (fun y => Q y h') ys).
Proof.
  intros Hmono Hkeep Hf. induction xs as [|x xs IH]; intros h Hh ys; simpl.
  - intros [= <-]. constructor.
  - unfold Store.bind.
    pose proof (Hf x h Hh) as Hx. pose proof (Hkeep x h0 h Hh) as Hh1.
    destruct (f x h) as [[y|e] h1] eqn:E1; simpl in *; [|done].
    pose proof (IH h1 Hh1) as Hxs. pose proof (Hkeep x h h (reflexivity h)) as Hgrow.
    rewrite E1 in Hgrow. simpl in Hgrow.
    assert (Hrest : h1 ⊆ (Store.map_each f xs h1).2).
    { clear -Hkeep. revert h1. induction xs as [|x' xs IH]; intros h1; simpl; [done|].
      unfold Store.bind. pose proof (Hkeep x' h1 h1 (reflexivity h1)) as H1.
      destruct (f x' h1) as [[y'|e'] h2]; simpl in *; [|done].
      specialize (IH h2).
      destruct (Store.map_each f xs h2) as [[ys'|e''] h3]; simpl in *; by etrans. }
    destruct (Store.map_each f xs h1) as [[ys'|e] h2] eqn:E2; simpl in *; [|done].
    intros [= <-]. constructor; [|by apply Hxs].
    eapply Hmono; [exact Hrest|]. by apply Hx.
Qed.

Lemma convert_nested_detached (h0 : gmap Store.loc Store.obj) (fuel : nat) (x : Store.hvalue) :
  ensures h0 (Store.convert_nested fuel x) (fun y h' => detached h0 h' fuel y).
Proof.
  revert x. induction fuel as [|fuel IH]; intros x; [by intros h Hh a|].
  destruct x; try (by intros h Hh a [= <-]).
  cbn [Store.convert_nested].
  apply ensures_bind; [apply StoreFacts.keeps_load|]. intros [xs|items].
  - intros h Hh y. unfold Store.bind.
    pose proof (map_each_ensures h0 (Store.convert_nested fuel)
                  (fun y h' => detached h0 h' fuel y) xs
                  (fun b h h' Hs Hb => detached_mono h0 h h' fuel b Hs Hb)
                  (fun x h1 => StoreFacts.keeps_convert_nested h1 fuel x)
                  IH h Hh) as Hmap.
    pose proof (StoreFacts.keeps_map_each h0 (Store.convert_nested fuel) xs
                  (fun x => StoreFacts.keeps_convert_nested h0 fuel x) h Hh) as Hsub.
    destruct (Store.map_each (Store.convert_nested fuel) xs h) as [[ys|e] h1];
      simpl in *; [|done].
    intros [= <-]. split; [by apply StoreFacts.fresh_unused|].
    rewrite lookup_insert_eq. specialize (Hmap ys eq_refl).
    eapply Forall_impl; [exact Hmap|]. simpl. intros y.
    apply detached_mono, alloc_grows.
  - intros h Hh y.
    set (g := fun kv : string * Store.hvalue =>
                Store.bind (Store.convert_nested fuel kv.2) (fun v => Store.ret (kv.1, v))).
    unfold Store.bind.
    assert (Hkeep : forall kv h1, keeps h1 (g kv)).
    { intros kv h1. apply StoreFacts.keeps_bind; [apply StoreFacts.keeps_convert_nested|].
      intros v. apply StoreFacts.keeps_ret. }
    assert (Hall : forall kv, ensures h0 (g kv) (fun kv' h' => detached h0 h' fuel kv'.2)).
    { intros kv h1 Hh1 a. unfold g, Store.bind.
      pose proof (IH kv.2 h1 Hh1) as Hkv.
      destruct (Store.convert_nested fuel kv.2 h1) as [[v|e] h2]; simpl in *; [|done].
      intros [= <-]. simpl. by apply Hkv. }
    pose proof (map_each_ensures h0 g
                  (fun kv h' => detached h0 h' fuel kv.2) items
                  (fun b h h' Hs Hb => detached_mono h0 h h' fuel b.2 Hs Hb)
                  Hkeep Hall h Hh) as Hmap.
    pose proof (StoreFacts.keeps_map_each h0 g items (fun kv => Hkeep kv h0) h Hh) as Hsub.
    destruct (Store.map_each g items h) as [[ys|e] h1]; simpl in *; [|done].
    intros [= <-]. split; [by apply StoreFacts.fresh_unused|].
    rewrite lookup_insert_eq. specialize (Hmap ys eq_refl).
    eapply Forall_impl; [exact Hmap|]. simpl. intros kv.
    apply detached_mono, alloc_grows.
Qed.

Lemma truthy_store (x : Store.hvalue) (h : gmap Store.loc Store.obj) :
  (Store.truthy x h).2 = h.
Proof.
  destruct x; try done. simpl. unfold Store.bind, Store.load.
  by destruct (h !! l).
Qed.

Lemma serialize_doc_body_detached (str_of : gmap Store.loc Store.obj -> Store.hvalue -> string)
    (h0 : gmap Store.loc Store.obj) (fuel : nat) (l : Store.loc) :
  ensures h0
    (Store.bind (Store.load_dict l) (fun items =>
     Store.bind (Store.alloc (Store.ODict items)) (fun d =>
     Store.bind (if dict_mem items "_id"
           then
             Store.bind (Store.load_dict d) (fun cur =>
             match dict_lookup cur "_id" with
             | Some v =>
                 Store.bind (Store.store d (Store.ODict (dict_pop cur "_id"))) (fun _ =>
                 Store.bind (Store.str str_of v) (fun s =>
                 Store.bind (Store.load_dict d) (fun cur' =>
                 Store.store d (Store.ODict (dict_set cur' "id" (Store.HStr s))))))
             | None => Store.raise (KeyError "_id")
             end)
           else Store.ret tt) (fun _ =>
     Store.bind (Store.load_dict d) (fun snapshot =>
     Store.bind (Store.each
             (fun kv =>
                match kv.2 with
                | Store.HDatetime t =>
                    Store.bind (Store.load_dict d) (fun cur =>
                    Store.store d (Store.ODict (dict_set cur kv.1 (Store.HStr (isoformat t)))))
                | _ => Store.ret tt
                end)
             snapshot) (fun _ =>
     Store.convert_nested fuel (Store.HRef d)))))))
    (fun r h' => detached h0 h' fuel r).
Proof.
  apply ensures_bind; [apply StoreFacts.keeps_load_dict|]. intros items.
  apply (ensures_bind_post h0 (fun d => h0 !! d = None)).
  { apply StoreFacts.keeps_alloc. }
  { intros h d Hh Hd. by eapply StoreFacts.alloc_unused. }
  intros d Hd.
  apply ensures_bind.
  { destruct (dict_mem items "_id"); [|apply StoreFacts.keeps_ret].
    apply StoreFacts.keeps_bind; [apply StoreFacts.keeps_load_dict|]. intros cur.
    destruct (dict_lookup cur "_id") as [v|]; [|apply StoreFacts.keeps_raise].
    apply StoreFacts.keeps_bind; [by apply StoreFacts.keeps_store|]. intros _.
    apply StoreFacts.keeps_bind; [by intros h Hh|]. intros s.
    apply StoreFacts.keeps_bind; [apply StoreFacts.keeps_load_dict|]. intros cur'.
    by apply StoreFacts.keeps_store. }
  intros _.
  apply ensures_bind; [apply StoreFacts.keeps_load_dict|]. intros snapshot.
  apply ensures_bind.
  { apply StoreFacts.keeps_each. intros [k v]. destruct v; simpl; try apply StoreFacts.keeps_ret.
    apply StoreFacts.keeps_bind; [apply StoreFacts.keeps_load_dict|]. intros cur.
    by apply StoreFacts.keeps_store. }
  intros _. apply convert_nested_detached.
Qed.

(** X23: a falsy argument comes back as the same reference with the store
    untouched; otherwise the result is built only from objects made
    during the call: neither it nor any list or dict inside it is an
    object the store held before. *)
Theorem serialize_doc_result_is_new
    (str_of : gmap Store.loc Store.obj -> Store.hvalue -> string)
    (fuel : nat) (doc : Store.hvalue) (h : gmap Store.loc Store.obj) (r : Store.hvalue) :
  (Store.serialize_doc str_of fuel doc h).1 = Ok r ->
  ((Store.truthy doc h).1 = Ok false /\ r = doc /\
   (Store.serialize_doc str_of fuel doc h).2 = h) \/
  ((Store.truthy doc h).1 = Ok true /\
   detached h (Store.serialize_doc str_of fuel doc h).2 fuel r).
Proof.
  unfold Store.serialize_doc.
  pose proof (truthy_store doc h) as Hh.
  destruct (Store.truthy doc h) as [[[|]|e] h1] eqn:Et; simpl in Hh; subst h1.
  - rewrite (run_bind _ _ _ _ _ Et). cbn [negb fst].
    intros Hr. right. split; [done|].
    destruct doc; try done.
    exact (serialize_doc_body_detached str_of h fuel l h (reflexivity h) r Hr).
  - rewrite (run_bind _ _ _ _ _ Et). cbn [negb fst]. intros [= <-]. by left.
  - unfold Store.bind at 1. by rewrite Et.
Qed.

Lemma serialize_doc_result_is_new_witness :
  let run := Store.serialize_doc str_atom 3 (Store.HRef 2%positive) shared_store in
  exists l, run.1 = Ok (Store.HRef l) /\ shared_store !! l = None /\
            detached shared_store run.2 3 (Store.HRef l).
Proof.
  intros run. exists 6%positive.
  assert (Hr : run.1 = Ok (Store.HRef 6%positive)) by (by vm_compute).
  split; [exact Hr|].
  destruct (serialize_doc_result_is_new str_atom 3 (Store.HRef 2%positive) shared_store
              (Store.HRef 6%positive) Hr) as [(Hf & _) | (_ & Hd)].
  - by vm_compute in Hf.
  - split; [apply Hd | exact Hd].
Defined.

(** ** The store model against the tree model, on an example *)

Lemma serialize_doc_refines_witness :
  exists r h' out,
    Store.serialize_doc (str_reified 1) 3 (Store.HRef 2%positive) shared_store = (Ok r, h') /\
    serialize_doc str_plain
      (Some [("_id", VObjectId "665a1f0c2b3c4d5e6f708192");
             ("a", VList [VDatetime sample_created; VInt 7]);
             ("b", VList [VDatetime sample_created; VInt 7]);
             ("when", VDatetime sample_created)]) = Some out /\
    Store.reify h' 2 r = Some (VDict out).
Proof.
  apply (serialize_doc_refines (str_reified 1) str_plain 1).
  - intros h x v Hv. unfold str_reified. by rewrite Hv.
  - reflexivity.
  - lia.
Defined.

(** ** The diagnostic route *)

(** X24: whatever the database does, the report has the six keys in their
    order; "database_url" and "database_name" say only whether the two
    environment variables are set, so the name of the database is never
    reported; "collections" holds at most ten names, the first the
    database lists, and is empty unless listing succeeded. *)
Theorem test_database_report (exn_text : exn -> string) (db : option Database)
    (getenv : string -> option string) :
  let response := test_database exn_text db getenv in
  map fst response
  = ["backend"; "database"; "database_url"; "database_name"; "connection_status";
     "collections"] /\
  dict_lookup response "backend" = Some (VStr "✅ Running") /\
  dict_lookup response "database_url" = Some (set_or_not (getenv "DATABASE_URL")) /\
  dict_lookup response "database_name" = Some (set_or_not (getenv "DATABASE_NAME")) /\
  exists names,
    dict_lookup response "collections" = Some (VList (map VStr names)) /\
    (length names <= 10)%nat /\
    match db with
    | Some (mkDatabase (Ok _) (Ok listed)) => names = take 10 listed
    | _ => names = []
    end.
Proof.
  intros response. subst response. unfold test_database.
  destruct db as [[[attr|e] [listed|e']]|]; cbn [db_name list_collection_names].
  all: split; [reflexivity|]; split; [reflexivity|]; split; [reflexivity|];
    split; [reflexivity|].
  - exists (take 10 listed). split; [reflexivity|]. split; [|reflexivity].
    rewrite length_take. lia.
  - exists []. split; [reflexivity|]. split; [simpl; lia | reflexivity].
  - exists []. split; [reflexivity|]. split; [simpl; lia | reflexivity].
  - exists []. split; [reflexivity|]. split; [simpl; lia | reflexivity].
  - exists []. split; [reflexivity|]. split; [simpl; lia | reflexivity].
Qed.
